(** * Medical-Agent backend: the pricing and matching engine

    A shallow embedding of [backend/app/main.py]: the charge index built by
    [load_hcpcs_database], [lookup_hcpcs_code], [find_similar_cheaper_codes],
    [parse_charge], [detect_duplicates] and the merge step of [analyze_bill],
    followed by the properties the specification states about them.

    Conventions of the embedding.
    - A Python [str] is a [string]; a character is a code point below 256
      (Latin-1), on which [str.lower], [str.split], [str.strip] and [float]
      are modelled exactly.
    - A Python [float] is a binary64 value of [spec_float]; arithmetic and
      comparisons are the IEEE 754 ones of [SpecFloat] at precision 53.
    - A value read by [json.load] is a [json] tree; operations that Python
      rejects at run time return [Raise] with the exception they raise.
    - A [dict] whose iteration order is observed (the charge index) is an
      insertion-ordered association list; a [dict] used only as a map is a
      [gmap]. *)

From Stdlib Require Import ZArith List String Ascii Bool Lia SpecFloat.
From Stdlib Require Import Sorted Permutation.
From stdpp Require Import base option list gmap strings.
Import ListNotations.

Set Warnings "-register-all".

Local Open Scope string_scope.
Local Open Scope list_scope.

(** ** Python values and builtins *)

Module Py.

(** *** Exceptions and fallible computations *)

Inductive exn : Type :=
  | AttributeError | TypeError | ValueError | OverflowError | OSError.

Inductive result (A : Type) : Type :=
  | Ok (a : A)
  | Raise (e : exn).
Arguments Ok {A} a.
Arguments Raise {A} e.

Definition bind {A B} (r : result A) (k : A -> result B) : result B :=
  match r with
  | Ok a => k a
  | Raise e => Raise e
  end.

Definition returns {A} (r : result A) : Prop := exists a, r = Ok a.
Definition raises {A} (r : result A) : Prop := exists e, r = Raise e.

(** [for x in xs: acc = f(acc, x)] where the body may raise. *)
Fixpoint foldM {A S} (f : S -> A -> result S) (xs : list A) (s : S) : result S :=
  match xs with
  | [] => Ok s
  | x :: xs' => bind (f s x) (foldM f xs')
  end.

Fixpoint mapM {A B} (f : A -> result B) (xs : list A) : result (list B) :=
  match xs with
  | [] => Ok []
  | x :: xs' => bind (f x) (fun y => bind (mapM f xs') (fun ys => Ok (y :: ys)))
  end.

(** *** Strings *)

Definition chars (s : string) : list ascii := list_ascii_of_string s.
Definition str (l : list ascii) : string := string_of_list_ascii l.

Definition code_in (lo hi : N) (c : ascii) : bool :=
  (N.leb lo (N_of_ascii c) && N.leb (N_of_ascii c) hi)%bool.

(** [str.isspace] on code points below 256: U+0009..U+000D, U+001C..U+0020,
    U+0085 and U+00A0. *)
Definition is_space (c : ascii) : bool :=
  (code_in 9 13 c || code_in 28 32 c || code_in 133 133 c || code_in 160 160 c)%bool.

(** [str.lower] on code points below 256: A..Z and the Latin-1 capitals
    U+00C0..U+00DE (U+00D7 apart) move up by 32. *)
Definition lower_char (c : ascii) : ascii :=
  if (code_in 65 90 c || code_in 192 214 c || code_in 216 222 c)%bool
  then ascii_of_N (N_of_ascii c + 32)
  else c.

Definition lower (s : string) : string := str (List.map lower_char (chars s)).

(** [s.replace(c, "")] for a one-character [c]. *)
Definition remove_char (c : ascii) (s : string) : string :=
  str (List.filter (fun x => negb (Ascii.eqb x c)) (chars s)).

Fixpoint lstrip_chars (ws : ascii -> bool) (l : list ascii) : list ascii :=
  match l with
  | c :: l' => if ws c then lstrip_chars ws l' else l
  | [] => []
  end.

Definition strip_chars (ws : ascii -> bool) (l : list ascii) : list ascii :=
  List.rev (lstrip_chars ws (List.rev (lstrip_chars ws l))).

(** [s.strip()] *)
Definition strip (s : string) : string := str (strip_chars is_space (chars s)).

(** [s.split()]: the maximal runs of non-whitespace characters, in order.
    [w] is the run being read, reversed. *)
Fixpoint split_go (l : list ascii) (w : list ascii) : list string :=
  match l with
  | [] => match w with [] => [] | _ => [str (List.rev w)] end
  | c :: l' =>
      if is_space c
      then match w with
           | [] => split_go l' []
           | _ => str (List.rev w) :: split_go l' []
           end
      else split_go l' (c :: w)
  end.

Definition split (s : string) : list string := split_go (chars s) [].

Fixpoint is_prefix (p l : list ascii) : bool :=
  match p, l with
  | [], _ => true
  | a :: p', b :: l' => (Ascii.eqb a b && is_prefix p' l')%bool
  | _ :: _, [] => false
  end.

Fixpoint occurs_in (p l : list ascii) : bool :=
  (is_prefix p l || match l with [] => false | _ :: l' => occurs_in p l' end)%bool.

(** [sub in s] on strings *)
Definition contains (s sub : string) : bool := occurs_in (chars sub) (chars s).

(** [len(s)] *)
Definition len (s : string) : nat := String.length s.

(** Truthiness of a string: [bool(s)] *)
Definition nonempty (s : string) : bool :=
  match s with EmptyString => false | _ => true end.

(** *** Floats

    binary64: 53 bits of precision, exponent of the infinities 1024. *)

Definition prec : Z := 53.
Definition emax : Z := 1024.

Definition fzero : spec_float := S754_zero false.
Definition finf : spec_float := S754_infinity false.
Definition flt (x y : spec_float) : bool := SFltb x y.
Definition fadd (x y : spec_float) : spec_float := SFadd prec emax x y.

(** [bool(x)] for a float: every value but the two zeros, NaN included. *)
Definition float_truthy (x : spec_float) : bool :=
  match x with S754_zero _ => false | _ => true end.

(** [float(n)] for an [int]: the nearest binary64, ties to even;
    [OverflowError] when that is not finite. *)
Definition float_of_int (z : Z) : result spec_float :=
  match binary_normalize prec emax z 0 false with
  | S754_infinity _ => Raise OverflowError
  | f => Ok f
  end.

(** The binary64 nearest to [m * 10^e10] (ties to even, overflow to an
    infinity, underflow to a subnormal or zero), for [0 <= m]; [neg] is the
    sign. This is what the correctly rounded [strtod] of CPython computes. *)
Definition float_of_decimal (neg : bool) (m e10 : Z) : spec_float :=
  match m with
  | Zpos _ =>
      if (0 <=? e10)%Z
      then binary_round prec emax neg (Z.to_pos (m * 10 ^ e10)) 0
      else let '(q, e, l) := SFdiv_core_binary prec emax m 0 (10 ^ (- e10)) 0 in
           binary_round_aux prec emax neg q e l
  | _ => S754_zero neg
  end.

Definition is_digit (c : ascii) : bool := code_in 48 57 c.
Definition digit_val (c : ascii) : Z := Z.of_N (N_of_ascii c) - 48.
Definition digits_val (ds : list ascii) : Z :=
  fold_left (fun acc d => 10 * acc + digit_val d)%Z ds 0%Z.

Fixpoint span_digits (l : list ascii) : list ascii * list ascii :=
  match l with
  | c :: l' =>
      if is_digit c
      then let '(ds, r) := span_digits l' in (c :: ds, r)
      else ([], l)
  | [] => ([], [])
  end.

Definition is_char (x : ascii) (c : ascii) : bool := Ascii.eqb c x.

(** Underscores in a numeric literal: allowed only between two digits, and
    removed. [prev] is the character before [l] (NUL at the start). *)
Fixpoint strip_underscores (prev : ascii) (l : list ascii) : option (list ascii) :=
  match l with
  | [] => if is_char "_" prev then None else Some []
  | c :: l' =>
      if is_char "_" c
      then if is_digit prev then strip_underscores c l' else None
      else if (is_char "_" prev && negb (is_digit c))%bool then None
      else option_map (cons c) (strip_underscores c l')
  end.

(** The whitespace [float] skips at both ends: the ASCII class of C and the
    two Latin-1 spaces that CPython first rewrites to a blank. *)
Definition is_float_space (c : ascii) : bool :=
  (code_in 9 13 c || code_in 32 32 c || code_in 133 133 c || code_in 160 160 c)%bool.

Definition take_sign (l : list ascii) : bool * list ascii :=
  match l with
  | c :: l' =>
      if is_char "-" c then (true, l')
      else if is_char "+" c then (false, l')
      else (false, l)
  | [] => (false, [])
  end.

Definition ascii_lower (c : ascii) : ascii :=
  if code_in 65 90 c then ascii_of_N (N_of_ascii c + 32) else c.

(** [inf], [infinity] and [nan], in any case, after the sign. *)
Definition parse_inf_nan (neg : bool) (l : list ascii) : option spec_float :=
  let w := str (List.map ascii_lower l) in
  if (String.eqb w "inf" || String.eqb w "infinity")%bool then Some (S754_infinity neg)
  else if String.eqb w "nan" then Some S754_nan
  else None.

(** The exponent part: nothing, or [e] or [E], a sign, and one digit at
    least; it has to use up the rest of the literal. *)
Definition parse_exponent (l : list ascii) : option Z :=
  match l with
  | [] => Some 0%Z
  | c :: l' =>
      if (is_char "e" c || is_char "E" c)%bool
      then let '(neg, ds) := take_sign l' in
           match ds with
           | [] => None
           | _ => if forallb is_digit ds
                  then Some (if neg then - digits_val ds else digits_val ds)%Z
                  else None
           end
      else None
  end.

(** A decimal literal after the sign: digits with at most one point and one
    digit at least, then the exponent part. *)
Definition parse_decimal (neg : bool) (l : list ascii) : option spec_float :=
  let '(ip, r1) := span_digits l in
  let '(fp, r2) :=
    match r1 with
    | c :: r1' => if is_char "." c then span_digits r1' else ([], r1)
    | [] => ([], [])
    end in
  match ip ++ fp with
  | [] => None
  | ds =>
      match parse_exponent r2 with
      | Some e => Some (float_of_decimal neg (digits_val ds) (e - Z.of_nat (List.length fp)))
      | None => None
      end
  end.

(** [float(s)] for a [str]: [ValueError] unless the whole of [s], less the
    surrounding whitespace, is a literal. *)
Definition float_of_str (s : string) : result spec_float :=
  match strip_underscores zero (chars s) with
  | None => Raise ValueError
  | Some l =>
      let '(neg, body) := take_sign (strip_chars is_float_space l) in
      match parse_decimal neg body with
      | Some f => Ok f
      | None =>
          match parse_inf_nan neg body with
          | Some f => Ok f
          | None => Raise ValueError
          end
      end
  end.

(** *** Values read by [json.load]

    Integers stay exact ([int]); a literal with a fraction or an exponent, and
    [NaN], [Infinity], [-Infinity], are floats. An object is the [dict] built
    from it: its keys are distinct, and [get] reads the first binding. *)

Inductive json : Type :=
  | JNull
  | JBool (b : bool)
  | JInt (z : Z)
  | JFloat (f : spec_float)
  | JStr (s : string)
  | JArr (l : list json)
  | JObj (kvs : list (string * json)).

(** [bool(v)] *)
Definition truthy (v : json) : bool :=
  match v with
  | JNull => false
  | JBool b => b
  | JInt z => negb (Z.eqb z 0)
  | JFloat f => float_truthy f
  | JStr s => nonempty s
  | JArr l => match l with [] => false | _ => true end
  | JObj kvs => match kvs with [] => false | _ => true end
  end.

Fixpoint assoc (k : string) (kvs : list (string * json)) : option json :=
  match kvs with
  | [] => None
  | (k', v) :: kvs' => if String.eqb k k' then Some v else assoc k kvs'
  end.

(** [v.get(k, d)]: only a [dict] has the method. *)
Definition get_default (v : json) (k : string) (d : json) : result json :=
  match v with
  | JObj kvs => Ok (match assoc k kvs with Some x => x | None => d end)
  | _ => Raise AttributeError
  end.

(** [v.get(k)] *)
Definition get (v : json) (k : string) : result json := get_default v k JNull.

(** What [for x in v] goes through: the elements of a list, the characters of
    a string, the keys of a dict; [TypeError] for the rest. *)
Definition iter (v : json) : result (list json) :=
  match v with
  | JArr l => Ok l
  | JStr s => Ok (List.map (fun c => JStr (String c EmptyString)) (chars s))
  | JObj kvs => Ok (List.map (fun kv => JStr (fst kv)) kvs)
  | _ => Raise TypeError
  end.

(** [v == s] for a string [s] *)
Definition eq_str (v : json) (s : string) : bool :=
  match v with JStr s' => String.eqb s' s | _ => false end.

(** [v.lower()]: only a [str] has the method. *)
Definition lower_of (v : json) : result string :=
  match v with JStr s => Ok (lower s) | _ => Raise AttributeError end.

(** [v[:n]] succeeds on a [str] and on a [list] only. *)
Definition slice_to (n : nat) (v : json) : result json :=
  match v with
  | JStr s => Ok (JStr (str (firstn n (chars s))))
  | JArr l => Ok (JArr (firstn n l))
  | _ => Raise TypeError
  end.

(** [len(v)] *)
Definition len_of (v : json) : result nat :=
  match v with
  | JStr s => Ok (len s)
  | JArr l => Ok (List.length l)
  | JObj kvs => Ok (List.length kvs)
  | _ => Raise TypeError
  end.

Definition fone : spec_float := S754_finite false 4503599627370496 (-52).

(** [float(v)] *)
Definition float_of (v : json) : result spec_float :=
  match v with
  | JFloat f => Ok f
  | JInt z => float_of_int z
  | JBool b => Ok (if b then fone else fzero)
  | JStr s => float_of_str s
  | _ => Raise TypeError
  end.

(** *** Dictionary keys

    Two keys are the same key when Python finds them equal: strings by their
    text, numbers ([bool], [int], [float]) by their exact value, so that
    [1], [1.0] and [True] are one key. A finite number is kept as [m * 2^e]
    with [m] odd (or as [0 * 2^0]), which makes equal numbers equal terms.
    Every [NaN] of a document is the one object of the decoder, hence one
    key. *)

Inductive pykey : Type :=
  | KNone
  | KStr (s : string)
  | KNum (m e : Z)
  | KInf (neg : bool)
  | KNaN.

#[global] Instance pykey_eq_dec : EqDecision pykey.
Proof. solve_decision. Defined.

Fixpoint odd_part (p : positive) : positive * Z :=
  match p with
  | xO p' => let '(m, e) := odd_part p' in (m, (e + 1)%Z)
  | _ => (p, 0%Z)
  end.

Definition num_key (neg : bool) (p : positive) (e : Z) : pykey :=
  let '(m, k) := odd_part p in
  KNum (if neg then Zneg m else Zpos m) (e + k).

(** The key a value hashes to; lists and dicts are unhashable. *)
Definition hash_key (v : json) : result pykey :=
  match v with
  | JNull => Ok KNone
  | JStr s => Ok (KStr s)
  | JBool b => Ok (if b then KNum 1 0 else KNum 0 0)
  | JInt Z0 => Ok (KNum 0 0)
  | JInt (Zpos p) => Ok (num_key false p 0)
  | JInt (Zneg p) => Ok (num_key true p 0)
  | JFloat (S754_zero _) => Ok (KNum 0 0)
  | JFloat (S754_infinity s) => Ok (KInf s)
  | JFloat S754_nan => Ok KNaN
  | JFloat (S754_finite s m e) => Ok (num_key s m e)
  | JArr _ | JObj _ => Raise TypeError
  end.

(** [try: body  except E: handler], for the exceptions [E] that [catches]
    accepts. *)
Definition try_except {A} (body : result A) (catches : exn -> bool)
    (handler : exn -> result A) : result A :=
  match body with
  | Ok a => Ok a
  | Raise e => if catches e then handler e else Raise e
  end.

Definition is_ValueError (e : exn) : bool :=
  match e with ValueError => true | _ => false end.

(** [except Exception]: every exception of the model is one. *)
Definition is_Exception (e : exn) : bool := true.

End Py.

(** ** ChargeParser *)

Module ChargeParser.
Import Py.

(** [parse_charge], lines 285-294. *)
Definition parse_charge (charge_str : option string) : result spec_float :=
  match charge_str with
  | None => Ok fzero
  | Some s =>
      if negb (nonempty s) then Ok fzero
      else
        let cleaned := strip (remove_char "," (remove_char "$" s)) in
        try_except (float_of_str cleaned) is_ValueError (fun _ => Ok fzero)
  end.

End ChargeParser.

(** ** ChargeIndex *)

Module ChargeIndex.
Import Py.

(** The dict stored per code, lines 113-118. It always has these four keys,
    so a later [entry.get(k, d)] never falls back on [d]. *)
Record db_entry : Type := {
  description : json;
  code : json;
  standard_charges : json;
  revenue_code : json
}.

(** [HCPCS_DATABASE]: the entries in insertion order, which is the order
    [HCPCS_DATABASE.items()] visits them in. *)
Definition index : Type := list (pykey * db_entry).

(** [HCPCS_DATABASE[k]], if [k in HCPCS_DATABASE] *)
Fixpoint index_get (db : index) (k : pykey) : option db_entry :=
  match db with
  | [] => None
  | (k', e) :: db' => if decide (k' = k) then Some e else index_get db' k
  end.

Definition index_mem (db : index) (k : pykey) : bool :=
  match index_get db k with Some _ => true | None => false end.

Definition keys (db : index) : list pykey := List.map fst db.

Inductive log_event : Type :=
  | Info_loading
  | Warning_not_found
  | Info_parsing
  | Info_loaded (n : nat)
  | Error_loading (e : exn).

(** The process state the loader works on. *)
Record world : Type := {
  HCPCS_DATABASE : index;
  log : list log_event
}.

(** Statements that read and write the state and may raise; the state at
    the point of the exception is kept. *)
Definition M (A : Type) : Type := world -> result A * world.

Definition ret {A} (a : A) : M A := fun w => (Ok a, w).
Definition lift {A} (r : result A) : M A := fun w => (r, w).
Definition bindM {A B} (m : M A) (k : A -> M B) : M B :=
  fun w => match m w with
           | (Ok a, w') => k a w'
           | (Raise e, w') => (Raise e, w')
           end.
Definition read_db : M index := fun w => (Ok (HCPCS_DATABASE w), w).
Definition store (k : pykey) (e : db_entry) : M unit :=
  fun w => (Ok tt, {| HCPCS_DATABASE := HCPCS_DATABASE w ++ [(k, e)]; log := log w |}).
Definition logger (ev : log_event) : M unit :=
  fun w => (Ok tt, {| HCPCS_DATABASE := HCPCS_DATABASE w; log := log w ++ [ev] |}).

Fixpoint for_each {A} (xs : list A) (body : A -> M unit) : M unit :=
  match xs with
  | [] => ret tt
  | x :: xs' => bindM (body x) (fun _ => for_each xs' body)
  end.

Definition try_exceptM {A} (body : M A) (catches : exn -> bool)
    (handler : exn -> M A) : M A :=
  fun w => match body w with
           | (Ok a, w') => (Ok a, w')
           | (Raise e, w') => if catches e then handler e w' else (Raise e, w')
           end.

Notation "x <- m ;; k" := (bindM m (fun x => k))
  (at level 100, m at next level, right associativity).
Notation "m ;;; k" := (bindM m (fun _ => k))
  (at level 100, right associativity).

(** [next((c.get('code') for c in codes if c.get('type') == 'RC'), None)] *)
Fixpoint first_rc (cs : list json) : result json :=
  match cs with
  | [] => Ok JNull
  | c :: cs' =>
      bind (get c "type") (fun ty =>
      if eq_str ty "RC" then get c "code" else first_rc cs')
  end.

(** The body of the inner loop, lines 108-118. *)
Definition index_code_info (entry codes code_info : json) : M unit :=
  ty <- lift (get code_info "type") ;;
  if eq_str ty "HCPCS" then
    c <- lift (get code_info "code") ;;
    if truthy c then
      k <- lift (hash_key c) ;;
      db <- read_db ;;
      if index_mem db k then ret tt
      else
        d <- lift (get entry "description") ;;
        sc <- lift (get_default entry "standard_charges" (JArr [])) ;;
        cs <- lift (iter codes) ;;
        rc <- lift (first_rc cs) ;;
        store k {| description := d; code := c;
                   standard_charges := sc; revenue_code := rc |}
    else ret tt
  else ret tt.

(** The body of the outer loop, lines 106-118. *)
Definition index_record (entry : json) : M unit :=
  codes <- lift (get_default entry "code_information" (JArr [])) ;;
  infos <- lift (iter codes) ;;
  for_each infos (index_code_info entry codes).

(** The loop over the records of a document, lines 105-118. *)
Definition index_document (data : json) : M unit :=
  recs <- lift (get_default data "standard_charge_information" (JArr [])) ;;
  entries <- lift (iter recs) ;;
  for_each entries index_record.

(** What is found at the path of the dataset: no file; a file that [open] or
    [json.load] fails on, with the exception they raise; the value
    [json.load] returns; or a path that cannot be examined, for which
    [exists] itself fails. *)
Inductive source : Type :=
  | Absent
  | Unreadable (e : exn)
  | Document (data : json)
  | Inaccessible.

(** [assets_path.exists()], line 94. [Path.exists] answers [False] when
    [stat] reports that the file or a directory of the path is missing, and
    lets every other [OSError] of [stat] out, a permission error for one. *)
Definition path_exists (src : source) : M bool :=
  match src with
  | Absent => ret false
  | Inaccessible => lift (Raise OSError)
  | _ => ret true
  end.

Definition json_load (src : source) : M json :=
  match src with
  | Document data => ret data
  | Unreadable e => lift (Raise e)
  | Absent | Inaccessible => lift (Raise OSError)
  end.

(** [load_hcpcs_database], lines 87-122. The test of line 94 is made before
    the [try] of line 98 is entered: what it raises leaves the function. *)
Definition load_hcpcs_database (src : source) : M unit :=
  logger Info_loading ;;;
  present <- path_exists src ;;
  if negb present then logger Warning_not_found
  else
    try_exceptM
      (data <- json_load src ;;
       logger Info_parsing ;;;
       index_document data ;;;
       db <- read_db ;;
       logger (Info_loaded (List.length db)))
      is_Exception
      (fun e => logger (Error_loading e)).

(** The state at import time, line 85, and after line 125. *)
Definition startup : world := {| HCPCS_DATABASE := []; log := [] |}.
Definition loaded (src : source) : world := snd (load_hcpcs_database src startup).

End ChargeIndex.

(** ** CodeLookup *)

Module CodeLookup.
Import Py.
Import ChargeIndex.

(** One element of [charge_info], lines 161-167. *)
Record charge_info : Type := {
  gross_charge : json;
  discounted_cash : json;
  setting : json;
  billing_class : json;
  modifiers : json
}.

(** The dict [lookup_hcpcs_code] returns: lines 137-141 and 172-179. *)
Inductive lookup_result : Type :=
  | NotFound (code : string) (message : string)
  | Found (code : string) (description revenue_code : json)
      (standard_charges : list charge_info) (num_charge_variants : nat).

Definition found (r : lookup_result) : bool :=
  match r with NotFound _ _ => false | Found _ _ _ _ _ => true end.

(** Truthiness of an optional string argument: [None] and [""] are false. *)
Definition given (o : option string) : bool :=
  match o with Some s => nonempty s | None => false end.

Definition arg (o : option string) : string :=
  match o with Some s => s | None => "" end.

(** The condition of the comprehension, lines 153-154, on one element. *)
Definition keeps (setting billing_class : option string) (c : json) : result bool :=
  bind (if negb (given setting) then Ok true
        else bind (get c "setting") (fun v =>
             Ok (eq_str v "both" || eq_str v (arg setting))%bool))
       (fun b1 =>
  if b1 then
    if negb (given billing_class) then Ok true
    else bind (get c "billing_class") (fun v => Ok (eq_str v (arg billing_class)))
  else Ok false).

(** [[c for c in cs if keeps c]] *)
Fixpoint filterM (p : json -> result bool) (cs : list json) : result (list json) :=
  match cs with
  | [] => Ok []
  | c :: cs' =>
      bind (p c) (fun b =>
      bind (filterM p cs') (fun r => Ok (if b then c :: r else r)))
  end.

Definition project (charge : json) : result charge_info :=
  bind (get charge "gross_charge") (fun g =>
  bind (get charge "discounted_cash") (fun d =>
  bind (get charge "setting") (fun s =>
  bind (get charge "billing_class") (fun b =>
  bind (get charge "modifiers") (fun m =>
  Ok {| gross_charge := g; discounted_cash := d; setting := s;
        billing_class := b; modifiers := m |}))))).

Definition not_found_message : string :=
  "Code not found in UCSF standard charges database".

(** [lookup_hcpcs_code], lines 128-179. Of the logging calls only the
    argument that can fail to evaluate is kept: the slice of line 146. *)
Definition lookup_hcpcs_code (db : index) (code : string)
    (setting billing_class : option string) : result lookup_result :=
  match index_get db (KStr code) with
  | None => Ok (NotFound code not_found_message)
  | Some entry =>
      let charges := ChargeIndex.standard_charges entry in
      bind (slice_to 60 (ChargeIndex.description entry)) (fun _ =>
      bind (if (given setting || given billing_class)%bool
            then bind (iter charges) (fun cs =>
                 bind (filterM (keeps setting billing_class) cs) (fun r => Ok (JArr r)))
            else Ok charges) (fun filtered_charges =>
      bind (slice_to 5 filtered_charges) (fun first5 =>
      bind (iter first5) (fun cs =>
      bind (mapM project cs) (fun infos =>
      bind (len_of charges) (fun n =>
      Ok (Found code (ChargeIndex.description entry)
            (ChargeIndex.revenue_code entry) infos n)))))))
  end.

End CodeLookup.

(** ** AlternativeFinder *)

Module AlternativeFinder.
Import Py.
Import ChargeIndex.

(** One element of [similar_codes], lines 224-230. *)
Record candidate : Type := {
  code : json;
  description : json;
  min_price : spec_float;
  match_score : nat;
  revenue_code : json
}.

Definition common_words : list string :=
  ["the"; "a"; "an"; "and"; "or"; "for"; "with"; "of"; "in"; "to"; "from"].

Definition is_common (w : string) : bool := existsb (String.eqb w) common_words.

(** The comprehension of lines 192-195. *)
Definition keywords (description : string) : list string :=
  List.map lower
    (List.filter (fun word => (Nat.ltb 3 (len word) && negb (is_common (lower word)))%bool)
       (split description)).

(** [sum(1 for keyword in keywords if keyword in entry_desc)], line 208 *)
Definition count_matches (kws : list string) (entry_desc : string) : nat :=
  List.length (List.filter (fun keyword => contains entry_desc keyword) kws).

(** The generator of line 218: the gross charges of the variants that have a
    true one, as floats, in the order of the variants. *)
Fixpoint gross_charges (cs : list json) : result (list spec_float) :=
  match cs with
  | [] => Ok []
  | c :: cs' =>
      bind (get c "gross_charge") (fun g =>
      if truthy g
      then bind (float_of g) (fun p =>
           bind (gross_charges cs') (fun ps => Ok (p :: ps)))
      else gross_charges cs')
  end.

(** [min(xs, default=d)]: the running minimum is replaced by an element that
    is less than it. *)
Definition min_default (xs : list spec_float) (d : spec_float) : spec_float :=
  match xs with
  | [] => d
  | x :: xs' => fold_left (fun m y => if flt y m then y else m) xs' x
  end.

(** Lines 213-220, for charges that are true. *)
Definition minimum_price (charges : json) : result spec_float :=
  bind (iter charges) (fun cs =>
  bind (gross_charges cs) (fun ps => Ok (min_default ps finf))).

(** The body of the loop, lines 205-230: the candidate the entry adds, if
    it adds one. The [code] of line 225 is the key the entry is stored under;
    line 115 stores the same object in the entry, where it is read here. *)
Definition consider (kws : list string) (max_price : spec_float)
    (entry : db_entry) : result (option candidate) :=
  bind (lower_of (ChargeIndex.description entry)) (fun entry_desc =>
  let matches := count_matches kws entry_desc in
  if Nat.ltb matches 2 then Ok None
  else
    let charges := ChargeIndex.standard_charges entry in
    if negb (truthy charges) then Ok None
    else
      bind (minimum_price charges) (fun p =>
      if flt p max_price
      then Ok (Some {| code := ChargeIndex.code entry;
                       description := ChargeIndex.description entry;
                       min_price := p;
                       match_score := matches;
                       revenue_code := ChargeIndex.revenue_code entry |})
      else Ok None)).

(** The loop of lines 203-230: [similar_codes] when it ends. *)
Fixpoint scan (kws : list string) (max_price : spec_float) (db : index)
    : result (list candidate) :=
  match db with
  | [] => Ok []
  | (_, entry) :: db' =>
      bind (consider kws max_price entry) (fun c =>
      bind (scan kws max_price db') (fun cs =>
      Ok (match c with Some x => x :: cs | None => cs end)))
  end.

(** The order of the sort keys [(-match_score, min_price)]: tuples compare
    by their first components unless these are equal. *)
Definition key_lt (a b : candidate) : bool :=
  (Z.ltb (- Z.of_nat (match_score a)) (- Z.of_nat (match_score b))
   || (Z.eqb (- Z.of_nat (match_score a)) (- Z.of_nat (match_score b))
       && flt (min_price a) (min_price b)))%bool.

(** [list.sort] is stable: an element goes after those before which it is
    not strictly less. *)
Fixpoint insert_sorted (x : candidate) (l : list candidate) : list candidate :=
  match l with
  | [] => [x]
  | y :: l' => if key_lt y x then y :: insert_sorted x l' else x :: l
  end.

Fixpoint sort (l : list candidate) : list candidate :=
  match l with
  | [] => []
  | x :: l' => insert_sorted x (sort l')
  end.

(** [l[:limit]] for an [int]: a negative [limit] counts from the end. *)
Definition upto {A} (limit : Z) (l : list A) : list A :=
  if (0 <=? limit)%Z then firstn (Z.to_nat limit) l
  else firstn (Z.to_nat (Z.of_nat (List.length l) + limit)) l.

(** [similar_codes] before the sort, or the empty list when the function
    returns early, lines 187-230. *)
Definition similar_codes (db : index) (description : string)
    (max_price : spec_float) : result (list candidate) :=
  if negb (nonempty description) then Ok []
  else
    let kws := keywords description in
    match kws with
    | [] => Ok []
    | _ => scan kws max_price db
    end.

(** [find_similar_cheaper_codes], lines 182-238. The logging calls are left
    out: their arguments always evaluate. *)
Definition find_similar_cheaper_codes (db : index) (description : string)
    (max_price : spec_float) (limit : Z) : result (list candidate) :=
  bind (similar_codes db description max_price) (fun cs =>
  Ok (upto limit (sort cs))).

Definition default_limit : Z := 5.

End AlternativeFinder.

(** ** The typed models of the service, lines 26-59

    pydantic validates these on construction: a field declared [str] holds a
    string, an [Optional[str]] a string or [None]. *)

Module HCPCSCode.
Record t : Type := {
  code : string;
  description : option string;
  charge : option string;
  units : option string;
  revenue_code : option string
}.
End HCPCSCode.

Module CodeValidation.
Record t : Type := {
  code : string;
  status : string;
  reasoning : string
}.
End CodeValidation.

Module ValidationResponse.
Record t : Type := {
  validations : list CodeValidation.t;
  overall_reasoning : string
}.
End ValidationResponse.

Module CodeAnalysis.
Record t : Type := {
  code : string;
  description : option string;
  revenue_code : option string;
  status : string;
  reasoning : string;
  billed_charge : spec_float
}.
End CodeAnalysis.

(** ** DuplicateDetector *)

Module DuplicateDetector.

(** [collections.Counter(xs)]: one more for a key each time it comes. *)
Definition Counter (xs : list string) : gmap string nat :=
  foldl (fun m x => <[x := S (default 0 (m !! x))]> m) ∅ xs.

(** [detect_duplicates], lines 297-301. *)
Definition detect_duplicates (codes : list HCPCSCode.t) : gmap string nat :=
  filter (fun kv => 1 < kv.2) (Counter (List.map HCPCSCode.code codes)).

End DuplicateDetector.

(** ** BillAnalysisOrchestrator: the merge step *)

Module Merge.
Import Py.
Import ChargeParser.

(** [{v.code: v for v in validation.validations}], line 485: a later
    validation of a code replaces an earlier one. *)
Definition validation_map (vs : list CodeValidation.t) : gmap string CodeValidation.t :=
  foldl (fun m v => <[CodeValidation.code v := v]> m) ∅ vs.

(** The fallback of lines 493-497. *)
Definition fallback (code : string) : CodeValidation.t :=
  {| CodeValidation.code := code;
     CodeValidation.status := "accepted";
     CodeValidation.reasoning := "No validation issues found." |}.

(** The loop state: [codes_analysis] and [savings]. *)
Definition acc : Type := list CodeAnalysis.t * spec_float.

(** The body of the loop, lines 489-514. *)
Definition merge_one (vm : gmap string CodeValidation.t) (st : acc)
    (hcpcs : HCPCSCode.t) : result acc :=
  let val := match vm !! HCPCSCode.code hcpcs with
             | Some v => v
             | None => fallback (HCPCSCode.code hcpcs)
             end in
  bind (parse_charge (HCPCSCode.charge hcpcs)) (fun charge =>
  let savings := if String.eqb (CodeValidation.status val) "disputed"
                 then fadd (snd st) charge
                 else snd st in
  Ok (fst st ++ [ {| CodeAnalysis.code := HCPCSCode.code hcpcs;
                     CodeAnalysis.description := HCPCSCode.description hcpcs;
                     CodeAnalysis.revenue_code := HCPCSCode.revenue_code hcpcs;
                     CodeAnalysis.status := CodeValidation.status val;
                     CodeAnalysis.reasoning := CodeValidation.reasoning val;
                     CodeAnalysis.billed_charge := charge |} ],
      savings)).

(** Step 4 of [analyze_bill], lines 481-514: [(codes_analysis, savings)]. *)
Definition merge (codes : list HCPCSCode.t) (validation : ValidationResponse.t)
    : result acc :=
  foldM (merge_one (validation_map (ValidationResponse.validations validation)))
        codes ([], fzero).

End Merge.

(** ** BillAnalysisOrchestrator: the request handler

    The three calls to the language-model service are calls to an external
    collaborator. A call is modelled by its outcome: the parsed object of the
    single choice of the response, no parsed object, or the text of the
    exception the client raised. The collaborator is a function of the data
    the prompt is built from. Logging calls are left out. *)

Module CodeData.
(** The dict built per line item, lines 315-335. [duplicate_warning] holds the
    count the warning text is formatted from; it and [cheaper_alternatives]
    are the two keys a dict may lack. *)
Record t : Type := {
  code : string;
  description : string;
  billed_charge : spec_float;
  units : string;
  revenue_code : string;
  duplicate_warning : option nat;
  standard_pricing : CodeLookup.lookup_result;
  cheaper_alternatives : option (list AlternativeFinder.candidate)
}.
End CodeData.

Module DisputedInfo.
(** One element of [disputed_info], lines 407-412. *)
Record t : Type := {
  code : string;
  description : option string;
  charge : spec_float;
  reasoning : string
}.
End DisputedInfo.

Module AnalyzeRequest.
Record t : Type := {
  bill : string;
  after_care_summary : string
}.
End AnalyzeRequest.

Module AnalyzeResponse.
Record t : Type := {
  codes : list CodeAnalysis.t;
  savings : spec_float;
  appeal_draft : string;
  overall_reasoning : string
}.
End AnalyzeResponse.

Module Service.
Import Py ChargeIndex.

(** What a handler ends with when it does not return: the [HTTPException] it
    raises itself, or an exception of the code below that nothing catches. *)
Inductive failure : Type :=
  | HTTPException (status_code : nat) (detail : string)
  | Uncaught (e : exn).

Inductive outcome (A : Type) : Type :=
  | Done (a : A)
  | Failed (f : failure).
Arguments Done {A} a.
Arguments Failed {A} f.

Definition and_then {A B} (o : outcome A) (k : A -> outcome B) : outcome B :=
  match o with
  | Done a => k a
  | Failed f => Failed f
  end.

Definition uncaught {A} (r : result A) : outcome A :=
  match r with
  | Ok a => Done a
  | Raise e => Failed (Uncaught e)
  end.

(** The outcome of [client.beta.chat.completions.parse] as the handlers read
    it: the call raises an exception that prints as [exc], or it returns a
    completion whose first choice carries a parsed message or none. A
    completion is taken to have a first choice. *)
Inductive reply (A : Type) : Type :=
  | Parsed (a : A)
  | Unparsed
  | Error (exc : string).
Arguments Parsed {A} a.
Arguments Unparsed {A}.
Arguments Error {A} exc.

Record collaborator : Type := {
  (** bill, after-care summary; the [codes] of the parsed extraction *)
  extract_call : string -> string -> reply (list HCPCSCode.t);
  (** bill, after-care summary, codes with pricing *)
  validate_call : string -> string -> list CodeData.t -> reply ValidationResponse.t;
  (** bill, after-care summary, overall reasoning, disputed codes, disputed
      amount; the [appeal_draft] of the parsed response *)
  draft_call : string -> string -> string -> list DisputedInfo.t -> spec_float
               -> reply string
}.

(** [s or d] for a string *)
Definition str_or (s d : string) : string := if nonempty s then s else d.

(** [o or d] for an optional string *)
Definition opt_or (o : option string) (d : string) : string :=
  match o with Some s => str_or s d | None => d end.

(** [bool(o)] for an optional string *)
Definition opt_truthy (o : option string) : bool :=
  match o with Some s => nonempty s | None => false end.

(** [extract_hcpcs_codes], lines 246-282. *)
Definition extract_hcpcs_codes (llm : collaborator) (payload : AnalyzeRequest.t)
    : outcome (list HCPCSCode.t) :=
  match extract_call llm (AnalyzeRequest.bill payload)
          (AnalyzeRequest.after_care_summary payload) with
  | Error exc => Failed (HTTPException 502 ("Failed to extract HCPCS codes: " ++ exc))
  | Unparsed => Failed (HTTPException 502 "Failed to parse HCPCS codes from response.")
  | Parsed codes => Done codes
  end.

(** The body of the loop of lines 312-337. *)
Definition with_pricing (db : index) (duplicates : gmap string nat)
    (hcpcs : HCPCSCode.t) : result CodeData.t :=
  bind (ChargeParser.parse_charge (HCPCSCode.charge hcpcs)) (fun billed_charge =>
  bind (CodeLookup.lookup_hcpcs_code db (HCPCSCode.code hcpcs) None None)
       (fun exact_lookup =>
  bind (if (CodeLookup.found exact_lookup
            && opt_truthy (HCPCSCode.description hcpcs)
            && flt fzero billed_charge)%bool
        then bind (AlternativeFinder.find_similar_cheaper_codes db
                     (opt_or (HCPCSCode.description hcpcs) "") billed_charge
                     AlternativeFinder.default_limit)
                  (fun similar_codes =>
                   Ok (match similar_codes with
                       | [] => None
                       | _ => Some similar_codes
                       end))
        else Ok None) (fun alternatives =>
  Ok {| CodeData.code := HCPCSCode.code hcpcs;
        CodeData.description := opt_or (HCPCSCode.description hcpcs) "No description";
        CodeData.billed_charge := billed_charge;
        CodeData.units := opt_or (HCPCSCode.units hcpcs) "1";
        CodeData.revenue_code := opt_or (HCPCSCode.revenue_code hcpcs) "Unknown";
        CodeData.duplicate_warning := duplicates !! HCPCSCode.code hcpcs;
        CodeData.standard_pricing := exact_lookup;
        CodeData.cheaper_alternatives := alternatives |}))).

(** [codes_with_pricing], lines 311-337. *)
Definition codes_with_pricing (db : index) (duplicates : gmap string nat)
    (codes : list HCPCSCode.t) : result (list CodeData.t) :=
  mapM (with_pricing db duplicates) codes.

(** [validate_medical_necessity], lines 304-389. The pre-fetch loop runs
    before the [try]; the prompt, [json.dumps] included, always evaluates. *)
Definition validate_medical_necessity (llm : collaborator) (db : index)
    (payload : AnalyzeRequest.t) (codes : list HCPCSCode.t)
    (duplicates : gmap string nat) : outcome ValidationResponse.t :=
  and_then (uncaught (codes_with_pricing db duplicates codes)) (fun priced =>
  match validate_call llm (AnalyzeRequest.bill payload)
          (str_or (AnalyzeRequest.after_care_summary payload) "None provided")
          priced with
  | Error exc =>
      Failed (HTTPException 502 ("Failed to validate medical necessity: " ++ exc))
  | Unparsed => Failed (HTTPException 502 "Failed to parse validation response.")
  | Parsed validation => Done validation
  end).

Definition no_appeal_message : string :=
  "No disputed charges found. No appeal letter is needed.".

Definition disputed_info (c : CodeAnalysis.t) : DisputedInfo.t :=
  {| DisputedInfo.code := CodeAnalysis.code c;
     DisputedInfo.description := CodeAnalysis.description c;
     DisputedInfo.charge := CodeAnalysis.billed_charge c;
     DisputedInfo.reasoning := CodeAnalysis.reasoning c |}.

(** [draft_appeal_letter], lines 392-456. *)
Definition draft_appeal_letter (llm : collaborator) (payload : AnalyzeRequest.t)
    (codes_analysis : list CodeAnalysis.t) (overall_reasoning : string)
    (disputed_amount : spec_float) : outcome string :=
  let disputed_codes :=
    List.filter (fun c => String.eqb (CodeAnalysis.status c) "disputed")
      codes_analysis in
  match disputed_codes with
  | [] => Done no_appeal_message
  | _ =>
      match draft_call llm (AnalyzeRequest.bill payload)
              (str_or (AnalyzeRequest.after_care_summary payload) "None provided")
              overall_reasoning (List.map disputed_info disputed_codes)
              disputed_amount with
      | Error exc =>
          Failed (HTTPException 502 ("Failed to draft appeal letter: " ++ exc))
      | Unparsed => Failed (HTTPException 502 "Failed to parse appeal draft response.")
      | Parsed appeal_draft => Done appeal_draft
      end
  end.

(** [analyze_bill], lines 459-544, over the index [db] that
    [HCPCS_DATABASE] holds. *)
Definition analyze_bill (llm : collaborator) (db : index)
    (payload : AnalyzeRequest.t) : outcome AnalyzeResponse.t :=
  and_then (extract_hcpcs_codes llm payload) (fun codes =>
  let duplicates := DuplicateDetector.detect_duplicates codes in
  and_then (validate_medical_necessity llm db payload codes duplicates)
           (fun validation =>
  and_then (uncaught (Merge.merge codes validation)) (fun merged =>
  let '(codes_analysis, savings) := merged in
  and_then (draft_appeal_letter llm payload codes_analysis
              (ValidationResponse.overall_reasoning validation) savings)
           (fun appeal_draft =>
  Done {| AnalyzeResponse.codes := codes_analysis;
          AnalyzeResponse.savings := savings;
          AnalyzeResponse.appeal_draft := appeal_draft;
          AnalyzeResponse.overall_reasoning :=
            ValidationResponse.overall_reasoning validation |})))).

End Service.

(** * Sample data *)

Module Fixtures.
Import Py ChargeIndex.

Definition variant (gross : Z) : json :=
  JObj [("gross_charge", JInt gross); ("setting", JStr "outpatient");
        ("billing_class", JStr "facility")].

(** An entry with one price variant. *)
Definition priced (c d : string) (gross : Z) : pykey * db_entry :=
  (KStr c, {| description := JStr d; code := JStr c;
              standard_charges := JArr [variant gross]; revenue_code := JNull |}).

Definition chest_index : index :=
  [priced "71045" "Chest xray 1 view" 60;
   priced "71046" "Chest xray 2 views" 80;
   priced "71100" "Ribs xray chest wall" 70;
   priced "71047" "Chest xray 3 views" 90;
   priced "99213" "Office visit" 10;
   priced "71048" "Chest xray 4 views" 80;
   priced "71101" "Xray of chest, special views" 99;
   priced "71250" "Chest xray views with contrast" 400].

(** A record of the dataset with one HCPCS code, a revenue code and one
    price variant, and a document made of records. *)
Definition record (c d : string) (gross : Z) : json :=
  JObj [("description", JStr d);
        ("code_information",
         JArr [JObj [("code", JStr c); ("type", JStr "HCPCS")];
               JObj [("code", JStr "0324"); ("type", JStr "RC")]]);
        ("standard_charges", JArr [variant gross])].

Definition document (recs : list json) : json :=
  JObj [("standard_charge_information", JArr recs)].

(** 100.0 *)
Definition hundred : spec_float := S754_finite false 7036874417766400 (-46).

Definition hit (c d : string) (gross : positive) (e : Z) (score : nat)
    : AlternativeFinder.candidate :=
  {| AlternativeFinder.code := JStr c;
     AlternativeFinder.description := JStr d;
     AlternativeFinder.min_price := S754_finite false gross e;
     AlternativeFinder.match_score := score;
     AlternativeFinder.revenue_code := JNull |}.

End Fixtures.

(** * Notions the properties are stated with *)

Module Notions.
Import Py.

(** The float [f] is exactly the rational [num / den], for [0 < den]. *)
Definition represents (f : spec_float) (num den : Z) : Prop :=
  match f with
  | S754_zero _ => num = 0%Z
  | S754_finite s m e =>
      ((if s then Zneg m else Zpos m) * 2 ^ Z.max e 0 * den
       = num * 2 ^ Z.max (- e) 0)%Z
  | _ => False
  end.

(** What [parse_charge] passes on to [float], line 290. *)
Definition cleaned (charge_str : string) : string :=
  strip (remove_char "," (remove_char "$" charge_str)).

(** The validation result that matches a code: the last one the response
    holds for it, if it holds any. *)
Definition matching_validation (vs : list CodeValidation.t) (code : string)
    : option CodeValidation.t :=
  List.find (fun v => String.eqb (CodeValidation.code v) code) (List.rev vs).

Definition is_disputed (a : CodeAnalysis.t) : bool :=
  String.eqb (CodeAnalysis.status a) "disputed".

(** What the merge attaches to one line item. *)
Definition attached (vs : list CodeValidation.t) (h : HCPCSCode.t)
    (a : CodeAnalysis.t) : Prop :=
  CodeAnalysis.code a = HCPCSCode.code h
  /\ CodeAnalysis.description a = HCPCSCode.description h
  /\ CodeAnalysis.revenue_code a = HCPCSCode.revenue_code h
  /\ ChargeParser.parse_charge (HCPCSCode.charge h) = Ok (CodeAnalysis.billed_charge a)
  /\ match matching_validation vs (HCPCSCode.code h) with
     | Some v => CodeAnalysis.status a = CodeValidation.status v
                 /\ CodeAnalysis.reasoning a = CodeValidation.reasoning v
     | None => CodeAnalysis.status a = "accepted"
               /\ CodeAnalysis.reasoning a = "No validation issues found."
     end.

(** The sum of a list of charges as the loop takes it: from 0.0, one binary64
    addition per charge, in the order of the list. *)
Definition total (charges : list spec_float) : spec_float :=
  fold_left fadd charges fzero.

(** A value is an object (a [dict]). *)
Definition is_object (v : json) : Prop := exists kvs, v = JObj kvs.

(** The field [k] of an object, [JNull] when it has none. *)
Definition field (v : json) (k : string) : json :=
  match v with
  | JObj kvs => match assoc k kvs with Some x => x | None => JNull end
  | _ => JNull
  end.

(** A filter is unset when the argument is [None] or the empty string, the
    two values Python takes for false. *)
Definition unset (o : option string) : Prop := o = None \/ o = Some "".

(** The filter of the specification, on one price variant. *)
Definition kept_by (setting billing_class : option string) (c : json) : Prop :=
  (unset setting
   \/ field c "setting" = JStr "both"
   \/ exists s, setting = Some s /\ field c "setting" = JStr s)
  /\ (unset billing_class
      \/ exists b, billing_class = Some b /\ field c "billing_class" = JStr b).

Definition keep_variant (setting billing_class : option string) (c : json) : bool :=
  ((negb (CodeLookup.given setting)
    || eq_str (field c "setting") "both"
    || eq_str (field c "setting") (CodeLookup.arg setting))
   && (negb (CodeLookup.given billing_class)
       || eq_str (field c "billing_class") (CodeLookup.arg billing_class)))%bool.

(** The five fields a lookup reports of a price variant. *)
Definition variant_info (c : json) : CodeLookup.charge_info :=
  {| CodeLookup.gross_charge := field c "gross_charge";
     CodeLookup.discounted_cash := field c "discounted_cash";
     CodeLookup.setting := field c "setting";
     CodeLookup.billing_class := field c "billing_class";
     CodeLookup.modifiers := field c "modifiers" |}.

(** [x <= y] on floats *)
Definition fle (x y : spec_float) : bool := SFleb x y.

Definition is_nan (x : spec_float) : bool :=
  match x with S754_nan => true | _ => false end.

(** The place of a float that is not NaN in the order of the reals: its
    sign class, then exponent and mantissa, reversed for a negative one. *)
Definition rank (x : spec_float) : Z * Z * Z :=
  match x with
  | S754_infinity true => (-2, 0, 0)%Z
  | S754_finite true m e => (-1, - e, Zneg m)%Z
  | S754_zero _ => (0, 0, 0)%Z
  | S754_finite false m e => (1, e, Zpos m)%Z
  | S754_infinity false => (2, 0, 0)%Z
  | S754_nan => (3, 0, 0)%Z
  end.

Definition lex_lt (a b : Z * Z * Z) : Prop :=
  let '(a1, a2, a3) := a in
  let '(b1, b2, b3) := b in
  (a1 < b1 \/ (a1 = b1 /\ (a2 < b2 \/ (a2 = b2 /\ a3 < b3))))%Z.

(** [a] may stand before [b] in a sorted result: [b]'s key is not less than
    [a]'s. *)
Definition ordered (a b : AlternativeFinder.candidate) : Prop :=
  AlternativeFinder.key_lt b a = false.

(** Sorted by match count, descending, then by minimum price, ascending. *)
Definition ranked (a b : AlternativeFinder.candidate) : Prop :=
  AlternativeFinder.match_score b <= AlternativeFinder.match_score a
  /\ (AlternativeFinder.match_score a = AlternativeFinder.match_score b ->
      fle (AlternativeFinder.min_price a) (AlternativeFinder.min_price b) = true).

(** Two candidates that neither sorts before the other. *)
Definition same_key (a b : AlternativeFinder.candidate) : bool :=
  (negb (AlternativeFinder.key_lt a b) && negb (AlternativeFinder.key_lt b a))%bool.

(** An entry of the data model: a string description and a list of price
    variants, each an object whose gross charge, when it has a true one,
    converts to a float. *)
Definition well_typed_variant (c : json) : Prop :=
  is_object c
  /\ (truthy (field c "gross_charge") = true -> returns (float_of (field c "gross_charge"))).

Definition well_typed_entry (e : ChargeIndex.db_entry) : Prop :=
  exists d cs,
    ChargeIndex.description e = JStr d
    /\ ChargeIndex.standard_charges e = JArr cs
    /\ List.Forall well_typed_variant cs.

Definition priced_below (max_price : spec_float)
    (c : AlternativeFinder.candidate) : Prop :=
  flt (AlternativeFinder.min_price c) max_price = true.

(** The candidate an entry yields with a given match count and price. *)
Definition candidate_of (e : ChargeIndex.db_entry) (matches : nat)
    (p : spec_float) : AlternativeFinder.candidate :=
  {| AlternativeFinder.code := ChargeIndex.code e;
     AlternativeFinder.description := ChargeIndex.description e;
     AlternativeFinder.min_price := p;
     AlternativeFinder.match_score := matches;
     AlternativeFinder.revenue_code := ChargeIndex.revenue_code e |}.

(** A list of candidates includes an entry when one of them carries the
    entry's code. *)
Definition includes (cs : list AlternativeFinder.candidate)
    (e : ChargeIndex.db_entry) : Prop :=
  exists c, In c cs /\ AlternativeFinder.code c = ChargeIndex.code e.

(** The codes stored in the entries of an index. *)
Definition stored_codes (db : ChargeIndex.index) : list json :=
  List.map (fun ke => ChargeIndex.code (snd ke)) db.

(** The records of a document, in dataset order, and the code informations
    of a record, as the loader iterates them. *)
Definition records (data : json) : result (list json) :=
  bind (get_default data "standard_charge_information" (JArr [])) iter.

Definition code_infos (r : json) : result (list json) :=
  bind (get_default r "code_information" (JArr [])) iter.

(** [ci] is a code information of type HCPCS whose code [c] is true and is
    the key [k]. *)
Definition hcpcs_code (ci c : json) (k : pykey) : Prop :=
  exists ty, get ci "type" = Ok ty /\ eq_str ty "HCPCS" = true
             /\ get ci "code" = Ok c /\ truthy c = true /\ hash_key c = Ok k.

(** The record [r] carries the HCPCS code with key [k]. *)
Definition carries (r : json) (k : pykey) : Prop :=
  exists infos ci c, code_infos r = Ok infos /\ In ci infos /\ hcpcs_code ci c k.

(** The entry [e] is the one line 113 builds for the key [k] from the record
    [r]: the code is the first of [r] with that key, the description and the
    price variants are those of [r], the revenue code is the code of the
    first code information of type RC. *)
Definition built_from (r : json) (k : pykey) (e : ChargeIndex.db_entry) : Prop :=
  exists infos (i : nat) ci,
    code_infos r = Ok infos
    /\ infos !! i = Some ci
    /\ hcpcs_code ci (ChargeIndex.code e) k
    /\ (forall (j : nat) cj c, j < i -> infos !! j = Some cj -> ~ hcpcs_code cj c k)
    /\ get r "description" = Ok (ChargeIndex.description e)
    /\ get_default r "standard_charges" (JArr []) = Ok (ChargeIndex.standard_charges e)
    /\ ChargeIndex.first_rc infos = Ok (ChargeIndex.revenue_code e).

(** First occurrence wins: the entry of a key is built from the first record
    of the dataset that carries the key. *)
Definition first_wins (recs : list json) (db : ChargeIndex.index) : Prop :=
  forall k e, ChargeIndex.index_get db k = Some e ->
    exists (i : nat) r,
      recs !! i = Some r /\ built_from r k e
      /\ forall (j : nat) r', j < i -> recs !! j = Some r' -> ~ carries r' k.

(** Each entry is stored under the key of its own code. *)
Definition keyed (db : ChargeIndex.index) : Prop :=
  forall k e, In (k, e) db -> hash_key (ChargeIndex.code e) = Ok k.

(** What holds of the index at every point of the scan, also when it is
    cut short. *)
Definition consistent (recs : list json) (db : ChargeIndex.index) : Prop :=
  List.NoDup (ChargeIndex.keys db) /\ first_wins recs db /\ keyed db.

(** The codes of the first [n] records are indexed. *)
Definition indexed_before (recs : list json) (n : nat) (db : ChargeIndex.index) : Prop :=
  forall (j : nat) r k,
    j < n -> recs !! j = Some r -> carries r k -> ChargeIndex.index_mem db k = true.

(** The codes of the first [m] code informations of a record are indexed. *)
Definition seen_before (infos : list json) (m : nat) (db : ChargeIndex.index) : Prop :=
  forall (j : nat) cj c k,
    j < m -> infos !! j = Some cj -> hcpcs_code cj c k ->
    ChargeIndex.index_mem db k = true.

Definition failed (w : ChargeIndex.world) : Prop :=
  exists e, In (ChargeIndex.Error_loading e) (ChargeIndex.log w).

(** A code information the scan gets past: an object whose code, when it is
    a true code of type HCPCS, can be the key of a dict. *)
Definition scannable_info (ci : json) : Prop :=
  is_object ci
  /\ (eq_str (field ci "type") "HCPCS" = true ->
      truthy (field ci "code") = true ->
      exists k, hash_key (field ci "code") = Ok k).

(** A record the scan gets past: an object whose code informations can be
    iterated and are all scannable. A record that is not is malformed. *)
Definition scannable (r : json) : Prop :=
  exists infos, code_infos r = Ok infos /\ List.Forall scannable_info infos.

(** Every code of the index is carried by one of the first [n] records. *)
Definition carried_before (recs : list json) (n : nat) (db : ChargeIndex.index) : Prop :=
  forall k, In k (ChargeIndex.keys db) ->
    exists (j : nat) r, j < n /\ recs !! j = Some r /\ carries r k.

(** The scan was cut short at record [n], the first malformed one: the codes
    of the records before it are indexed, and no code is indexed that comes
    from a record after it. *)
Definition cut_at (recs : list json) (n : nat) (db : ChargeIndex.index) : Prop :=
  (exists r, recs !! n = Some r /\ ~ scannable r)
  /\ (forall (j : nat) r, j < n -> recs !! j = Some r -> scannable r)
  /\ indexed_before recs n db
  /\ carried_before recs (S n) db.

End Notions.

(** * Further notions *)

Module MoreNotions.
Import Py.

(** The index [db'] is [db] with entries added at its end, and has distinct
    keys if [db] has. *)
Definition grows (db db' : ChargeIndex.index) : Prop :=
  (exists added, db' = db ++ added)
  /\ (List.NoDup (ChargeIndex.keys db) -> List.NoDup (ChargeIndex.keys db')).

(** No price variant of the entry has a gross charge that Python takes for
    true: each lacks the field or holds [null], zero, [false] or an empty
    value there. *)
Definition unpriced (e : ChargeIndex.db_entry) : Prop :=
  exists cs,
    ChargeIndex.standard_charges e = JArr cs
    /\ List.Forall (fun c => Notions.is_object c
                             /\ truthy (Notions.field c "gross_charge") = false) cs.

(** The details of the [HTTPException]s the handler raises, one per call to
    the collaborator that fails and one per response it cannot parse. *)
Definition upstream_detail (detail : string) : Prop :=
  (exists exc, detail = ("Failed to extract HCPCS codes: " ++ exc)%string)
  \/ detail = "Failed to parse HCPCS codes from response."
  \/ (exists exc, detail = ("Failed to validate medical necessity: " ++ exc)%string)
  \/ detail = "Failed to parse validation response."
  \/ (exists exc, detail = ("Failed to draft appeal letter: " ++ exc)%string)
  \/ detail = "Failed to parse appeal draft response.".

(** Every code indexed in [db] is indexed in [db']. *)
Definition covers (db' db : ChargeIndex.index) : Prop :=
  forall k, ChargeIndex.index_mem db k = true -> ChargeIndex.index_mem db' k = true.

(** Running [m] again, in a state whose index covers the one [m] left, or is
    the one [m] left when [m] raised, ends as [m] did and changes nothing. *)
Definition replays (m : ChargeIndex.M unit) : Prop :=
  forall w w',
    covers (ChargeIndex.HCPCS_DATABASE w') (ChargeIndex.HCPCS_DATABASE (snd (m w))) ->
    (forall e, fst (m w) = Raise e ->
               ChargeIndex.HCPCS_DATABASE w' = ChargeIndex.HCPCS_DATABASE (snd (m w))) ->
    m w' = (fst (m w), w').

(** [rc] is the code of the first code information of type RC among
    [infos], or [None] when none has that type. *)
Definition first_revenue_code (infos : list json) (rc : json) : Prop :=
  (exists (i : nat) ci,
     infos !! i = Some ci
     /\ eq_str (Notions.field ci "type") "RC" = true
     /\ rc = Notions.field ci "code"
     /\ forall (j : nat) cj, j < i -> infos !! j = Some cj ->
          eq_str (Notions.field cj "type") "RC" = false)
  \/ (rc = JNull
      /\ forall ci, In ci infos -> eq_str (Notions.field ci "type") "RC" = false).

(** The analyses the appeal is about. *)
Definition disputed (res : list CodeAnalysis.t) : list CodeAnalysis.t :=
  List.filter Notions.is_disputed res.

End MoreNotions.

(** * Sample requests *)

Module Scenario.
Import Service.

Definition item (c : string) (d : option string) (g : string) : HCPCSCode.t :=
  {| HCPCSCode.code := c; HCPCSCode.description := d;
     HCPCSCode.charge := Some g; HCPCSCode.units := None;
     HCPCSCode.revenue_code := None |}.

Definition verdict (c s : string) : CodeValidation.t :=
  {| CodeValidation.code := c; CodeValidation.status := s;
     CodeValidation.reasoning := "See the after-care summary." |}.

(** A collaborator that gives the same three answers whatever it is asked. *)
Definition scripted (codes : reply (list HCPCSCode.t))
    (validation : reply ValidationResponse.t) (letter : reply string)
    : collaborator :=
  {| extract_call := fun _ _ => codes;
     validate_call := fun _ _ _ => validation;
     draft_call := fun _ _ _ _ _ => letter |}.

Definition request : AnalyzeRequest.t :=
  {| AnalyzeRequest.bill := "71045 Chest xray $100.00";
     AnalyzeRequest.after_care_summary := "" |}.

(** A record of the dataset with two revenue codes after its HCPCS code. *)
Definition imaging (c d : string) (gross : Z) : Py.json :=
  Py.JObj [("description", Py.JStr d);
           ("code_information",
            Py.JArr [Py.JObj [("code", Py.JStr c); ("type", Py.JStr "HCPCS")];
                     Py.JObj [("code", Py.JStr "0320"); ("type", Py.JStr "RC")];
                     Py.JObj [("code", Py.JStr "0324"); ("type", Py.JStr "RC")]]);
           ("standard_charges", Py.JArr [Fixtures.variant gross])].

(** A record of the dataset that has no description. *)
Definition undescribed (c : string) : Py.json :=
  Py.JObj [("code_information",
            Py.JArr [Py.JObj [("code", Py.JStr c); ("type", Py.JStr "HCPCS")]]);
           ("standard_charges", Py.JArr [Fixtures.variant 60])].

End Scenario.

(** * Properties *)

(** ** Facts about the builtins *)

Section PyFacts.
Import Py.

Lemma chars_str (l : list ascii) : chars (str l) = l.
Proof. apply list_ascii_of_string_of_list_ascii. Qed.


Lemma firstn_In {A} (n : nat) (l : list A) (x : A) : In x (firstn n l) -> In x l.
Proof.
  revert l. induction n as [|n IH]; intros [|y l]; simpl; try tauto.
  intros [H|H]; auto.
Qed.

Lemma bind_Ok {A B} (r : result A) (k : A -> result B) (b : B) :
  bind r k = Ok b -> exists a, r = Ok a /\ k a = Ok b.
Proof. destruct r as [a|e]; simpl; [eauto | discriminate]. Qed.

(** [float] of a string raises nothing but [ValueError]. *)
Lemma float_of_str_raises (s : string) (e : exn) :
  float_of_str s = Raise e -> e = ValueError.
Proof.
  unfold float_of_str.
  destruct (strip_underscores zero (chars s)) as [l|]; [|congruence].
  destruct (take_sign _) as [neg body].
  destruct (parse_decimal neg body); [discriminate|].
  destruct (parse_inf_nan neg body); congruence.
Qed.

(** [float] on some literals, with the values CPython gives them. *)
Example float_of_str_samples :
  float_of_str "0.1" = Ok (S754_finite false 7205759403792794 (-56))
  /\ float_of_str " 1e22 " = Ok (S754_finite false 4768371582031250 21)
  /\ float_of_str "1_000" = Ok (S754_finite false 8796093022208000 (-43))
  /\ float_of_str "4.9e-324" = Ok (S754_finite false 1 (-1074))
  /\ float_of_str "1e400" = Ok (S754_infinity false)
  /\ float_of_str "-0" = Ok (S754_zero true)
  /\ float_of_str "-Infinity" = Ok (S754_infinity true)
  /\ float_of_str "nan" = Ok S754_nan
  /\ float_of_str "1e" = Raise ValueError
  /\ float_of_str "1_" = Raise ValueError
  /\ float_of_str "12 34" = Raise ValueError
  /\ float_of_str "" = Raise ValueError.
Proof. repeat split; vm_compute; reflexivity. Qed.

Example split_samples :
  split "  Chest  X-ray two views " = ["Chest"; "X-ray"; "two"; "views"]
  /\ split "" = []
  /\ strip "  $1,200.50 " = "$1,200.50"
  /\ lower "Chest X-RAY" = "chest x-ray"
  /\ contains "chest x-ray" "x-ray" = true
  /\ contains "chest" "chests" = false.
Proof. repeat split; vm_compute; reflexivity. Qed.

(** Stripping removes a run of [ws] characters at each end and nothing else,
    and leaves no [ws] character at either end. *)
Lemma lstrip_chars_split (ws : ascii -> bool) (l : list ascii) :
  exists a, l = a ++ lstrip_chars ws l /\ forallb ws a = true.
Proof.
  induction l as [|c l IH]; simpl.
  - exists []. auto.
  - destruct (ws c) eqn:Hc.
    + destruct IH as (a & Ha & Hws). exists (c :: a). simpl.
      rewrite Hc, Hws. split; [congruence | reflexivity].
    + exists []. auto.
Qed.

Lemma lstrip_chars_head (ws : ascii -> bool) (l : list ascii) (c : ascii) (r : list ascii) :
  lstrip_chars ws l = c :: r -> ws c = false.
Proof.
  induction l as [|x l IH]; simpl; [discriminate|].
  destruct (ws x) eqn:Hx; [exact IH|]. intros [= <- _]. exact Hx.
Qed.


Lemma strip_chars_split (ws : ascii -> bool) (l : list ascii) :
  exists a b, l = a ++ strip_chars ws l ++ b
              /\ forallb ws a = true /\ forallb ws b = true.
Proof.
  unfold strip_chars.
  destruct (lstrip_chars_split ws l) as (a & Ha & Hwa).
  destruct (lstrip_chars_split ws (List.rev (lstrip_chars ws l))) as (b & Hb & Hwb).
  exists a, (List.rev b). repeat split; trivial.
  - rewrite Ha at 1. f_equal.
    rewrite <- rev_app_distr, <- Hb. now rewrite rev_involutive.
  - rewrite forallb_forall in *. intros x Hx. apply Hwb. now apply in_rev.
Qed.

Lemma strip_chars_ends (ws : ascii -> bool) (l : list ascii) :
  (forall c r, strip_chars ws l = c :: r -> ws c = false)
  /\ (forall c r, strip_chars ws l = r ++ [c] -> ws c = false).
Proof.
  unfold strip_chars. split; intros c r H.
  - destruct (lstrip_chars_split ws (List.rev (lstrip_chars ws l))) as (b & Hb & _).
    destruct (lstrip_chars ws l) as [|x t] eqn:Hl.
    { simpl in H. discriminate. }
    assert (Hx : ws x = false) by (eapply lstrip_chars_head; eauto).
    apply (f_equal (@List.rev ascii)) in Hb.
    rewrite rev_involutive, rev_app_distr, H in Hb.
    simpl in Hb. injection Hb as <- _. exact Hx.
  - apply (f_equal (@List.rev ascii)) in H.
    rewrite rev_involutive, rev_app_distr in H. simpl in H.
    eapply lstrip_chars_head; eauto.
Qed.

End PyFacts.

(** ** ChargeParser *)

Section ChargeParserFacts.
Import Py ChargeParser Notions.

Lemma remove_chars_filter (s : string) :
  chars (remove_char "," (remove_char "$" s))
  = List.filter (fun c => negb (Ascii.eqb c "$") && negb (Ascii.eqb c ","))%bool (chars s).
Proof.
  unfold remove_char. rewrite !chars_str.
  induction (chars s) as [|c l IH]; simpl; [reflexivity|].
  destruct (Ascii.eqb c "$"); simpl; [exact IH|].
  destruct (Ascii.eqb c ","); simpl; [exact IH|]. now rewrite IH.
Qed.

Lemma parse_charge_eq (s : string) :
  parse_charge (Some s)
  = Ok (match float_of_str (cleaned s) with Ok f => f | Raise _ => fzero end).
Proof.
  unfold parse_charge, cleaned. destruct s as [|c s]; [reflexivity|].
  cbn [nonempty negb]. unfold try_except.
  destruct (float_of_str _) as [f|e] eqn:Hf; [reflexivity|].
  now rewrite (float_of_str_raises _ _ Hf).
Qed.

Lemma parse_charge_returns (raw : option string) : returns (parse_charge raw).
Proof.
  destruct raw as [s|]; [|now exists fzero].
  rewrite parse_charge_eq. eexists; reflexivity.
Qed.

(** C8. [parse_charge] never raises. It returns 0.0 for [None], for the
    empty string and whenever [float] rejects the cleaned text, and the float
    of the cleaned text otherwise; the cleaned text is the input without its
    dollar signs and commas and without the whitespace at its two ends.
    [parse_charge("$1,200.50")] is exactly 1200.50, and [parse_charge(None)]
    and [parse_charge("garbage")] are 0.0. *)
Theorem parse_charge_never_raises :
  (forall raw, returns (parse_charge raw))
  /\ parse_charge None = Ok fzero
  /\ parse_charge (Some "") = Ok fzero
  /\ (forall s, parse_charge (Some s)
        = Ok (match float_of_str (cleaned s) with Ok f => f | Raise _ => fzero end))
  /\ (forall s, exists a b,
        List.filter (fun c => negb (Ascii.eqb c "$") && negb (Ascii.eqb c ","))%bool (chars s)
          = a ++ chars (cleaned s) ++ b
        /\ forallb is_space a = true /\ forallb is_space b = true
        /\ (forall c r, chars (cleaned s) = c :: r -> is_space c = false)
        /\ (forall c r, chars (cleaned s) = r ++ [c] -> is_space c = false))
  /\ (exists f, parse_charge (Some "$1,200.50") = Ok f /\ represents f 120050 100)
  /\ parse_charge (Some "garbage") = Ok fzero.
Proof.
  split; [|split; [|split; [|split; [|split; [|split]]]]].
  - exact parse_charge_returns.
  - reflexivity.
  - reflexivity.
  - exact parse_charge_eq.
  - intros s. unfold cleaned, strip. rewrite chars_str, <- remove_chars_filter.
    destruct (strip_chars_split is_space (chars (remove_char "," (remove_char "$" s))))
      as (a & b & Hab & Ha & Hb).
    destruct (strip_chars_ends is_space (chars (remove_char "," (remove_char "$" s))))
      as (Hhd & Htl).
    exists a, b. auto.
  - eexists. split; [vm_compute; reflexivity|]. vm_compute. reflexivity.
  - vm_compute. reflexivity.
Qed.

End ChargeParserFacts.

(** ** DuplicateDetector *)

Section DuplicateDetectorFacts.
Import DuplicateDetector.

Lemma Counter_lookup_acc (xs : list string) (m : gmap string nat) (c : string) :
  foldl (fun m x => <[x := S (default 0 (m !! x))]> m) m xs !! c
  = match count_occ string_dec xs c with
    | 0 => m !! c
    | S k => Some (S k + default 0 (m !! c))
    end.
Proof.
  revert m. induction xs as [|x xs IH]; intros m; [reflexivity|].
  cbn [foldl]. rewrite IH. destruct (string_dec x c) as [->|Hne].
  - rewrite count_occ_cons_eq by reflexivity. rewrite lookup_insert_eq.
    destruct (m !! c) as [d|]; destruct (count_occ string_dec xs c);
      simpl; f_equal; lia.
  - rewrite count_occ_cons_neq by assumption. now rewrite lookup_insert_ne.
Qed.

Lemma Counter_lookup (xs : list string) (c : string) :
  Counter xs !! c
  = match count_occ string_dec xs c with 0 => None | S k => Some (S k) end.
Proof.
  unfold Counter. rewrite Counter_lookup_acc, lookup_empty. cbn [default].
  destruct (count_occ string_dec xs c); [reflexivity | f_equal; lia].
Qed.

Lemma detect_duplicates_lookup (codes : list HCPCSCode.t) (c : string) (n : nat) :
  detect_duplicates codes !! c = Some n
  <-> n = count_occ string_dec (List.map HCPCSCode.code codes) c /\ 1 < n.
Proof.
  unfold detect_duplicates. rewrite map_lookup_filter_Some, Counter_lookup.
  change ((c, n).2) with n.
  destruct (count_occ string_dec _ c) as [|k]; split.
  - intros [[=] _].
  - intros [-> H]. lia.
  - intros [[= <-] H]. auto.
  - intros [-> H]. auto.
Qed.

(** C9. [detect_duplicates] maps exactly the codes that occur more than once
    to their number of occurrences, and gives the same mapping for any
    permutation of the line items; on [A, A, B, C, C, C] the mapping is
    [{A: 2, C: 3}]. *)
Theorem detect_duplicates_counts :
  (forall codes c n,
     detect_duplicates codes !! c = Some n
     <-> n = count_occ string_dec (List.map HCPCSCode.code codes) c /\ 1 < n)
  /\ (forall codes codes',
        Permutation codes codes' -> detect_duplicates codes = detect_duplicates codes')
  /\ (forall d g u r,
        let item c := {| HCPCSCode.code := c; HCPCSCode.description := d;
                         HCPCSCode.charge := g; HCPCSCode.units := u;
                         HCPCSCode.revenue_code := r |} in
        detect_duplicates [item "A"; item "A"; item "B"; item "C"; item "C"; item "C"]
        = {[ "A" := 2; "C" := 3 ]}).
Proof.
  split; [exact detect_duplicates_lookup|split].
  - intros codes codes' Hp. apply map_eq. intros c.
    apply option_eq. intros n. rewrite !detect_duplicates_lookup.
    assert (Hc : count_occ string_dec (List.map HCPCSCode.code codes) c
                 = count_occ string_dec (List.map HCPCSCode.code codes') c).
    { apply Permutation_count_occ. now apply Permutation_map. }
    now rewrite Hc.
  - intros d g u r item. apply map_eq. intros c.
    apply option_eq. intros n. rewrite detect_duplicates_lookup.
    change (List.map HCPCSCode.code _) with ["A"; "A"; "B"; "C"; "C"; "C"].
    destruct (decide (c = "A")) as [->|HA].
    { rewrite lookup_insert_eq.
      replace (count_occ string_dec _ "A") with 2 by (vm_compute; reflexivity).
      split; [intros [-> _]; reflexivity|]. intros [= <-]. split; [reflexivity | lia]. }
    rewrite lookup_insert_ne by congruence.
    destruct (decide (c = "C")) as [->|HC].
    { rewrite lookup_singleton_eq.
      replace (count_occ string_dec _ "C") with 3 by (vm_compute; reflexivity).
      split; [intros [-> _]; reflexivity|]. intros [= <-]. split; [reflexivity | lia]. }
    rewrite lookup_singleton_ne by congruence.
    rewrite !(count_occ_cons_neq string_dec _ (x := "A")) by congruence.
    destruct (string_dec "B" c) as [<-|HB].
    + replace (count_occ string_dec _ "B") with 1 by (vm_compute; reflexivity).
      split; [intros [-> H]; lia | discriminate].
    + rewrite count_occ_cons_neq by congruence.
      rewrite !(count_occ_cons_neq string_dec _ (x := "C")) by congruence.
      split; [intros [-> H]; cbn in H; lia | discriminate].
Qed.

End DuplicateDetectorFacts.

(** ** The merge step *)

Section MergeFacts.
Import Py ChargeParser Merge Notions.

Lemma find_snoc {A} (p : A -> bool) (l : list A) (x : A) :
  List.find p (l ++ [x])
  = match List.find p l with
    | Some y => Some y
    | None => if p x then Some x else None
    end.
Proof.
  induction l as [|y l IH]; simpl; [reflexivity|].
  destruct (p y); [reflexivity | exact IH].
Qed.

Lemma validation_map_acc (vs : list CodeValidation.t)
    (m : gmap string CodeValidation.t) (c : string) :
  foldl (fun m v => <[CodeValidation.code v := v]> m) m vs !! c
  = match matching_validation vs c with Some v => Some v | None => m !! c end.
Proof.
  unfold matching_validation. revert m.
  induction vs as [|v vs IH]; intros m; [reflexivity|].
  cbn [foldl List.rev]. rewrite IH, find_snoc.
  destruct (List.find _ (List.rev vs)); [reflexivity|].
  destruct (String.eqb_spec (CodeValidation.code v) c) as [<-|Hne].
  - apply lookup_insert_eq.
  - now apply lookup_insert_ne.
Qed.

Lemma validation_map_lookup (vs : list CodeValidation.t) (c : string) :
  validation_map vs !! c = matching_validation vs c.
Proof.
  unfold validation_map. rewrite validation_map_acc, lookup_empty.
  now destruct (matching_validation vs c).
Qed.

Lemma matching_validation_None (vs : list CodeValidation.t) (c : string) :
  matching_validation vs c = None
  <-> forall v, In v vs -> CodeValidation.code v <> c.
Proof.
  unfold matching_validation. split.
  - intros H v Hv E. apply in_rev in Hv.
    pose proof (find_none _ _ H v Hv) as Hf. cbv beta in Hf.
    apply String.eqb_eq in E. congruence.
  - intros H. destruct (List.find _ _) as [v|] eqn:E; [|reflexivity].
    apply find_some in E as [Hin Heq]. apply in_rev in Hin.
    apply String.eqb_eq in Heq. now destruct (H v Hin).
Qed.

Lemma matching_validation_Some (vs : list CodeValidation.t) (c : string)
    (v : CodeValidation.t) :
  matching_validation vs c = Some v -> In v vs /\ CodeValidation.code v = c.
Proof.
  unfold matching_validation. intros E. apply find_some in E as [Hin Heq].
  split; [now apply in_rev | now apply String.eqb_eq].
Qed.

Lemma merge_acc (vs : list CodeValidation.t) (codes : list HCPCSCode.t)
    (res0 : list CodeAnalysis.t) (sav0 : spec_float) :
  exists res,
    foldM (merge_one (validation_map vs)) codes (res0, sav0)
    = Ok (res0 ++ res,
          fold_left fadd
            (List.map CodeAnalysis.billed_charge (List.filter is_disputed res)) sav0)
    /\ Forall2 (attached vs) codes res.
Proof.
  revert res0 sav0. induction codes as [|h codes IH]; intros res0 sav0.
  - exists []. cbn. rewrite app_nil_r. split; [reflexivity | constructor].
  - cbn [foldM]. unfold merge_one at 1.
    destruct (parse_charge_returns (HCPCSCode.charge h)) as [charge Hc].
    rewrite Hc. cbn [bind fst snd].
    rewrite validation_map_lookup.
    set (val := match matching_validation vs (HCPCSCode.code h) with
                | Some v => v | None => fallback (HCPCSCode.code h) end).
    set (a := {| CodeAnalysis.code := HCPCSCode.code h;
                 CodeAnalysis.description := HCPCSCode.description h;
                 CodeAnalysis.revenue_code := HCPCSCode.revenue_code h;
                 CodeAnalysis.status := CodeValidation.status val;
                 CodeAnalysis.reasoning := CodeValidation.reasoning val;
                 CodeAnalysis.billed_charge := charge |}).
    destruct (IH (res0 ++ [a])
                (if String.eqb (CodeValidation.status val) "disputed"
                 then fadd sav0 charge else sav0)) as (res & Hres & Hall).
    exists (a :: res). split.
    + rewrite Hres. rewrite <- app_assoc. cbn [List.app List.filter].
      unfold is_disputed at 2. cbn [CodeAnalysis.status a].
      destruct (String.eqb (CodeValidation.status val) "disputed"); reflexivity.
    + constructor; [|exact Hall].
      unfold attached. cbn [a CodeAnalysis.code CodeAnalysis.description
        CodeAnalysis.revenue_code CodeAnalysis.billed_charge CodeAnalysis.status
        CodeAnalysis.reasoning].
      repeat split; trivial; subst val;
        destruct (matching_validation vs (HCPCSCode.code h)); split; reflexivity.
Qed.

(** C3. The merge step returns one analysis per line item, in the order of
    extraction and without merging repeated codes: each carries the code,
    description and revenue code of its line item, its parsed charge, and the
    status and reasoning of the validation result for its code, or "accepted"
    with the generic reasoning when the response has no result for that code.
    The savings are the sum of the parsed charges of exactly the analyses
    whose status is "disputed". *)
Theorem merge_per_instance (codes : list HCPCSCode.t)
    (validation : ValidationResponse.t) :
  exists res savings,
    merge codes validation = Ok (res, savings)
    /\ List.length res = List.length codes
    /\ Forall2 (attached (ValidationResponse.validations validation)) codes res
    /\ (forall (i : nat) h a,
          codes !! i = Some h -> res !! i = Some a ->
          (forall v, In v (ValidationResponse.validations validation) ->
                     CodeValidation.code v <> HCPCSCode.code h) ->
          CodeAnalysis.status a = "accepted"
          /\ CodeAnalysis.reasoning a = "No validation issues found.")
    /\ savings
       = total (List.map CodeAnalysis.billed_charge (List.filter is_disputed res)).
Proof.
  unfold merge.
  destruct (merge_acc (ValidationResponse.validations validation) codes [] fzero)
    as (res & Hres & Hall).
  exists res, (total (List.map CodeAnalysis.billed_charge (List.filter is_disputed res))).
  split; [exact Hres|]. split; [symmetry; eapply Forall2_length; eauto|].
  split; [exact Hall|]. split; [|reflexivity].
  intros i h a Hh Ha Hnone.
  destruct (Forall2_lookup_l _ _ _ _ _ Hall Hh) as (a' & Ha' & Hatt).
  assert (a' = a) as -> by congruence.
  destruct Hatt as (_ & _ & _ & _ & Hval).
  apply matching_validation_None in Hnone. now rewrite Hnone in Hval.
Qed.

(** A bill with a repeated code: both instances are kept and both count. *)
Example merge_sample :
  let item c g := {| HCPCSCode.code := c; HCPCSCode.description := None;
                     HCPCSCode.charge := Some g; HCPCSCode.units := None;
                     HCPCSCode.revenue_code := None |} in
  let verdict c s := {| CodeValidation.code := c; CodeValidation.status := s;
                        CodeValidation.reasoning := "checked" |} in
  let response := {| ValidationResponse.validations :=
                       [verdict "71046" "disputed"; verdict "99213" "accepted"];
                     ValidationResponse.overall_reasoning := "" |} in
  exists res,
    merge [item "71046" "$100.00"; item "71046" "$100.00"; item "99213" "$50";
           item "36415" "n/a"] response
    = Ok (res, S754_finite false 7036874417766400 (-45))
    /\ List.map CodeAnalysis.status res
       = ["disputed"; "disputed"; "accepted"; "accepted"]
    /\ represents (S754_finite false 7036874417766400 (-45)) 200 1.
Proof. eexists. repeat split; vm_compute; reflexivity. Qed.

End MergeFacts.

(** ** CodeLookup *)

Section CodeLookupFacts.
Import Py ChargeIndex CodeLookup.

Lemma index_get_None (db : index) (k : pykey) :
  index_get db k = None <-> ~ In k (keys db).
Proof.
  induction db as [|[k' e] db IH]; simpl; [tauto|].
  destruct (decide (k' = k)) as [->|Hne].
  - split; [discriminate | intros H; destruct H; auto].
  - rewrite IH. split; [intros H [E|Hin]; auto | intros H Hin; auto].
Qed.

Lemma index_get_In (db : index) (k : pykey) (e : db_entry) :
  index_get db k = Some e -> In (k, e) db.
Proof.
  induction db as [|[k' e'] db IH]; simpl; [discriminate|].
  destruct (decide (k' = k)) as [->|Hne]; [intros [= ->]; auto | auto].
Qed.

(** C7. For a code that is not a key of the index, [lookup_hcpcs_code]
    returns, without raising and whatever the filters are, the not-found
    result: [found] false, the queried code, and the fixed message, which
    says "not found". *)
Theorem lookup_code_not_in_index (db : index) (code : string)
    (setting billing_class : option string) :
  ~ In (KStr code) (keys db) ->
  exists r,
    lookup_hcpcs_code db code setting billing_class = Ok r
    /\ found r = false
    /\ r = NotFound code "Code not found in UCSF standard charges database"
    /\ contains "Code not found in UCSF standard charges database" "not found" = true.
Proof.
  intros H. apply index_get_None in H.
  unfold lookup_hcpcs_code. rewrite H.
  eexists. split; [reflexivity|]. repeat split.
Qed.

Lemma lookup_code_not_in_index_witness :
  exists r,
    lookup_hcpcs_code
      [(KStr "99213", {| description := JStr "Office visit"; code := JStr "99213";
                         standard_charges := JArr []; revenue_code := JNull |})]
      "71046" (Some "outpatient") None = Ok r
    /\ found r = false
    /\ r = NotFound "71046" "Code not found in UCSF standard charges database"
    /\ contains "Code not found in UCSF standard charges database" "not found" = true.
Proof.
  apply lookup_code_not_in_index. simpl. intros [H|[]]. discriminate H.
Defined.

Import Notions.

Lemma get_object (c : json) (k : string) :
  is_object c -> get c k = Ok (field c k).
Proof. intros [kvs ->]. reflexivity. Qed.

Lemma eq_str_spec (v : json) (s : string) : eq_str v s = true <-> v = JStr s.
Proof.
  destruct v; simpl; try (split; [discriminate | intros [=]]).
  rewrite String.eqb_eq. split; [congruence | now intros [= ->]].
Qed.

Lemma given_false (o : option string) : given o = false <-> unset o.
Proof.
  unfold unset. destruct o as [[|c s]|]; simpl; split; auto; try discriminate.
  - intros [H|H]; discriminate H.
Qed.

Lemma given_arg (o : option string) : given o = true -> o = Some (arg o).
Proof. destruct o as [s|]; simpl; [reflexivity | discriminate]. Qed.

Lemma keeps_object (setting billing_class : option string) (c : json) :
  is_object c ->
  keeps setting billing_class c = Ok (keep_variant setting billing_class c).
Proof.
  intros Hc. unfold keeps, keep_variant.
  rewrite !(get_object c _ Hc).
  destruct (given setting), (given billing_class); cbn;
    destruct (eq_str (field c "setting") "both"
              || eq_str (field c "setting") (arg setting))%bool; reflexivity.
Qed.

Lemma keep_variant_spec (setting billing_class : option string) (c : json) :
  keep_variant setting billing_class c = true <-> kept_by setting billing_class c.
Proof.
  unfold keep_variant, kept_by.
  rewrite andb_true_iff, !orb_true_iff, !negb_true_iff, !given_false, !eq_str_spec.
  split; intros [H1 H2]; split.
  - destruct H1 as [[H1|H1]|H1]; auto.
    destruct (given setting) eqn:G.
    + right; right. exists (arg setting). split; [now apply given_arg | exact H1].
    + left. now apply given_false.
  - destruct H2 as [H2|H2]; auto.
    destruct (given billing_class) eqn:G.
    + right. exists (arg billing_class). split; [now apply given_arg | exact H2].
    + left. now apply given_false.
  - destruct H1 as [H1|[H1|(s & -> & H1)]]; auto.
  - destruct H2 as [H2|(b & -> & H2)]; auto.
Qed.

Lemma filterM_keeps (setting billing_class : option string) (cs : list json) :
  Forall is_object cs ->
  filterM (keeps setting billing_class) cs
  = Ok (List.filter (keep_variant setting billing_class) cs).
Proof.
  induction 1 as [|c cs Hc _ IH]; [reflexivity|].
  cbn [filterM List.filter]. rewrite (keeps_object _ _ _ Hc), IH. reflexivity.
Qed.

Lemma mapM_project (cs : list json) :
  Forall is_object cs -> mapM project cs = Ok (List.map variant_info cs).
Proof.
  induction 1 as [|c cs Hc _ IH]; [reflexivity|].
  cbn [mapM List.map]. rewrite IH. unfold project.
  rewrite !(get_object c _ Hc). reflexivity.
Qed.

Lemma filter_unset (setting billing_class : option string) (cs : list json) :
  given setting = false -> given billing_class = false ->
  List.filter (keep_variant setting billing_class) cs = cs.
Proof.
  intros Hs Hb. induction cs as [|c cs IH]; [reflexivity|].
  cbn [List.filter]. unfold keep_variant at 1. rewrite Hs, Hb. cbn. now rewrite IH.
Qed.

(** C6. For a code of the index whose entry has a string description and a
    list of price variants, [lookup_hcpcs_code] returns the found result: the
    description, the revenue code, the number of all variants, and the first
    five, in their order in the entry, of the variants the filter keeps. A
    variant is kept exactly when (setting is unset, or the variant's setting
    is "both" or equals it) and (the billing class is unset, or the variant's
    billing class equals it); with both unset every variant is kept. *)
Theorem lookup_filters_variants (db : index) (code : string)
    (setting billing_class : option string) (entry : db_entry)
    (d : string) (cs : list json) :
  index_get db (KStr code) = Some entry ->
  description entry = JStr d ->
  standard_charges entry = JArr cs ->
  Forall is_object cs ->
  exists kept,
    lookup_hcpcs_code db code setting billing_class
    = Ok (Found code (JStr d) (revenue_code entry)
            (List.map variant_info (firstn 5 kept)) (List.length cs))
    /\ kept = List.filter (keep_variant setting billing_class) cs
    /\ (forall c, In c kept <-> In c cs /\ kept_by setting billing_class c)
    /\ (unset setting -> unset billing_class -> kept = cs)
    /\ List.length (firstn 5 kept) <= 5.
Proof.
  intros Hget Hd Hcs Hobj.
  exists (List.filter (keep_variant setting billing_class) cs).
  assert (Hkept : Forall is_object
            (firstn 5 (List.filter (keep_variant setting billing_class) cs))).
  { rewrite List.Forall_forall in *. intros c Hc. apply Hobj.
    apply firstn_In in Hc. now apply filter_In in Hc. }
  split; [|split; [reflexivity|split; [|split]]].
  - unfold lookup_hcpcs_code. rewrite Hget, Hd, Hcs. cbn [slice_to bind].
    destruct (given setting || given billing_class)%bool eqn:G.
    + cbn [iter bind]. rewrite (filterM_keeps _ _ _ Hobj). cbn [bind slice_to iter].
      rewrite (mapM_project _ Hkept). reflexivity.
    + apply orb_false_iff in G as [Gs Gb].
      rewrite (filter_unset _ _ cs Gs Gb) in *.
      cbn [bind slice_to iter]. rewrite (mapM_project _ Hkept). reflexivity.
  - intros c. rewrite filter_In, keep_variant_spec. reflexivity.
  - intros Hs Hb. apply filter_unset; now apply given_false.
  - apply firstn_le_length.
Qed.

Lemma lookup_filters_variants_witness :
  let v s b g := JObj [("gross_charge", JInt (Z.of_nat g)); ("setting", JStr s);
                       ("billing_class", JStr b)] in
  let cs := [v "outpatient" "facility" 10; v "inpatient" "facility" 20;
             v "both" "facility" 30; v "outpatient" "professional" 40;
             v "outpatient" "facility" 50; v "outpatient" "facility" 60;
             v "both" "facility" 70; v "outpatient" "facility" 80] in
  let entry := {| description := JStr "Office visit"; code := JStr "99213";
                  standard_charges := JArr cs; revenue_code := JStr "0510" |} in
  exists kept,
    lookup_hcpcs_code [(KStr "99213", entry)] "99213" (Some "outpatient") (Some "facility")
    = Ok (Found "99213" (JStr "Office visit") (JStr "0510")
            (List.map variant_info (firstn 5 kept)) 8)
    /\ kept = [v "outpatient" "facility" 10; v "both" "facility" 30;
               v "outpatient" "facility" 50; v "outpatient" "facility" 60;
               v "both" "facility" 70; v "outpatient" "facility" 80]
    /\ (forall c, In c kept <-> In c cs /\ kept_by (Some "outpatient") (Some "facility") c)
    /\ (unset (Some "outpatient") -> unset (Some "facility") -> kept = cs)
    /\ List.length (firstn 5 kept) <= 5.
Proof.
  intros v cs entry.
  apply (lookup_filters_variants [(KStr "99213", entry)] "99213"
           (Some "outpatient") (Some "facility") entry "Office visit" cs).
  - reflexivity.
  - reflexivity.
  - reflexivity.
  - repeat constructor; eexists; reflexivity.
Defined.

End CodeLookupFacts.

(** ** The order of the floats *)

Section FloatOrder.
Import Py Notions.

Lemma flt_nan_l (x : spec_float) : flt S754_nan x = false.
Proof. reflexivity. Qed.

Lemma flt_nan_r (x : spec_float) : flt x S754_nan = false.
Proof. now destruct x as [| | |[] ? ?]. Qed.

Lemma flt_not_nan (x y : spec_float) :
  flt x y = true -> is_nan x = false /\ is_nan y = false.
Proof.
  destruct x as [?|?| |? ? ?], y as [?|?| |? ? ?]; cbn; auto; discriminate.
Qed.

Ltac order_cases :=
  repeat match goal with
  | b : bool |- _ => destruct b
  end;
  cbn; try (split; [discriminate | intros; lia]);
  try (split; [intros _; lia | reflexivity]).

Lemma flt_rank (x y : spec_float) :
  is_nan x = false -> is_nan y = false ->
  flt x y = true <-> lex_lt (rank x) (rank y).
Proof.
  unfold flt, SFltb.
  destruct x as [s1|s1| |s1 m1 e1], y as [s2|s2| |s2 m2 e2]; cbn [is_nan];
    try discriminate; intros _ _; cbn [SFcompare rank lex_lt]; try solve [order_cases].
  destruct s1, s2; try solve [order_cases].
  - change (Pos.compare_cont Eq m1 m2) with (Pos.compare m1 m2).
    destruct (Z.compare_spec e1 e2); [destruct (Pos.compare_spec m1 m2)| |]; cbn;
      split; try discriminate; try reflexivity; intros; lia.
  - change (Pos.compare_cont Eq m1 m2) with (Pos.compare m1 m2).
    destruct (Z.compare_spec e1 e2); [destruct (Pos.compare_spec m1 m2)| |]; cbn;
      split; try discriminate; try reflexivity; intros; lia.
Qed.

Lemma fle_rank (x y : spec_float) :
  is_nan x = false -> is_nan y = false ->
  fle x y = true <-> ~ lex_lt (rank y) (rank x).
Proof.
  unfold fle, SFleb.
  destruct x as [s1|s1| |s1 m1 e1], y as [s2|s2| |s2 m2 e2]; cbn [is_nan];
    try discriminate; intros _ _; cbn [SFcompare rank lex_lt]; try solve [order_cases].
  destruct s1, s2; try solve [order_cases].
  - change (Pos.compare_cont Eq m1 m2) with (Pos.compare m1 m2).
    destruct (Z.compare_spec e1 e2); [destruct (Pos.compare_spec m1 m2)| |]; cbn;
      split; try discriminate; try reflexivity; intros; lia.
  - change (Pos.compare_cont Eq m1 m2) with (Pos.compare m1 m2).
    destruct (Z.compare_spec e1 e2); [destruct (Pos.compare_spec m1 m2)| |]; cbn;
      split; try discriminate; try reflexivity; intros; lia.
Qed.

Lemma lex_lt_dec (a b : Z * Z * Z) : lex_lt a b \/ ~ lex_lt a b.
Proof. destruct a as [[a1 a2] a3], b as [[b1 b2] b3]. unfold lex_lt. lia. Qed.

Lemma flt_false_rank (x y : spec_float) :
  is_nan x = false -> is_nan y = false ->
  flt x y = false <-> ~ lex_lt (rank x) (rank y).
Proof.
  intros Hx Hy. rewrite <- (flt_rank x y Hx Hy).
  destruct (flt x y); split; congruence.
Qed.

(** Among floats that are not NaN, "not less than" is [>=]. *)
Lemma not_flt_fle (x y : spec_float) :
  is_nan x = false -> is_nan y = false -> flt y x = false -> fle x y = true.
Proof.
  intros Hx Hy H. apply (fle_rank x y Hx Hy). now apply (flt_false_rank y x Hy Hx).
Qed.

Lemma flt_asym (x y : spec_float) : flt x y = true -> flt y x = false.
Proof.
  intros H. destruct (flt_not_nan _ _ H) as [Hx Hy].
  apply (flt_false_rank y x Hy Hx). apply (flt_rank x y Hx Hy) in H.
  destruct (rank x) as [[a1 a2] a3], (rank y) as [[b1 b2] b3]. unfold lex_lt in *. lia.
Qed.

Lemma not_flt_trans (x y z : spec_float) :
  is_nan y = false ->
  flt y x = false -> flt z y = false -> flt z x = false.
Proof.
  intros Hy H1 H2.
  destruct (is_nan x) eqn:Hx; [destruct x; try discriminate; apply flt_nan_r|].
  destruct (is_nan z) eqn:Hz; [destruct z; try discriminate; apply flt_nan_l|].
  apply (flt_false_rank z x Hz Hx).
  apply (flt_false_rank y x Hy Hx) in H1. apply (flt_false_rank z y Hz Hy) in H2.
  destruct (rank x) as [[a1 a2] a3], (rank y) as [[b1 b2] b3], (rank z) as [[c1 c2] c3].
  unfold lex_lt in *. lia.
Qed.

End FloatOrder.

(** ** AlternativeFinder: the sort *)

Section SortFacts.
Import Py ChargeIndex AlternativeFinder Notions.

Lemma key_lt_asym (a b : candidate) : key_lt a b = true -> key_lt b a = false.
Proof.
  unfold key_lt. rewrite orb_true_iff, andb_true_iff, orb_false_iff, andb_false_iff.
  rewrite !Z.ltb_lt, !Z.eqb_eq, Z.ltb_ge, Z.eqb_neq.
  intros [H|[H1 H2]].
  - split; [lia | left; lia].
  - split; [lia | right; now apply flt_asym].
Qed.

Lemma not_key_lt_trans (a b c : candidate) :
  is_nan (min_price b) = false ->
  key_lt b a = false -> key_lt c b = false -> key_lt c a = false.
Proof.
  unfold key_lt. rewrite !orb_false_iff, !andb_false_iff.
  rewrite !Z.ltb_ge, !Z.eqb_neq.
  intros Hb [H1 H1'] [H2 H2']. split; [lia|].
  destruct (Z.eq_dec (- Z.of_nat (match_score c))%Z (- Z.of_nat (match_score a))%Z)
    as [E|NE]; [right | now left].
  destruct H1' as [H1'|H1']; [lia|]. destruct H2' as [H2'|H2']; [lia|].
  exact (not_flt_trans _ _ _ Hb H1' H2').
Qed.

Lemma ordered_ranked (a b : candidate) :
  is_nan (min_price a) = false -> is_nan (min_price b) = false ->
  ordered a b -> ranked a b.
Proof.
  unfold ordered, ranked, key_lt. rewrite orb_false_iff, andb_false_iff.
  rewrite Z.ltb_ge, Z.eqb_neq. intros Ha Hb [H1 H2]. split; [lia|].
  intros E. destruct H2 as [H2|H2]; [lia|]. now apply not_flt_fle.
Qed.

Lemma insert_sorted_perm (x : candidate) (l : list candidate) :
  Permutation (insert_sorted x l) (x :: l).
Proof.
  induction l as [|y l IH]; cbn [insert_sorted]; [reflexivity|].
  destruct (key_lt y x); [|reflexivity].
  rewrite IH. apply perm_swap.
Qed.

Lemma sort_perm (l : list candidate) : Permutation (sort l) l.
Proof.
  induction l as [|x l IH]; cbn [sort]; [reflexivity|].
  rewrite insert_sorted_perm. now constructor.
Qed.

Lemma insert_sorted_sorted (x : candidate) (l : list candidate) :
  List.Forall (fun c => is_nan (min_price c) = false) l ->
  StronglySorted ordered l -> StronglySorted ordered (insert_sorted x l).
Proof.
  intros Hnan Hs. induction Hs as [|y l Hs IH Hy]; cbn [insert_sorted].
  - repeat constructor.
  - apply List.Forall_cons_iff in Hnan as [Hny Hnl].
    destruct (key_lt y x) eqn:E.
    + constructor; [now apply IH|].
      apply (Permutation_Forall (x := x :: l)); [symmetry; apply insert_sorted_perm|].
      constructor; [exact (key_lt_asym _ _ E) | exact Hy].
    + constructor; [now constructor|].
      constructor; [exact E|].
      rewrite List.Forall_forall in *. intros z Hz.
      exact (not_key_lt_trans x y z Hny E (Hy z Hz)).
Qed.

Lemma sort_sorted (l : list candidate) :
  List.Forall (fun c => is_nan (min_price c) = false) l ->
  StronglySorted ordered (sort l).
Proof.
  induction l as [|x l IH]; cbn [sort]; intros H; [constructor|].
  apply List.Forall_cons_iff in H as [_ Hl].
  apply insert_sorted_sorted; [|now apply IH].
  apply (Permutation_Forall (x := l)); [symmetry; apply sort_perm | exact Hl].
Qed.

Lemma firstn_sorted (n : nat) (l : list candidate) :
  StronglySorted ordered l -> StronglySorted ordered (firstn n l).
Proof.
  intros Hs. revert n. induction Hs as [|y l Hs IH Hy]; intros [|n]; cbn [firstn];
    try constructor; [apply IH|].
  rewrite List.Forall_forall in *. intros z Hz. apply Hy. eapply firstn_In; eauto.
Qed.

Lemma sorted_lookup (l : list candidate) :
  StronglySorted ordered l ->
  forall (i j : nat) a b, i < j -> l !! i = Some a -> l !! j = Some b -> ordered a b.
Proof.
  induction 1 as [|y l Hs IH Hy]; intros i j a b Hij Ha Hb; [now destruct i|].
  destruct j as [|j]; [lia|]. cbn in Hb.
  destruct i as [|i].
  - cbn in Ha. injection Ha as ->.
    rewrite List.Forall_forall in Hy. apply Hy.
    apply list_elem_of_In. eapply list_elem_of_lookup_2; eauto.
  - cbn in Ha. apply (IH i j); auto; lia.
Qed.

(** The sort is stable: candidates with the same key keep the order they
    had in the list. *)
Lemma insert_sorted_stable (a x : candidate) (l : list candidate) :
  is_nan (min_price a) = false ->
  List.filter (same_key a) (insert_sorted x l) = List.filter (same_key a) (x :: l).
Proof.
  intros Ha. induction l as [|y l IH]; [reflexivity|].
  cbn [insert_sorted]. destruct (key_lt y x) eqn:E; [|reflexivity].
  cbn [List.filter] in *. rewrite IH.
  destruct (same_key a x) eqn:Hx, (same_key a y) eqn:Hy; try reflexivity.
  unfold same_key in Hx, Hy.
  apply andb_true_iff in Hx as [Hx _]. apply andb_true_iff in Hy as [_ Hy].
  apply negb_true_iff in Hx, Hy.
  rewrite (not_key_lt_trans x a y Ha Hx Hy) in E. discriminate.
Qed.

Lemma sort_stable (a : candidate) (l : list candidate) :
  is_nan (min_price a) = false ->
  List.filter (same_key a) (sort l) = List.filter (same_key a) l.
Proof.
  intros Ha. induction l as [|x l IH]; [reflexivity|].
  cbn [sort]. rewrite (insert_sorted_stable a x (sort l) Ha).
  cbn [List.filter]. now rewrite IH.
Qed.

Lemma upto_firstn {A} (limit : Z) (l : list A) :
  exists n, upto limit l = firstn n l /\ ((0 <= limit)%Z -> n = Z.to_nat limit).
Proof.
  unfold upto. destruct (Z.leb_spec 0 limit); eexists; split; eauto; lia.
Qed.

End SortFacts.

(** ** AlternativeFinder: the scan *)

Section ScanFacts.
Import Py ChargeIndex AlternativeFinder Notions.

Lemma flt_inf_l (x : spec_float) : flt finf x = false.
Proof. now destruct x as [?|[]| |? ? ?]. Qed.

Lemma minimum_price_truthy (charges : json) (p max_price : spec_float) :
  minimum_price charges = Ok p -> flt p max_price = true -> truthy charges = true.
Proof.
  unfold minimum_price. intros H Hlt.
  destruct charges as [|b|z|f|s|l|kvs]; try discriminate H; cbn in H |- *.
  - destruct s as [|c s]; [|reflexivity].
    cbn in H. injection H as <-. now rewrite flt_inf_l in Hlt.
  - destruct l as [|c l]; [|reflexivity].
    cbn in H. injection H as <-. now rewrite flt_inf_l in Hlt.
  - destruct kvs as [|c l]; [|reflexivity].
    cbn in H. injection H as <-. now rewrite flt_inf_l in Hlt.
Qed.

Lemma consider_Some (kws : list string) (max_price : spec_float)
    (e : db_entry) (c : candidate) :
  consider kws max_price e = Ok (Some c) ->
  exists d p,
    ChargeIndex.description e = JStr d
    /\ 2 <= count_matches kws (lower d)
    /\ minimum_price (ChargeIndex.standard_charges e) = Ok p
    /\ flt p max_price = true
    /\ c = candidate_of e (count_matches kws (lower d)) p.
Proof.
  unfold consider. intros H.
  destruct (ChargeIndex.description e) as [| | | |d| |] eqn:Hd; try discriminate H.
  cbn [lower_of bind] in H.
  destruct (Nat.ltb_spec (count_matches kws (lower d)) 2) as [Hm|Hm]; [discriminate H|].
  destruct (truthy (ChargeIndex.standard_charges e)); [|discriminate H].
  cbn [negb] in H.
  destruct (minimum_price (ChargeIndex.standard_charges e)) as [p|x] eqn:Hp;
    [|discriminate H].
  cbn [bind] in H. destruct (flt p max_price) eqn:Hlt; [|discriminate H].
  injection H as <-. exists d, p. unfold candidate_of. rewrite Hd. auto.
Qed.

Lemma consider_string (kws : list string) (max_price : spec_float)
    (e : db_entry) (d : string) (p : spec_float) :
  ChargeIndex.description e = JStr d ->
  minimum_price (ChargeIndex.standard_charges e) = Ok p ->
  consider kws max_price e
  = Ok (if (Nat.leb 2 (count_matches kws (lower d)) && flt p max_price)%bool
        then Some (candidate_of e (count_matches kws (lower d)) p)
        else None).
Proof.
  intros Hd Hp. unfold consider. rewrite Hd. cbn [lower_of bind].
  destruct (Nat.ltb_spec (count_matches kws (lower d)) 2) as [Hm|Hm].
  { now replace (Nat.leb 2 _) with false by (symmetry; apply Nat.leb_gt; lia). }
  replace (Nat.leb 2 _) with true by (symmetry; apply Nat.leb_le; lia).
  cbn [andb]. destruct (flt p max_price) eqn:Hlt.
  - rewrite (minimum_price_truthy _ _ _ Hp Hlt). cbn [negb]. rewrite Hp. cbn [bind].
    rewrite Hlt. unfold candidate_of. now rewrite Hd.
  - destruct (truthy _); cbn [negb]; [|reflexivity].
    rewrite Hp. cbn [bind]. now rewrite Hlt.
Qed.

Lemma scan_In (kws : list string) (max_price : spec_float) (db : index)
    (cs : list candidate) :
  scan kws max_price db = Ok cs ->
  forall c, In c cs <-> exists k e, In (k, e) db /\ consider kws max_price e = Ok (Some c).
Proof.
  revert cs. induction db as [|[k e] db IH]; intros cs H c.
  - injection H as <-. split; [intros [] | intros (? & ? & [] & _)].
  - cbn [scan] in H.
    apply bind_Ok in H as (o & Ho & H). apply bind_Ok in H as (cs' & Hcs' & H).
    injection H as <-. specialize (IH cs' Hcs' c).
    split.
    + intros Hin.
      assert (Hc : o = Some c \/ In c cs').
      { destruct o as [x|]; [destruct Hin as [->|Hin]; auto | auto]. }
      destruct Hc as [->|Hc].
      * exists k, e. split; [now left | exact Ho].
      * apply IH in Hc as (k' & e' & Hin' & Hc'). exists k', e'. split; [now right | exact Hc'].
    + intros (k' & e' & [[= -> ->]|Hin'] & Hc').
      * rewrite Ho in Hc'. injection Hc' as ->. now left.
      * assert (In c cs') by (apply IH; eauto).
        destruct o; [now right | assumption].
Qed.

Lemma similar_codes_In (db : index) (description : string) (max_price : spec_float)
    (cs : list candidate) :
  similar_codes db description max_price = Ok cs ->
  forall c, In c cs
    <-> exists k e, In (k, e) db
                    /\ consider (keywords description) max_price e = Ok (Some c).
Proof.
  unfold similar_codes. intros H c.
  assert (Hnone : keywords description = [] ->
                  ~ exists k e, In (k, e) db
                      /\ consider (keywords description) max_price e = Ok (Some c)).
  { intros Hk (k & e & _ & Hc).
    apply consider_Some in Hc as (d & p & _ & Hm & _).
    rewrite Hk in Hm. cbn in Hm. lia. }
  destruct description as [|ch rest]; cbn [nonempty negb] in H.
  - injection H as <-. split; [intros [] | intros Hex; now destruct Hnone].
  - destruct (keywords (String ch rest)) as [|kw kws] eqn:Hk.
    + injection H as <-. split; [intros [] | intros Hex; now destruct Hnone].
    + now apply scan_In.
Qed.

Lemma gross_charges_returns (cs : list json) :
  List.Forall well_typed_variant cs -> returns (gross_charges cs).
Proof.
  induction 1 as [|c cs [Hobj Hfloat] _ [ps IH]]; [now exists []|].
  cbn [gross_charges]. rewrite (get_object c _ Hobj). cbn [bind].
  destruct (truthy (field c "gross_charge")); [|now exists ps].
  destruct (Hfloat eq_refl) as [p ->]. cbn [bind]. rewrite IH. now eexists.
Qed.

Lemma consider_returns (kws : list string) (max_price : spec_float) (e : db_entry) :
  well_typed_entry e -> returns (consider kws max_price e).
Proof.
  intros (d & cs & Hd & Hcs & Hall). unfold consider. rewrite Hd, Hcs.
  cbn [lower_of bind]. destruct (Nat.ltb _ 2); [now eexists|].
  destruct (negb _); [now eexists|].
  unfold minimum_price. cbn [iter bind].
  destruct (gross_charges_returns cs Hall) as [ps ->]. cbn [bind].
  destruct (flt _ max_price); now eexists.
Qed.

(** Over an index of well-typed entries the scan completes. *)
Lemma similar_codes_returns (db : index) (description : string)
    (max_price : spec_float) :
  List.Forall (fun ke => well_typed_entry (snd ke)) db ->
  returns (similar_codes db description max_price).
Proof.
  intros Hdb. unfold similar_codes.
  destruct (negb (nonempty description)); [now eexists|].
  destruct (keywords description) as [|kw kws]; [now eexists|].
  generalize (kw :: kws) as ks. intros ks.
  induction Hdb as [|[k e] db He _ [cs IH]]; [now exists []|].
  cbn [scan]. destruct (consider_returns ks max_price e He) as [o ->].
  cbn [bind]. rewrite IH. now eexists.
Qed.

Lemma similar_codes_priced (db : index) (description : string)
    (max_price : spec_float) (cs : list candidate) :
  similar_codes db description max_price = Ok cs ->
  List.Forall (priced_below max_price) cs.
Proof.
  intros H. apply List.Forall_forall. intros c Hc.
  apply (similar_codes_In _ _ _ _ H) in Hc as (k & e & _ & Hc).
  apply consider_Some in Hc as (d & p & _ & _ & _ & Hlt & ->). exact Hlt.
Qed.

End ScanFacts.

(** ** AlternativeFinder: the result *)

Section FinderFacts.
Import Py ChargeIndex AlternativeFinder Notions.

Lemma is_prefix_spec (p l : list ascii) :
  is_prefix p l = true <-> exists post, l = p ++ post.
Proof.
  revert l. induction p as [|a p IH]; intros l; cbn [is_prefix].
  - split; [intros _; now exists l | reflexivity].
  - destruct l as [|b l]; [split; [discriminate | intros [? [=]]]|].
    rewrite andb_true_iff, Ascii.eqb_eq, IH. split.
    + intros [-> [post ->]]. now exists post.
    + intros [post [= -> ->]]. eauto.
Qed.

(** [sub in s] holds exactly when [sub] is a run of consecutive characters
    of [s]. *)
Lemma contains_spec (s sub : string) :
  contains s sub = true <-> exists pre post, chars s = pre ++ chars sub ++ post.
Proof.
  unfold contains. generalize (chars sub) as p, (chars s) as l. intros p l.
  induction l as [|b l IH]; cbn [occurs_in]; rewrite orb_true_iff, is_prefix_spec.
  - split.
    + intros [[post H]|H]; [now exists [], post | discriminate].
    + intros (pre & post & H). left. destruct pre; [now exists post | discriminate].
  - rewrite IH. split.
    + intros [[post H]|(pre & post & ->)]; [now exists [], post|].
      now exists (b :: pre), post.
    + intros (pre & post & H). destruct pre as [|c pre].
      * left. now exists post.
      * right. injection H as -> ->. now exists pre, post.
Qed.

Lemma NoDup_map_In {A B} (f : A -> B) (l : list A) (x y : A) :
  List.NoDup (List.map f l) -> In x l -> In y l -> f x = f y -> x = y.
Proof.
  induction l as [|z l IH]; cbn [List.map]; [intros _ []|].
  intros Hnd [->|Hx] [->|Hy] E; trivial.
  - apply List.NoDup_cons_iff in Hnd as [Hz _]. destruct Hz.
    rewrite E. now apply in_map.
  - apply List.NoDup_cons_iff in Hnd as [Hz _]. destruct Hz.
    rewrite <- E. now apply in_map.
  - apply List.NoDup_cons_iff in Hnd as [_ Hnd]. now apply IH.
Qed.

Lemma find_similar_eq (db : index) (description : string) (max_price : spec_float)
    (limit : Z) (cs : list candidate) :
  similar_codes db description max_price = Ok cs ->
  find_similar_cheaper_codes db description max_price limit = Ok (upto limit (sort cs)).
Proof. intros H. unfold find_similar_cheaper_codes. now rewrite H. Qed.

Lemma upto_In {A} (limit : Z) (l : list A) (x : A) : In x (upto limit l) -> In x l.
Proof.
  destruct (upto_firstn limit l) as (n & -> & _). apply firstn_In.
Qed.

Lemma priced_below_not_nan (max_price : spec_float) (c : candidate) :
  priced_below max_price c -> is_nan (min_price c) = false.
Proof. intros H. now apply flt_not_nan in H. Qed.

(** C2. When [find_similar_cheaper_codes] returns, for a limit that is not
    negative, the list it returns is sorted by match count, descending, and
    among equal match counts by minimum price, ascending, and it has at most
    [limit] elements (5 by default). *)
Theorem results_ranked_and_limited (db : index) (description : string)
    (max_price : spec_float) (limit : Z) (r : list candidate) :
  (0 <= limit)%Z ->
  find_similar_cheaper_codes db description max_price limit = Ok r ->
  (forall (i j : nat) a b,
      i < j -> r !! i = Some a -> r !! j = Some b -> ranked a b)
  /\ (Z.of_nat (List.length r) <= limit)%Z.
Proof.
  intros Hlimit H. unfold find_similar_cheaper_codes in H.
  apply bind_Ok in H as (cs & Hcs & H). injection H as <-.
  pose proof (similar_codes_priced _ _ _ _ Hcs) as Hpriced.
  assert (Hnan : List.Forall (fun c => is_nan (min_price c) = false) cs).
  { eapply List.Forall_impl; [|exact Hpriced]. apply priced_below_not_nan. }
  destruct (upto_firstn limit (sort cs)) as (n & Hn & Hlim).
  rewrite Hn. specialize (Hlim Hlimit). split.
  - intros i j a b Hij Ha Hb.
    assert (Hin : forall k c, firstn n (sort cs) !! k = Some c ->
                              is_nan (min_price c) = false).
    { intros k c Hk. rewrite List.Forall_forall in Hnan. apply Hnan.
      apply (Permutation_in _ (sort_perm cs)). apply (firstn_In n).
      apply list_elem_of_In. eapply list_elem_of_lookup_2; eauto. }
    apply ordered_ranked; eauto.
    eapply sorted_lookup; eauto. apply firstn_sorted. now apply sort_sorted.
  - pose proof (firstn_le_length n (sort cs)). lia.
Qed.

Lemma results_ranked_and_limited_witness :
  let r := [Fixtures.hit "71046" "Chest xray 2 views" 5629499534213120 (-46) 3;
            Fixtures.hit "71048" "Chest xray 4 views" 5629499534213120 (-46) 3;
            Fixtures.hit "71047" "Chest xray 3 views" 6333186975989760 (-46) 3;
            Fixtures.hit "71101" "Xray of chest, special views" 6966505673588736 (-46) 3;
            Fixtures.hit "71045" "Chest xray 1 view" 8444249301319680 (-47) 2] in
  find_similar_cheaper_codes Fixtures.chest_index "Chest XRAY views"
    Fixtures.hundred default_limit = Ok r
  /\ (forall (i j : nat) a b,
        i < j -> r !! i = Some a -> r !! j = Some b -> ranked a b)
  /\ (Z.of_nat (List.length r) <= default_limit)%Z.
Proof.
  intros r.
  assert (H : find_similar_cheaper_codes Fixtures.chest_index "Chest XRAY views"
                Fixtures.hundred default_limit = Ok r) by (vm_compute; reflexivity).
  split; [exact H|].
  apply (results_ranked_and_limited Fixtures.chest_index "Chest XRAY views"
           Fixtures.hundred default_limit r); [unfold default_limit; lia | exact H].
Defined.

(** C1, as the code has it. Of a query whose scan completes, over an index
    whose entries store distinct codes, and of an entry with a string
    description and a minimum gross charge (over the variants whose gross
    charge is true): when that minimum is strictly below the ceiling, the
    entry is among the candidates exactly when at least 2 of the query's
    keyword tokens (each token of more than 3 characters, lower-cased, that is
    no stop word; a repeated token counts each time) occur in its lower-cased
    description; when the minimum is not strictly below the ceiling the entry
    is no candidate. The function returns the first [limit] candidates of the
    sorted list: every element returned is a candidate, and every candidate
    is returned when there are at most [limit] of them. *)
Theorem candidates_match_two_keywords (db : index) (description : string)
    (max_price : spec_float) (limit : Z) (cs : list candidate) :
  List.NoDup (stored_codes db) ->
  similar_codes db description max_price = Ok cs ->
  find_similar_cheaper_codes db description max_price limit
  = Ok (upto limit (sort cs))
  /\ (forall k e d p,
        In (k, e) db ->
        ChargeIndex.description e = JStr d ->
        minimum_price (ChargeIndex.standard_charges e) = Ok p ->
        (flt p max_price = true ->
           (includes cs e <-> 2 <= count_matches (keywords description) (lower d))
           /\ (2 <= count_matches (keywords description) (lower d) ->
               In (candidate_of e (count_matches (keywords description) (lower d)) p) cs))
        /\ (flt p max_price = false -> ~ includes cs e))
  /\ (forall c, In c (upto limit (sort cs)) -> In c cs)
  /\ ((Z.of_nat (List.length cs) <= limit)%Z -> Permutation (upto limit (sort cs)) cs).
Proof.
  intros Hnd Hcs. split; [now apply find_similar_eq|].
  pose proof (similar_codes_In _ _ _ _ Hcs) as Hin.
  assert (Hsame : forall k e, In (k, e) db -> includes cs e ->
            exists c, In c cs /\ consider (keywords description) max_price e = Ok (Some c)).
  { intros k e He (c & Hc & Hcode). pose proof Hc as Hc0.
    apply Hin in Hc as (k' & e' & He' & Hcons).
    destruct (consider_Some _ _ _ _ Hcons) as (d' & p' & _ & _ & _ & _ & ->).
    cbn in Hcode.
    assert (E : (k', e') = (k, e)).
    { apply (NoDup_map_In (fun ke => ChargeIndex.code (snd ke)) db); auto. }
    injection E as -> ->. eauto. }
  split; [|split].
  - intros k e d p He Hd Hp.
    pose proof (consider_string (keywords description) max_price e d p Hd Hp) as Hc.
    split; intros Hlt; rewrite Hlt in Hc.
    + rewrite andb_true_r in Hc.
      assert (Hfwd : 2 <= count_matches (keywords description) (lower d) ->
                In (candidate_of e (count_matches (keywords description) (lower d)) p) cs).
      { intros Hm. apply Hin. exists k, e. split; [exact He|].
        rewrite Hc. now replace (Nat.leb 2 _) with true by (symmetry; apply Nat.leb_le; lia). }
      split; [split|exact Hfwd].
      * intros Hinc. destruct (Hsame k e He Hinc) as (c & _ & Hc').
        rewrite Hc in Hc'. destruct (Nat.leb_spec 2 (count_matches (keywords description) (lower d)));
          [assumption | discriminate].
      * intros Hm. eexists. split; [exact (Hfwd Hm) | reflexivity].
    + rewrite andb_false_r in Hc. intros Hinc.
      destruct (Hsame k e He Hinc) as (c & _ & Hc'). congruence.
  - intros c Hc. apply upto_In in Hc. now apply (Permutation_in _ (sort_perm cs)).
  - intros Hlen. destruct (upto_firstn limit (sort cs)) as (n & -> & Hn).
    rewrite firstn_all2; [apply sort_perm|].
    rewrite (Permutation_length (sort_perm cs)).
    assert (0 <= limit)%Z by lia. specialize (Hn H). lia.
Qed.

(** A token that comes twice in the query counts twice: one word of the
    description is enough for a match count of 2. *)
Example repeated_keyword_counts_twice :
  keywords "chest chest" = ["chest"; "chest"]
  /\ count_matches (keywords "chest chest") (lower "Chest wall exam") = 2
  /\ List.map code
       (match find_similar_cheaper_codes
                [Fixtures.priced "71100" "Chest wall exam" 70]
                "chest chest" Fixtures.hundred default_limit with
        | Ok r => r
        | Raise _ => []
        end) = [JStr "71100"].
Proof. repeat split; vm_compute; reflexivity. Qed.

(** Inclusion does not hold of the returned list: of six entries that match
    two keywords below the ceiling, the default limit returns five. *)
Lemma qualifying_entry_cut_by_limit :
  let e := snd (Fixtures.priced "71100" "Ribs xray chest wall" 70) in
  exists r p,
    In (KStr "71100", e) Fixtures.chest_index
    /\ minimum_price (ChargeIndex.standard_charges e) = Ok p
    /\ flt p Fixtures.hundred = true
    /\ 2 <= count_matches (keywords "Chest XRAY views") (lower "Ribs xray chest wall")
    /\ find_similar_cheaper_codes Fixtures.chest_index "Chest XRAY views"
         Fixtures.hundred default_limit = Ok r
    /\ ~ includes r e.
Proof.
  intros e. eexists. eexists.
  split; [vm_compute; tauto|].
  split; [vm_compute; reflexivity|].
  split; [vm_compute; reflexivity|].
  split; [vm_compute; lia|].
  split; [vm_compute; reflexivity|].
  intros (c & Hc & Hcode). cbn in Hc.
  repeat (destruct Hc as [<-|Hc]; [discriminate Hcode|]). exact Hc.
Qed.

Lemma candidates_match_two_keywords_witness :
  let db := Fixtures.chest_index in
  let cs := [Fixtures.hit "71045" "Chest xray 1 view" 8444249301319680 (-47) 2;
             Fixtures.hit "71046" "Chest xray 2 views" 5629499534213120 (-46) 3;
             Fixtures.hit "71100" "Ribs xray chest wall" 4925812092436480 (-46) 2;
             Fixtures.hit "71047" "Chest xray 3 views" 6333186975989760 (-46) 3;
             Fixtures.hit "71048" "Chest xray 4 views" 5629499534213120 (-46) 3;
             Fixtures.hit "71101" "Xray of chest, special views" 6966505673588736 (-46) 3] in
  (List.NoDup (stored_codes db)
   /\ similar_codes db "Chest XRAY views" Fixtures.hundred = Ok cs)
  /\ find_similar_cheaper_codes db "Chest XRAY views" Fixtures.hundred 10
     = Ok (upto 10 (sort cs))
  /\ (forall k e d p,
        In (k, e) db ->
        ChargeIndex.description e = JStr d ->
        minimum_price (ChargeIndex.standard_charges e) = Ok p ->
        (flt p Fixtures.hundred = true ->
           (includes cs e <-> 2 <= count_matches (keywords "Chest XRAY views") (lower d))
           /\ (2 <= count_matches (keywords "Chest XRAY views") (lower d) ->
               In (candidate_of e (count_matches (keywords "Chest XRAY views") (lower d)) p) cs))
        /\ (flt p Fixtures.hundred = false -> ~ includes cs e))
  /\ (forall c, In c (upto 10 (sort cs)) -> In c cs)
  /\ ((Z.of_nat (List.length cs) <= 10)%Z -> Permutation (upto 10 (sort cs)) cs).
Proof.
  intros db cs.
  assert (Hnd : List.NoDup (stored_codes db)).
  { vm_compute. repeat (constructor; [cbn; intuition discriminate|]). constructor. }
  assert (Hcs : similar_codes db "Chest XRAY views" Fixtures.hundred = Ok cs)
    by (vm_compute; reflexivity).
  split; [split; assumption|].
  exact (candidates_match_two_keywords db "Chest XRAY views" Fixtures.hundred 10 cs Hnd Hcs).
Defined.

End FinderFacts.

(** ** Entries without a string description *)

Section DescriptionFacts.
Import Py ChargeIndex CodeLookup AlternativeFinder Notions.

Lemma returns_not_raises {A} (r : result A) : returns r -> raises r -> False.
Proof. intros [a ->] [e [=]]. Qed.

Lemma bind_raises {A B} (r : result A) (k : A -> result B) :
  raises r -> raises (bind r k).
Proof. intros [e ->]. now exists e. Qed.

Lemma consider_raises (kws : list string) (max_price : spec_float) (e : db_entry) :
  (forall d, ChargeIndex.description e <> JStr d) -> raises (consider kws max_price e).
Proof.
  intros H. unfold consider. apply bind_raises.
  destruct (ChargeIndex.description e) as [| | | |d| |]; try (now eexists).
  now destruct (H d).
Qed.

(** The scan stops with an exception at the first entry it cannot handle,
    so it raises as soon as one entry has no string description. *)
Lemma scan_raises (kws : list string) (max_price : spec_float) (db : index)
    (k : pykey) (e : db_entry) :
  In (k, e) db -> (forall d, ChargeIndex.description e <> JStr d) ->
  raises (scan kws max_price db).
Proof.
  intros Hin Hd. induction db as [|[k' e'] db IH]; [destruct Hin|].
  cbn [scan]. destruct Hin as [[= -> ->]|Hin].
  - apply bind_raises. now apply consider_raises.
  - destruct (consider kws max_price e') as [o|x]; [|now eexists].
    cbn [bind]. apply bind_raises. now apply IH.
Qed.

Lemma find_similar_raises (db : index) (k : pykey) (e : db_entry)
    (description : string) (max_price : spec_float) (limit : Z) :
  In (k, e) db -> (forall d, ChargeIndex.description e <> JStr d) ->
  keywords description <> [] ->
  raises (find_similar_cheaper_codes db description max_price limit).
Proof.
  intros Hin Hd Hk. unfold find_similar_cheaper_codes. apply bind_raises.
  unfold similar_codes. destruct description as [|c s]; [now destruct Hk|].
  cbn [nonempty negb]. destruct (keywords (String c s)) eqn:E; [now destruct Hk|].
  now apply (scan_raises _ _ _ k e).
Qed.

(** C10. An entry whose stored description is [None] makes
    [lookup_hcpcs_code] raise on its code, whatever the filters, and makes
    [find_similar_cheaper_codes] raise on every query that has a keyword to
    scan the index with. The two can only both return on every input when
    every entry of the index has a string description. *)
Theorem description_none_raises (db : index) :
  (forall code entry setting billing_class,
     index_get db (KStr code) = Some entry ->
     ChargeIndex.description entry = JNull ->
     raises (lookup_hcpcs_code db code setting billing_class))
  /\ (forall k entry description max_price limit,
        In (k, entry) db ->
        ChargeIndex.description entry = JNull ->
        keywords description <> [] ->
        raises (find_similar_cheaper_codes db description max_price limit))
  /\ ((forall code setting billing_class,
         returns (lookup_hcpcs_code db code setting billing_class))
      /\ (forall description max_price limit,
            returns (find_similar_cheaper_codes db description max_price limit)) ->
      forall k entry, In (k, entry) db ->
                      exists d, ChargeIndex.description entry = JStr d).
Proof.
  split; [|split].
  - intros code entry setting billing_class Hget Hd.
    unfold lookup_hcpcs_code. rewrite Hget, Hd. now exists TypeError.
  - intros k entry description max_price limit Hin Hd Hk.
    apply (find_similar_raises db k entry); auto. intros d. congruence.
  - intros [_ Htotal] k entry Hin.
    destruct (ChargeIndex.description entry) as [| | | |d| |] eqn:Hd; [..|now exists d| |];
      exfalso;
      apply (returns_not_raises _ (Htotal "chest xray" fzero 5%Z));
      apply (find_similar_raises db k entry); auto; try discriminate;
      intros d; congruence.
Qed.

Lemma description_none_raises_witness :
  let entry := {| ChargeIndex.description := JNull; ChargeIndex.code := JStr "99213";
                  ChargeIndex.standard_charges := JArr [Fixtures.variant 10];
                  ChargeIndex.revenue_code := JNull |} in
  let db := [Fixtures.priced "71046" "Chest xray 2 views" 80; (KStr "99213", entry)] in
  raises (lookup_hcpcs_code db "99213" None None)
  /\ raises (find_similar_cheaper_codes db "chest xray" Fixtures.hundred default_limit)
  /\ find_similar_cheaper_codes db "" Fixtures.hundred default_limit = Ok [].
Proof.
  intros entry db.
  destruct (description_none_raises db) as (Hlookup & Hfind & _).
  split; [|split].
  - apply (Hlookup "99213" entry); reflexivity.
  - apply (Hfind (KStr "99213") entry); [cbn; tauto | reflexivity | discriminate].
  - reflexivity.
Defined.

End DescriptionFacts.

(** ** ChargeIndex: the loader *)

Section LoaderFacts.
Import Py ChargeIndex Notions.

Lemma index_get_snoc (db : index) (k k' : pykey) (e : db_entry) :
  index_get (db ++ [(k, e)]) k'
  = match index_get db k' with
    | Some x => Some x
    | None => if decide (k = k') then Some e else None
    end.
Proof.
  induction db as [|[k0 e0] db IH]; cbn [index_get List.app]; [reflexivity|].
  destruct (decide (k0 = k')); [reflexivity | exact IH].
Qed.

Lemma index_mem_true (db : index) (k : pykey) :
  index_mem db k = true <-> In k (keys db).
Proof.
  unfold index_mem. destruct (index_get db k) eqn:E.
  - split; [intros _ | reflexivity].
    destruct (in_dec pykey_eq_dec k (keys db)) as [H|H]; [exact H|].
    apply index_get_None in H. congruence.
  - apply index_get_None in E. split; [discriminate | tauto].
Qed.

Lemma index_mem_snoc (db : index) (k k' : pykey) (e : db_entry) :
  index_mem db k' = true -> index_mem (db ++ [(k, e)]) k' = true.
Proof.
  rewrite !index_mem_true. unfold keys. rewrite List.map_app, in_app_iff. auto.
Qed.

(** A loop that keeps [P] at each completed iteration and leaves [Q] when
    an iteration raises. *)
Lemma for_each_inv {A} (body : A -> M unit) (P : nat -> world -> Prop)
    (Q : world -> Prop) (xs : list A) :
  (forall (i : nat) x w, xs !! i = Some x -> P i w ->
     match body x w with
     | (Ok _, w') => P (S i) w'
     | (Raise _, w') => Q w'
     end) ->
  forall w, P 0 w ->
    match for_each xs body w with
    | (Ok _, w') => P (List.length xs) w'
    | (Raise _, w') => Q w'
    end.
Proof.
  revert P. induction xs as [|x xs IH]; intros P Hbody w HP; [exact HP|].
  cbn [for_each]. unfold bindM.
  pose proof (Hbody 0 x w eq_refl HP) as H0.
  destruct (body x w) as [[[]|e] w1]; [|exact H0].
  apply (IH (fun i => P (S i))); [|exact H0].
  intros i y w' Hy. apply (Hbody (S i) y w' Hy).
Qed.

Lemma hcpcs_code_fun (ci c c' : json) (k k' : pykey) :
  hcpcs_code ci c k -> hcpcs_code ci c' k' -> c = c' /\ k = k'.
Proof.
  intros (ty & _ & _ & Hc & _ & Hk) (ty' & _ & _ & Hc' & _ & Hk').
  assert (c = c') as -> by congruence. split; congruence.
Qed.

Lemma consistent_store (recs : list json) (n : nat) (r : json) (infos : list json)
    (m : nat) (ci : json) (db : index) (k : pykey) (e : db_entry) :
  recs !! n = Some r ->
  code_infos r = Ok infos ->
  infos !! m = Some ci ->
  hcpcs_code ci (code e) k ->
  get r "description" = Ok (description e) ->
  get_default r "standard_charges" (JArr []) = Ok (standard_charges e) ->
  first_rc infos = Ok (revenue_code e) ->
  index_mem db k = false ->
  consistent recs db -> indexed_before recs n db -> seen_before infos m db ->
  consistent recs (db ++ [(k, e)]).
Proof.
  intros Hr Hinfos Hci Hcode Hd Hsc Hrc Hmem (Hnd & Hfw & Hkeyed) Hbefore Hseen.
  assert (Hnotin : ~ In k (keys db)).
  { intros Hin. apply index_mem_true in Hin. congruence. }
  split; [|split].
  - unfold keys. rewrite List.map_app. cbn [List.map fst].
    apply List.NoDup_app; [exact Hnd | repeat constructor; intros [] |].
    intros x Hx [<-|[]]. auto.
  - intros k' e' Hget. rewrite index_get_snoc in Hget.
    destruct (index_get db k') as [x|] eqn:E.
    + injection Hget as ->. now apply Hfw.
    + destruct (decide (k = k')) as [<-|Hne]; [|discriminate].
      injection Hget as <-. exists n, r. split; [exact Hr|]. split.
      * exists infos, m, ci. repeat split; auto.
        intros j cj c Hj Hcj Hh. specialize (Hseen j cj c k Hj Hcj Hh). congruence.
      * intros j r' Hj Hr' Hcar. specialize (Hbefore j r' k Hj Hr' Hcar). congruence.
  - intros k' e' Hin. apply in_app_iff in Hin as [Hin|[[= <- <-]|[]]].
    + now apply Hkeyed.
    + now destruct Hcode as (ty & _ & _ & _ & _ & Hk).
Qed.

Lemma indexed_before_snoc (recs : list json) (n : nat) (db : index)
    (k : pykey) (e : db_entry) :
  indexed_before recs n db -> indexed_before recs n (db ++ [(k, e)]).
Proof. intros H j r k' Hj Hr Hc. apply index_mem_snoc. eauto. Qed.

Lemma seen_before_step (infos : list json) (m : nat) (ci : json) (db db' : index) :
  infos !! m = Some ci ->
  (forall k, index_mem db k = true -> index_mem db' k = true) ->
  (forall c k, hcpcs_code ci c k -> index_mem db' k = true) ->
  seen_before infos m db -> seen_before infos (S m) db'.
Proof.
  intros Hci Hmono Hnow Hseen j cj c k Hj Hcj Hh.
  destruct (Nat.eq_dec j m) as [->|Hne].
  - assert (cj = ci) as -> by congruence. eauto.
  - apply Hmono. apply (Hseen j cj c k); auto. lia.
Qed.

Lemma code_infos_eq (r codes : json) (infos : list json) :
  get_default r "code_information" (JArr []) = Ok codes -> iter codes = Ok infos ->
  code_infos r = Ok infos.
Proof. intros H1 H2. unfold code_infos. now rewrite H1. Qed.

(** One turn of the inner loop. *)
Lemma index_code_info_inv (recs : list json) (n : nat) (r codes : json)
    (infos : list json) (m : nat) (ci : json) (w : world) :
  recs !! n = Some r ->
  get_default r "code_information" (JArr []) = Ok codes ->
  iter codes = Ok infos ->
  infos !! m = Some ci ->
  consistent recs (HCPCS_DATABASE w) ->
  indexed_before recs n (HCPCS_DATABASE w) ->
  seen_before infos m (HCPCS_DATABASE w) ->
  match index_code_info r codes ci w with
  | (Ok _, w') =>
      consistent recs (HCPCS_DATABASE w')
      /\ indexed_before recs n (HCPCS_DATABASE w')
      /\ seen_before infos (S m) (HCPCS_DATABASE w')
  | (Raise _, w') => consistent recs (HCPCS_DATABASE w')
  end.
Proof.
  intros Hr Hcodes Hiter Hci Hcons Hbefore Hseen.
  pose proof (code_infos_eq _ _ _ Hcodes Hiter) as Hinfos.
  assert (Hsame : forall k, index_mem (HCPCS_DATABASE w) k = true ->
                            index_mem (HCPCS_DATABASE w) k = true) by auto.
  unfold index_code_info, bindM, lift, ret, read_db, store.
  destruct (get ci "type") as [ty|x] eqn:Hty; [|exact Hcons].
  destruct (eq_str ty "HCPCS") eqn:Hh.
  2:{ split; [exact Hcons|split; [exact Hbefore|]].
      apply (seen_before_step infos m ci _ _ Hci Hsame); [|exact Hseen].
      intros c k (ty' & Hty' & Hh' & _). congruence. }
  destruct (get ci "code") as [c|x] eqn:Hc; [|exact Hcons].
  destruct (truthy c) eqn:Ht.
  2:{ split; [exact Hcons|split; [exact Hbefore|]].
      apply (seen_before_step infos m ci _ _ Hci Hsame); [|exact Hseen].
      intros c' k (ty' & _ & _ & Hc' & Ht' & _). congruence. }
  destruct (hash_key c) as [k|x] eqn:Hk; [|exact Hcons].
  assert (Hcode : hcpcs_code ci c k) by (exists ty; auto).
  destruct (index_mem (HCPCS_DATABASE w) k) eqn:Hmem.
  { split; [exact Hcons|split; [exact Hbefore|]].
    apply (seen_before_step infos m ci _ _ Hci Hsame); [|exact Hseen].
    intros c' k' Hcode'. destruct (hcpcs_code_fun _ _ _ _ _ Hcode Hcode') as [_ <-].
    exact Hmem. }
  destruct (get r "description") as [d|x] eqn:Hd; [|exact Hcons].
  destruct (get_default r "standard_charges" (JArr [])) as [sc|x] eqn:Hsc; [|exact Hcons].
  rewrite Hiter.
  destruct (first_rc infos) as [rc|x] eqn:Hrc; [|exact Hcons].
  cbn [HCPCS_DATABASE].
  set (e := {| description := d; code := c; standard_charges := sc; revenue_code := rc |}).
  split; [|split].
  - apply (consistent_store recs n r infos m ci _ k e); auto.
  - now apply indexed_before_snoc.
  - apply (seen_before_step infos m ci (HCPCS_DATABASE w) _ Hci); [| |exact Hseen].
    + intros k'. apply index_mem_snoc.
    + intros c' k' Hcode'. destruct (hcpcs_code_fun _ _ _ _ _ Hcode Hcode') as [_ <-].
      apply index_mem_true. unfold keys. rewrite List.map_app, in_app_iff. right. now left.
Qed.

(** One turn of the outer loop. *)
Lemma index_record_inv (recs : list json) (n : nat) (r : json) (w : world) :
  recs !! n = Some r ->
  consistent recs (HCPCS_DATABASE w) ->
  indexed_before recs n (HCPCS_DATABASE w) ->
  match index_record r w with
  | (Ok _, w') =>
      consistent recs (HCPCS_DATABASE w') /\ indexed_before recs (S n) (HCPCS_DATABASE w')
  | (Raise _, w') => consistent recs (HCPCS_DATABASE w')
  end.
Proof.
  intros Hr Hcons Hbefore. unfold index_record, bindM, lift.
  destruct (get_default r "code_information" (JArr [])) as [codes|x] eqn:Hcodes;
    [|exact Hcons].
  destruct (iter codes) as [infos|x] eqn:Hiter; [|exact Hcons].
  pose proof (for_each_inv (index_code_info r codes)
    (fun m w' => consistent recs (HCPCS_DATABASE w')
                 /\ indexed_before recs n (HCPCS_DATABASE w')
                 /\ seen_before infos m (HCPCS_DATABASE w'))
    (fun w' => consistent recs (HCPCS_DATABASE w')) infos) as Hloop.
  cbv beta in Hloop.
  specialize (Hloop (fun m ci w' Hci '(conj Hg (conj Hb Hs)) =>
    index_code_info_inv recs n r codes infos m ci w' Hr Hcodes Hiter Hci Hg Hb Hs) w).
  destruct (for_each infos (index_code_info r codes) w) as [[[]|x] w'].
  - destruct Hloop as (Hg & Hb & Hs).
    { split; [exact Hcons|split; [exact Hbefore|]]. intros j cj c k Hj. lia. }
    split; [exact Hg|].
    intros j r' k Hj Hr' (infos' & ci & c & Hinfos' & Hin & Hcode).
    destruct (Nat.eq_dec j n) as [->|Hne].
    + assert (r' = r) as -> by congruence.
      rewrite (code_infos_eq _ _ _ Hcodes Hiter) in Hinfos'. injection Hinfos' as <-.
      apply list_elem_of_In, list_elem_of_lookup in Hin as [i Hi].
      apply (Hs i ci c k); auto. now apply lookup_lt_Some in Hi.
    + apply (Hb j r' k); auto; [lia|]. now exists infos', ci, c.
  - apply Hloop. split; [exact Hcons|split; [exact Hbefore|]]. intros j cj c k Hj. lia.
Qed.

Lemma consistent_empty (recs : list json) : consistent recs [].
Proof.
  split; [constructor|split]; [intros k e [=] | intros k e []].
Qed.

(** The scan of a document from an empty index. *)
Lemma index_document_inv (data : json) (w : world) :
  HCPCS_DATABASE w = [] ->
  match records data with
  | Ok recs =>
      match index_document data w with
      | (Ok _, w') =>
          consistent recs (HCPCS_DATABASE w')
          /\ indexed_before recs (List.length recs) (HCPCS_DATABASE w')
      | (Raise _, w') => consistent recs (HCPCS_DATABASE w')
      end
  | Raise x => index_document data w = (Raise x, w)
  end.
Proof.
  intros Hw. unfold records, index_document, bindM, lift.
  destruct (get_default data "standard_charge_information" (JArr [])) as [v|x];
    [|reflexivity].
  cbn [bind]. destruct (iter v) as [recs|x]; [|reflexivity].
  pose proof (for_each_inv index_record
    (fun n w' => consistent recs (HCPCS_DATABASE w')
                 /\ indexed_before recs n (HCPCS_DATABASE w'))
    (fun w' => consistent recs (HCPCS_DATABASE w')) recs) as Hloop.
  cbv beta in Hloop.
  specialize (Hloop (fun n r w' Hr '(conj Hg Hb) =>
    index_record_inv recs n r w' Hr Hg Hb) w).
  destruct (for_each recs index_record w) as [[[]|x] w']; apply Hloop;
    rewrite Hw; (split; [apply consistent_empty | intros j r k Hj; lia]).
Qed.

(** The scan writes nothing to the log. *)
Lemma index_document_log (data : json) (w : world) :
  log (snd (index_document data w)) = log w.
Proof.
  assert (Hinfo : forall r codes ci w0, log (snd (index_code_info r codes ci w0)) = log w0).
  { intros r codes ci w0. unfold index_code_info, bindM, lift, ret, read_db, store.
    repeat match goal with
    | |- context [match ?x with _ => _ end] => destruct x; try reflexivity
    end. }
  assert (Hloop : forall {A} (body : A -> M unit) xs,
            (forall x w0, log (snd (body x w0)) = log w0) ->
            forall w0, log (snd (for_each xs body w0)) = log w0).
  { intros A body xs Hbody. induction xs as [|x xs IH]; intros w0; [reflexivity|].
    cbn [for_each]. unfold bindM. specialize (Hbody x w0).
    destruct (body x w0) as [[[]|e] w1]; cbn [snd] in *; [|exact Hbody].
    now rewrite IH. }
  assert (Hrec : forall r w0, log (snd (index_record r w0)) = log w0).
  { intros r w0. unfold index_record, bindM, lift.
    destruct (get_default r _ _) as [codes|x]; [|reflexivity].
    destruct (iter codes) as [infos|x]; [|reflexivity].
    apply Hloop. intros ci w1. apply Hinfo. }
  unfold index_document, bindM, lift.
  destruct (get_default data _ _) as [v|x]; [|reflexivity].
  destruct (iter v) as [recs|x]; [|reflexivity].
  now apply Hloop.
Qed.

(** What [load_hcpcs_database] leaves at start-up, case by case. *)
Lemma loaded_document (data : json) :
  loaded (Document data)
  = let '(r, w1) := index_document data
                      {| HCPCS_DATABASE := []; log := [Info_loading; Info_parsing] |} in
    {| HCPCS_DATABASE := HCPCS_DATABASE w1;
       log := log w1 ++ [match r with
                         | Ok _ => Info_loaded (List.length (HCPCS_DATABASE w1))
                         | Raise e => Error_loading e
                         end] |}.
Proof.
  unfold loaded, load_hcpcs_database, path_exists, try_exceptM, bindM, logger,
    json_load, ret, read_db, startup. cbn [HCPCS_DATABASE log List.app snd fst negb].
  destruct (index_document data _) as [[[]|e] w1]; reflexivity.
Qed.

Lemma loaded_facts (data : json) :
  let w := loaded (Document data) in
  let db := HCPCS_DATABASE w in
  match records data with
  | Ok recs =>
      consistent recs db
      /\ ((indexed_before recs (List.length recs) db
           /\ log w = [Info_loading; Info_parsing; Info_loaded (List.length db)])
          \/ exists e, log w = [Info_loading; Info_parsing; Error_loading e])
  | Raise x => db = [] /\ log w = [Info_loading; Info_parsing; Error_loading x]
  end.
Proof.
  cbv zeta. rewrite loaded_document.
  set (w0 := {| HCPCS_DATABASE := []; log := [Info_loading; Info_parsing] |}).
  pose proof (index_document_inv data w0 eq_refl) as Hinv.
  pose proof (index_document_log data w0) as Hlog.
  destruct (records data) as [recs|x].
  - destruct (index_document data w0) as [[[]|e] w1]; cbn [snd] in Hlog;
      cbn [HCPCS_DATABASE log]; rewrite Hlog; cbn [log w0 List.app].
    + destruct Hinv as [Hg Hb]. split; [exact Hg|]. left. split; [exact Hb|reflexivity].
    + split; [exact Hinv|]. right. now exists e.
  - rewrite Hinv. cbn. auto.
Qed.

(** C4. The index built from any document has at most one entry for a code,
    and the entry of a code is built from the first record, in dataset order,
    that carries the code: its description, price variants and revenue code
    are those of that record. Records that carry the code again add nothing
    and log nothing; when the load completes, every code that a record
    carries is in the index. *)
Theorem first_occurrence_wins (data : json) :
  let w := loaded (Document data) in
  let db := HCPCS_DATABASE w in
  List.NoDup (keys db)
  /\ (forall k e e', In (k, e) db -> In (k, e') db -> e = e')
  /\ keyed db
  /\ (forall recs, records data = Ok recs -> first_wins recs db)
  /\ (forall recs, records data = Ok recs -> ~ failed w ->
        (forall r k, In r recs -> carries r k -> In k (keys db))
        /\ log w = [Info_loading; Info_parsing; Info_loaded (List.length db)]).
Proof.
  intros w db. pose proof (loaded_facts data) as H. cbv zeta in H.
  fold w in H. fold db in H.
  assert (Hcons : List.NoDup (keys db) /\ keyed db).
  { destruct (records data) as [recs|x].
    - destruct H as [(Hnd & _ & Hk) _]. auto.
    - destruct H as [-> _]. split; [constructor | intros k e []]. }
  destruct Hcons as [Hnd Hkeyed].
  split; [exact Hnd|]. split; [|split; [exact Hkeyed|split]].
  - intros k e e' He He'.
    assert (E : (k, e) = (k, e')) by (apply (NoDup_map_In fst db); auto).
    congruence.
  - intros recs Hrecs. rewrite Hrecs in H. now destruct H as [(_ & Hfw & _) _].
  - intros recs Hrecs Hok. rewrite Hrecs in H.
    destruct H as [_ [[Hb Hlog]|[e Hlog]]].
    + split; [|exact Hlog]. intros r k Hr Hcar.
      apply list_elem_of_In, list_elem_of_lookup in Hr as [i Hi].
      apply index_mem_true. apply (Hb i r k); auto. now apply lookup_lt_Some in Hi.
    + destruct Hok. exists e. rewrite Hlog. cbn. auto.
Qed.

Lemma first_occurrence_wins_witness :
  let data := Fixtures.document
                [Fixtures.record "71046" "Chest xray 2 views" 80;
                 Fixtures.record "99213" "Office visit" 10;
                 Fixtures.record "71046" "Chest xray, again" 95] in
  let w := loaded (Document data) in
  let db := HCPCS_DATABASE w in
  (exists e, index_get db (KStr "71046") = Some e
             /\ description e = JStr "Chest xray 2 views"
             /\ standard_charges e = JArr [Fixtures.variant 80])
  /\ List.NoDup (keys db)
  /\ (forall k e e', In (k, e) db -> In (k, e') db -> e = e')
  /\ keyed db
  /\ (forall recs, records data = Ok recs -> first_wins recs db)
  /\ (forall recs, records data = Ok recs -> ~ failed w ->
        (forall r k, In r recs -> carries r k -> In k (keys db))
        /\ log w = [Info_loading; Info_parsing; Info_loaded (List.length db)]).
Proof.
  intros data w db. split.
  - eexists. split; [vm_compute; reflexivity|]. split; reflexivity.
  - exact (first_occurrence_wins data).
Defined.

(** The index the loader builds stores distinct codes, as the properties of
    the finder ask. *)
Lemma keyed_stored_codes (db : index) :
  List.NoDup (keys db) -> keyed db -> List.NoDup (stored_codes db).
Proof.
  unfold keys, stored_codes, keyed.
  induction db as [|[k e] db IH]; intros Hnd Hk; [constructor|].
  cbn [List.map fst snd] in *. apply List.NoDup_cons_iff in Hnd as [Hk0 Hnd].
  constructor; [|apply IH; auto; intros k' e' H; apply Hk; now right].
  intros Hin. apply in_map_iff in Hin as ([k' e'] & Hc & Hin). cbn [snd] in Hc.
  assert (k' = k).
  { pose proof (Hk k' e' (or_intror Hin)) as H1.
    pose proof (Hk k e (or_introl eq_refl)) as H2. congruence. }
  subst k'. apply Hk0. apply in_map_iff. now exists (k, e').
Qed.

Lemma loaded_stored_codes (data : json) :
  List.NoDup (stored_codes (HCPCS_DATABASE (loaded (Document data)))).
Proof.
  pose proof (loaded_facts data) as H. cbv zeta in H.
  destruct (records data) as [recs|x].
  - destruct H as [(Hnd & _ & Hk) _]. now apply keyed_stored_codes.
  - destruct H as [-> _]. constructor.
Qed.

Lemma load_returns (src : source) (w : world) :
  src <> Inaccessible -> fst (load_hcpcs_database src w) = Ok tt.
Proof.
  intros Hsrc.
  unfold load_hcpcs_database, path_exists, try_exceptM, bindM, logger, json_load,
    ret, lift, read_db, is_Exception.
  destruct src as [|e|data|]; cbn [fst negb]; try reflexivity.
  - destruct (index_document data _) as [[[]|e] w1]; reflexivity.
  - now destruct Hsrc.
Qed.

(** Which records the scan gets past does not depend on the index. *)
Lemma first_rc_objects (cs : list json) :
  List.Forall is_object cs -> returns (first_rc cs).
Proof.
  induction 1 as [|c cs [kvs ->] _ IH]; [now exists JNull|].
  cbn [first_rc get get_default bind].
  destruct (eq_str _ "RC"); [eexists; reflexivity | exact IH].
Qed.

Lemma index_code_info_returns (r codes ci : json) (cs : list json) (w : world) :
  is_object r -> iter codes = Ok cs -> List.Forall is_object cs ->
  scannable_info ci -> fst (index_code_info r codes ci w) = Ok tt.
Proof.
  intros [rkvs ->] Hiter Hcs [[kvs ->] Hkey].
  unfold index_code_info, bindM, lift, ret, read_db, store.
  cbn [get get_default field] in *.
  destruct (eq_str _ "HCPCS"); [|reflexivity].
  destruct (truthy _); [|reflexivity].
  destruct (Hkey eq_refl eq_refl) as [k ->].
  destruct (index_mem _ k); [reflexivity|].
  rewrite Hiter. destruct (first_rc_objects cs Hcs) as [rc ->]. reflexivity.
Qed.

Lemma index_code_info_Ok (r codes ci : json) (w : world) :
  fst (index_code_info r codes ci w) = Ok tt -> scannable_info ci.
Proof.
  unfold index_code_info, bindM, lift, ret, read_db, store, scannable_info.
  destruct ci as [| | | | | |kvs]; cbn [get get_default fst]; try discriminate.
  intros H. split; [eexists; reflexivity|]. cbn [field]. intros Hty Ht.
  rewrite Hty, Ht in H.
  destruct (hash_key _) as [k|x]; [now exists k | discriminate H].
Qed.

Lemma for_each_returns {A} (body : A -> M unit) (xs : list A) :
  (forall x w, In x xs -> fst (body x w) = Ok tt) ->
  forall w, fst (for_each xs body w) = Ok tt.
Proof.
  induction xs as [|x xs IH]; intros Hbody w; [reflexivity|].
  cbn [for_each]. unfold bindM. pose proof (Hbody x w (or_introl eq_refl)) as Hx.
  destruct (body x w) as [[[]|e] w1]; cbn [fst] in Hx; [|discriminate].
  apply IH. intros y w' Hy. apply Hbody. now right.
Qed.

Lemma for_each_Ok {A} (body : A -> M unit) (xs : list A) (w : world) :
  fst (for_each xs body w) = Ok tt ->
  forall x, In x xs -> exists w0, fst (body x w0) = Ok tt.
Proof.
  revert w. induction xs as [|x xs IH]; intros w H y Hy; [destruct Hy|].
  cbn [for_each] in H. unfold bindM in H.
  destruct (body x w) as [[[]|e] w1] eqn:E; [|discriminate H].
  destruct Hy as [<-|Hy].
  - exists w. now rewrite E.
  - eapply IH; eauto.
Qed.

Lemma scannable_returns (r : json) (w : world) :
  scannable r <-> fst (index_record r w) = Ok tt.
Proof.
  unfold scannable, code_infos, index_record, bindM, lift. split.
  - intros (infos & Hinfos & Hall).
    destruct r as [| | | | | |kvs]; try discriminate Hinfos.
    cbn [get_default bind] in *. rewrite Hinfos.
    apply for_each_returns. intros ci w' Hci.
    apply (index_code_info_returns _ _ ci infos); auto.
    + eexists; reflexivity.
    + eapply List.Forall_impl; [|exact Hall]. now intros a [Ha _].
    + rewrite List.Forall_forall in Hall. auto.
  - destruct (get_default r "code_information" (JArr [])) as [codes|x];
      [|discriminate]. cbn [bind].
    destruct (iter codes) as [infos|x]; [|discriminate].
    intros H. exists infos. split; [reflexivity|].
    apply List.Forall_forall. intros ci Hci.
    destruct (for_each_Ok _ _ _ H ci Hci) as [w0 H0].
    now apply index_code_info_Ok in H0.
Qed.

(** The scan adds the codes of the record it is at, and no other, and
    removes none. *)
Lemma index_code_info_keys (r codes ci : json) (w : world) (k : pykey) :
  In k (keys (HCPCS_DATABASE (snd (index_code_info r codes ci w)))) ->
  In k (keys (HCPCS_DATABASE w)) \/ exists c, hcpcs_code ci c k.
Proof.
  unfold index_code_info, bindM, lift, ret, read_db, store.
  destruct (get ci "type") as [ty|x] eqn:Hty; [|auto].
  destruct (eq_str ty "HCPCS") eqn:Hh; [|auto].
  destruct (get ci "code") as [c|x] eqn:Hc; [|auto].
  destruct (truthy c) eqn:Ht; [|auto].
  destruct (hash_key c) as [k0|x] eqn:Hk; [|auto].
  destruct (index_mem (HCPCS_DATABASE w) k0); [auto|].
  destruct (get r "description") as [d|x]; [|auto].
  destruct (get_default r "standard_charges" (JArr [])) as [sc|x]; [|auto].
  destruct (iter codes) as [cs|x]; [|auto].
  destruct (first_rc cs) as [rc|x]; [|auto].
  cbn [snd HCPCS_DATABASE]. unfold keys. rewrite List.map_app, in_app_iff.
  intros [H|[<-|[]]]; [auto|]. right. exists c, ty. auto.
Qed.

Lemma index_code_info_keeps (r codes ci : json) (w : world) (k : pykey) :
  In k (keys (HCPCS_DATABASE w)) ->
  In k (keys (HCPCS_DATABASE (snd (index_code_info r codes ci w)))).
Proof.
  unfold index_code_info, bindM, lift, ret, read_db, store.
  repeat match goal with
  | |- context [match ?x with _ => _ end] => destruct x; try (intros H; exact H)
  end.
  cbn [snd HCPCS_DATABASE]. unfold keys. rewrite List.map_app, in_app_iff. auto.
Qed.

Lemma for_each_keys {A} (body : A -> M unit) (S : A -> pykey -> Prop) (xs : list A) :
  (forall x w k, In k (keys (HCPCS_DATABASE (snd (body x w)))) ->
     In k (keys (HCPCS_DATABASE w)) \/ S x k) ->
  forall w k, In k (keys (HCPCS_DATABASE (snd (for_each xs body w)))) ->
    In k (keys (HCPCS_DATABASE w)) \/ exists x, In x xs /\ S x k.
Proof.
  intros Hbody. induction xs as [|x xs IH]; intros w k; [now left|].
  cbn [for_each]. unfold bindM. specialize (Hbody x w k).
  destruct (body x w) as [[[]|e] w1]; cbn [snd] in *.
  - intros H. destruct (IH w1 k H) as [H1|(y & Hy & HS)].
    + destruct (Hbody H1) as [H0|HS]; [now left|]. right. exists x. split; [now left|exact HS].
    + right. exists y. split; [now right|exact HS].
  - intros H. destruct (Hbody H) as [H0|HS]; [now left|].
    right. exists x. split; [now left|exact HS].
Qed.

Lemma for_each_keeps {A} (body : A -> M unit) (xs : list A) :
  (forall x w k, In k (keys (HCPCS_DATABASE w)) ->
     In k (keys (HCPCS_DATABASE (snd (body x w))))) ->
  forall w k, In k (keys (HCPCS_DATABASE w)) ->
    In k (keys (HCPCS_DATABASE (snd (for_each xs body w)))).
Proof.
  intros Hbody. induction xs as [|x xs IH]; intros w k Hk; [exact Hk|].
  cbn [for_each]. unfold bindM. specialize (Hbody x w k Hk).
  destruct (body x w) as [[[]|e] w1]; cbn [snd] in *; auto.
Qed.

Lemma index_record_keys (r : json) (w : world) (k : pykey) :
  In k (keys (HCPCS_DATABASE (snd (index_record r w)))) ->
  In k (keys (HCPCS_DATABASE w)) \/ carries r k.
Proof.
  unfold index_record, bindM, lift.
  destruct (get_default r "code_information" (JArr [])) as [codes|x] eqn:Hcodes;
    [|auto].
  destruct (iter codes) as [infos|x] eqn:Hiter; [|auto].
  intros H.
  destruct (for_each_keys (index_code_info r codes)
              (fun ci k => exists c, hcpcs_code ci c k) infos
              (index_code_info_keys r codes) w k H) as [H0|(ci & Hci & c & Hc)];
    [now left|].
  right. exists infos, ci, c. split; [|auto]. now apply (code_infos_eq r codes).
Qed.

Lemma index_record_keeps (r : json) (w : world) (k : pykey) :
  In k (keys (HCPCS_DATABASE w)) ->
  In k (keys (HCPCS_DATABASE (snd (index_record r w)))).
Proof.
  unfold index_record, bindM, lift.
  destruct (get_default r "code_information" (JArr [])) as [codes|x]; [|auto].
  destruct (iter codes) as [infos|x]; [|auto].
  apply for_each_keeps. intros ci w'. apply index_code_info_keeps.
Qed.

(** A scan that raises was cut short at the first malformed record. *)
Lemma index_document_cut (data : json) (recs : list json) (w w' : world) (x : exn) :
  records data = Ok recs ->
  HCPCS_DATABASE w = [] ->
  index_document data w = (Raise x, w') ->
  exists n, cut_at recs n (HCPCS_DATABASE w').
Proof.
  unfold records, index_document, bindM, lift. intros Hrecs Hw.
  destruct (get_default data "standard_charge_information" (JArr [])) as [v|y];
    [|discriminate Hrecs].
  cbn [bind] in Hrecs. rewrite Hrecs.
  pose proof (for_each_inv index_record
    (fun n w0 => consistent recs (HCPCS_DATABASE w0)
                 /\ indexed_before recs n (HCPCS_DATABASE w0)
                 /\ carried_before recs n (HCPCS_DATABASE w0)
                 /\ forall (j : nat) r, j < n -> recs !! j = Some r -> scannable r)
    (fun w0 => exists n, cut_at recs n (HCPCS_DATABASE w0)) recs) as Hloop.
  cbv beta in Hloop.
  assert (Hstep : forall (n : nat) r w0, recs !! n = Some r ->
            consistent recs (HCPCS_DATABASE w0)
            /\ indexed_before recs n (HCPCS_DATABASE w0)
            /\ carried_before recs n (HCPCS_DATABASE w0)
            /\ (forall (j : nat) r', j < n -> recs !! j = Some r' -> scannable r') ->
            match index_record r w0 with
            | (Ok _, w1) =>
                consistent recs (HCPCS_DATABASE w1)
                /\ indexed_before recs (S n) (HCPCS_DATABASE w1)
                /\ carried_before recs (S n) (HCPCS_DATABASE w1)
                /\ forall (j : nat) r', j < S n -> recs !! j = Some r' -> scannable r'
            | (Raise _, w1) => exists n, cut_at recs n (HCPCS_DATABASE w1)
            end).
  { intros n r w0 Hr (Hcons & Hbefore & Hcar & Hscan).
    pose proof (index_record_inv recs n r w0 Hr Hcons Hbefore) as Hinv.
    pose proof (scannable_returns r w0) as Hret.
    pose proof (index_record_keys r w0) as Hkeys.
    pose proof (index_record_keeps r w0) as Hkeeps.
    assert (Hcar' : carried_before recs (S n)
                      (HCPCS_DATABASE (snd (index_record r w0)))).
    { intros k Hk. destruct (Hkeys k Hk) as [H0|Hc].
      - destruct (Hcar k H0) as (j & r' & Hj & Hr' & Hc). exists j, r'. auto.
      - exists n, r. auto. }
    destruct (index_record r w0) as [[[]|e] w1]; cbn [fst snd] in *.
    - destruct Hinv as [Hcons' Hbefore'].
      split; [exact Hcons'|]. split; [exact Hbefore'|]. split; [exact Hcar'|].
      intros j r' Hj Hr'. destruct (Nat.eq_dec j n) as [->|Hne].
      + assert (r' = r) as -> by congruence. now apply Hret.
      + apply (Hscan j r'); [lia | exact Hr'].
    - exists n. split; [|split; [exact Hscan|split; [|exact Hcar']]].
      + exists r. split; [exact Hr|]. intros Hs. apply Hret in Hs. discriminate Hs.
      + intros j r' k Hj Hr' Hc. apply index_mem_true, Hkeeps, index_mem_true.
        now apply (Hbefore j r' k). }
  specialize (Hloop Hstep w). intros H. rewrite H in Hloop. apply Hloop.
  rewrite Hw. split; [apply consistent_empty|]. split; [intros j r k Hj; lia|].
  split; [intros k []|]. intros j r Hj. lia.
Qed.

(** C5, as the code has it. [load_hcpcs_database] lets an exception out in
    one case only: when the test for the file, which is made before the
    [try], itself raises; nothing is logged after the first message then and
    the index is not touched. In every other case it returns. When the
    document is absent, cannot be read or parsed, or its records cannot be
    iterated, the failure is logged and the index stays empty. When a parsed
    document raises during the scan of its records, the failure is logged and
    the load is not undone: the scan was cut short at the first malformed
    record, the codes of all records before it are in the index, each code
    with the entry built from the first record that carries it, and no code
    is indexed that only later records carry. A record is malformed exactly
    when scanning it raises, whatever the index holds then. On an index left
    empty every lookup returns the not-found result. *)
Theorem load_failure_logged :
  (forall src w, src <> Inaccessible -> fst (load_hcpcs_database src w) = Ok tt)
  /\ (forall w, load_hcpcs_database Inaccessible w
        = (Raise OSError, {| HCPCS_DATABASE := HCPCS_DATABASE w;
                             log := log w ++ [Info_loading] |}))
  /\ loaded Absent
     = {| HCPCS_DATABASE := []; log := [Info_loading; Warning_not_found] |}
  /\ (forall e, loaded (Unreadable e)
        = {| HCPCS_DATABASE := []; log := [Info_loading; Error_loading e] |})
  /\ (forall data x, records data = Raise x ->
        loaded (Document data)
        = {| HCPCS_DATABASE := [];
             log := [Info_loading; Info_parsing; Error_loading x] |})
  /\ (forall data recs, records data = Ok recs ->
        failed (loaded (Document data)) ->
        consistent recs (HCPCS_DATABASE (loaded (Document data)))
        /\ (exists n, cut_at recs n (HCPCS_DATABASE (loaded (Document data))))
        /\ exists e, log (loaded (Document data))
                     = [Info_loading; Info_parsing; Error_loading e])
  /\ (forall r w, scannable r <-> fst (index_record r w) = Ok tt)
  /\ (forall src, HCPCS_DATABASE (loaded src) = [] ->
        forall code setting billing_class,
          CodeLookup.lookup_hcpcs_code (HCPCS_DATABASE (loaded src)) code
            setting billing_class
          = Ok (CodeLookup.NotFound code CodeLookup.not_found_message)).
Proof.
  split; [exact load_returns|]. split; [reflexivity|].
  split; [reflexivity|]. split; [reflexivity|].
  split; [|split; [|split; [exact scannable_returns|]]].
  - intros data x Hx. pose proof (loaded_facts data) as H. cbv zeta in H.
    rewrite Hx in H. destruct H as [Hdb Hlog].
    destruct (loaded (Document data)) as [db l]. cbn in *. congruence.
  - intros data recs Hrecs Hfailed. pose proof (loaded_facts data) as H. cbv zeta in H.
    rewrite Hrecs in H. destruct H as [Hg [[_ Hlog]|[e Hlog]]].
    + destruct Hfailed as (e & He). rewrite Hlog in He.
      destruct He as [He|[He|[He|[]]]]; discriminate He.
    + split; [exact Hg|]. split; [|now exists e].
      rewrite loaded_document in Hlog |- *.
      pose proof (index_document_log data
        {| HCPCS_DATABASE := []; log := [Info_loading; Info_parsing] |}) as Hsame.
      destruct (index_document data _) as [[[]|x] w1] eqn:E; cbn [HCPCS_DATABASE log snd] in *.
      * rewrite Hsame in Hlog. discriminate Hlog.
      * apply (index_document_cut data recs
                 {| HCPCS_DATABASE := []; log := [Info_loading; Info_parsing] |}
                 w1 x Hrecs); [reflexivity | exact E].
  - intros src Hdb code setting billing_class. rewrite Hdb. reflexivity.
Qed.

(** A failed load is not atomic: a document whose second record is not an
    object makes the load fail, and the failure is logged, after the first
    record has been indexed. *)
Lemma failed_load_keeps_entries :
  let data := Fixtures.document [Fixtures.record "99213" "Office visit" 10; JInt 5] in
  fst (load_hcpcs_database (Document data) startup) = Ok tt
  /\ log (loaded (Document data))
     = [Info_loading; Info_parsing; Error_loading AttributeError]
  /\ keys (HCPCS_DATABASE (loaded (Document data))) = [KStr "99213"]
  /\ HCPCS_DATABASE (loaded (Document data)) <> [].
Proof.
  intros data. repeat split; try (vm_compute; reflexivity).
  vm_compute. discriminate.
Qed.

Lemma load_failure_logged_witness :
  let recs := [Fixtures.record "99213" "Office visit" 10;
               Fixtures.record "71046" "Chest xray 2 views" 80;
               JInt 5;
               Fixtures.record "71250" "Chest xray views with contrast" 400] in
  let db := HCPCS_DATABASE (loaded (Document (Fixtures.document recs))) in
  consistent recs db
  /\ (exists n, cut_at recs n db)
  /\ (exists e, log (loaded (Document (Fixtures.document recs)))
                = [Info_loading; Info_parsing; Error_loading e])
  /\ keys db = [KStr "99213"; KStr "71046"].
Proof.
  intros recs db.
  destruct (proj1 (proj2 (proj2 (proj2 (proj2 (proj2 load_failure_logged)))))
              (Fixtures.document recs) recs) as (Hcons & Hcut & Hlog).
  - reflexivity.
  - exists AttributeError. vm_compute. tauto.
  - split; [exact Hcons|]. split; [exact Hcut|]. split; [exact Hlog|].
    vm_compute. reflexivity.
Defined.

End LoaderFacts.

(** * Further properties *)

(** ** DuplicateDetector: no duplicates *)

Section DuplicateFreeFacts.
Import DuplicateDetector.

(** X1. [detect_duplicates] returns the empty mapping exactly when no code
    occurs twice among the line items, which is what the test of line 471
    reports as "no duplicates found". *)
Theorem detect_duplicates_empty_iff (codes : list HCPCSCode.t) :
  detect_duplicates codes = ∅ <-> List.NoDup (List.map HCPCSCode.code codes).
Proof.
  rewrite (NoDup_count_occ string_dec). split.
  - intros H c.
    destruct (le_lt_dec (count_occ string_dec (List.map HCPCSCode.code codes) c) 1)
      as [Hle|Hgt]; [exact Hle|].
    assert (Hl : detect_duplicates codes !! c
                 = Some (count_occ string_dec (List.map HCPCSCode.code codes) c)).
    { apply detect_duplicates_lookup. split; [reflexivity | exact Hgt]. }
    rewrite H, lookup_empty in Hl. discriminate.
  - intros H. apply map_eq. intros c. rewrite lookup_empty.
    destruct (detect_duplicates codes !! c) as [n|] eqn:E; [|reflexivity].
    apply detect_duplicates_lookup in E as [-> Hn]. specialize (H c). lia.
Qed.

End DuplicateFreeFacts.

(** ** ChargeIndex: a load only adds *)

Section LoadGrowsFacts.
Import Py ChargeIndex Notions MoreNotions.

Lemma grows_refl (db : index) : grows db db.
Proof. split; [exists []; now rewrite app_nil_r | auto]. Qed.

Lemma grows_trans (db1 db2 db3 : index) :
  grows db1 db2 -> grows db2 db3 -> grows db1 db3.
Proof.
  intros [[a1 ->] H1] [[a2 ->] H2]. split; [|auto].
  exists (a1 ++ a2). now rewrite app_assoc.
Qed.

Lemma grows_store (db : index) (k : pykey) (e : db_entry) :
  index_mem db k = false -> grows db (db ++ [(k, e)]).
Proof.
  intros Hmem. split; [now exists [(k, e)]|].
  intros Hnd. unfold keys. rewrite List.map_app. cbn [List.map fst].
  apply List.NoDup_app; [exact Hnd | repeat constructor; intros [] |].
  intros x Hx [<-|[]]. apply index_mem_true in Hx. congruence.
Qed.

Lemma index_code_info_grows (r codes ci : json) (w : world) :
  grows (HCPCS_DATABASE w) (HCPCS_DATABASE (snd (index_code_info r codes ci w))).
Proof.
  unfold index_code_info, bindM, lift, ret, read_db, store.
  destruct (get ci "type") as [ty|x]; [|apply grows_refl].
  destruct (eq_str ty "HCPCS"); [|apply grows_refl].
  destruct (get ci "code") as [c|x]; [|apply grows_refl].
  destruct (truthy c); [|apply grows_refl].
  destruct (hash_key c) as [k|x]; [|apply grows_refl].
  destruct (index_mem (HCPCS_DATABASE w) k) eqn:Hmem; [apply grows_refl|].
  destruct (get r "description") as [d|x]; [|apply grows_refl].
  destruct (get_default r "standard_charges" (JArr [])) as [sc|x]; [|apply grows_refl].
  destruct (iter codes) as [cs|x]; [|apply grows_refl].
  destruct (first_rc cs) as [rc|x]; [|apply grows_refl].
  cbn [snd HCPCS_DATABASE]. now apply grows_store.
Qed.

Lemma for_each_grows {A} (body : A -> M unit) (xs : list A) :
  (forall x w, grows (HCPCS_DATABASE w) (HCPCS_DATABASE (snd (body x w)))) ->
  forall w, grows (HCPCS_DATABASE w) (HCPCS_DATABASE (snd (for_each xs body w))).
Proof.
  intros Hbody. induction xs as [|x xs IH]; intros w; [apply grows_refl|].
  cbn [for_each]. unfold bindM. specialize (Hbody x w).
  destruct (body x w) as [[[]|e] w1]; cbn [snd] in *; [|exact Hbody].
  eapply grows_trans; [exact Hbody | apply IH].
Qed.

Lemma index_document_grows (data : json) (w : world) :
  grows (HCPCS_DATABASE w) (HCPCS_DATABASE (snd (index_document data w))).
Proof.
  unfold index_document, bindM, lift.
  destruct (get_default data _ _) as [v|x]; [|apply grows_refl].
  destruct (iter v) as [recs|x]; [|apply grows_refl].
  apply for_each_grows. intros r w0. unfold index_record, bindM, lift.
  destruct (get_default r _ _) as [codes|x]; [|apply grows_refl].
  destruct (iter codes) as [infos|x]; [|apply grows_refl].
  apply for_each_grows. intros ci w1. apply index_code_info_grows.
Qed.

Lemma load_grows (src : source) (w : world) :
  grows (HCPCS_DATABASE w) (HCPCS_DATABASE (snd (load_hcpcs_database src w))).
Proof.
  unfold load_hcpcs_database, path_exists, try_exceptM, bindM, logger, json_load,
    ret, lift, read_db, is_Exception.
  destruct src as [|e|data|]; cbn [snd HCPCS_DATABASE negb]; try apply grows_refl.
  pose proof (index_document_grows data
    {| HCPCS_DATABASE := HCPCS_DATABASE w;
       log := (log w ++ [Info_loading]) ++ [Info_parsing] |}) as H.
  cbn [HCPCS_DATABASE] in H.
  destruct (index_document data _) as [[[]|e] w1]; exact H.
Qed.

Lemma index_get_app_l (db added : index) (k : pykey) (e : db_entry) :
  index_get db k = Some e -> index_get (db ++ added) k = Some e.
Proof.
  induction db as [|[k' e'] db IH]; cbn [index_get List.app]; [discriminate|].
  destruct (decide (k' = k)); auto.
Qed.

(** X2. Whatever the index holds when [load_hcpcs_database] is called, and
    whatever the source is, the load only appends entries: the entries that
    were there stay, in their order, a lookup of a code that was indexed finds
    the entry it found before, and the keys stay distinct. *)
Theorem load_only_appends (src : source) (w : world) :
  let db := HCPCS_DATABASE w in
  let db' := HCPCS_DATABASE (snd (load_hcpcs_database src w)) in
  (exists added, db' = db ++ added)
  /\ (forall k e, index_get db k = Some e -> index_get db' k = Some e)
  /\ (forall code setting billing_class r,
        CodeLookup.lookup_hcpcs_code db code setting billing_class
        = Ok r -> CodeLookup.found r = true ->
        CodeLookup.lookup_hcpcs_code db' code setting billing_class = Ok r)
  /\ (List.NoDup (keys db) -> List.NoDup (keys db')).
Proof.
  cbv zeta. destruct (load_grows src w) as [[added Hadd] Hnd].
  split; [now exists added|]. rewrite Hadd. split; [|split].
  - intros k e. apply index_get_app_l.
  - intros code setting billing_class r Hr Hfound.
    unfold CodeLookup.lookup_hcpcs_code in *.
    destruct (index_get (HCPCS_DATABASE w) (KStr code)) as [e|] eqn:E.
    + now rewrite (index_get_app_l _ added _ _ E).
    + injection Hr as <-. discriminate.
  - rewrite <- Hadd. exact Hnd.
Qed.

End LoadGrowsFacts.

(** ** ChargeIndex and CodeLookup: what is loaded is found *)

Section RoundTripFacts.
Import Py ChargeIndex CodeLookup Notions MoreNotions.

Lemma lookup_unfiltered (db : index) (code : string) (entry : db_entry)
    (d : string) (cs : list json) :
  index_get db (KStr code) = Some entry ->
  description entry = JStr d ->
  standard_charges entry = JArr cs ->
  List.Forall is_object cs ->
  lookup_hcpcs_code db code None None
  = Ok (Found code (JStr d) (revenue_code entry)
          (List.map variant_info (firstn 5 cs)) (List.length cs)).
Proof.
  intros Hget Hd Hcs Hobj. unfold lookup_hcpcs_code.
  rewrite Hget, Hd, Hcs. cbn [slice_to bind given orb iter].
  assert (Hfirst : List.Forall is_object (firstn 5 cs)).
  { rewrite List.Forall_forall in *. intros c Hc. apply Hobj. eapply firstn_In; eauto. }
  rewrite (mapM_project _ Hfirst). reflexivity.
Qed.

Lemma built_from_carries (r : json) (k : pykey) (e : db_entry) :
  built_from r k e -> carries r k.
Proof.
  intros (infos & i & ci & Hinfos & Hci & Hcode & _).
  exists infos, ci, (code e). repeat split; auto.
  apply list_elem_of_In. eapply list_elem_of_lookup_2; eauto.
Qed.

Lemma first_rc_spec (infos : list json) (rc : json) :
  first_rc infos = Ok rc -> first_revenue_code infos rc.
Proof.
  revert rc. induction infos as [|ci infos IH]; intros rc H.
  - injection H as <-. right. split; [reflexivity | intros ci []].
  - cbn [first_rc] in H. destruct ci as [| | | | | |kvs]; try discriminate H.
    cbn [get get_default bind] in H.
    destruct (eq_str (match assoc "type" kvs with Some x => x | None => JNull end) "RC")
      eqn:Hty.
    + injection H as <-. left. exists 0, (JObj kvs).
      split; [reflexivity|]. split; [exact Hty|]. split; [reflexivity|].
      intros j cj Hj. lia.
    + destruct (IH rc H) as [(i & c & Hc & Hrc & Hcode & Hfirst)|[-> Hnone]].
      * left. exists (S i), c. split; [exact Hc|]. split; [exact Hrc|].
        split; [exact Hcode|]. intros [|j] cj Hj Hcj.
        -- injection Hcj as <-. exact Hty.
        -- apply (Hfirst j cj); [lia | exact Hcj].
      * right. split; [reflexivity|]. intros c [<-|Hc]; [exact Hty | now apply Hnone].
Qed.

(** X3. After a load that completes, looking up a code without filters
    returns what the first record carrying the code holds: its description,
    the first five of its price variants, their number, and as revenue code
    the code of the first of its code informations that has type RC, or
    [None] when it has none of that type. *)
Theorem load_then_lookup (data : json) (recs : list json) (i : nat) (r : json)
    (c d : string) (cs : list json) :
  records data = Ok recs ->
  ~ failed (loaded (Document data)) ->
  recs !! i = Some r ->
  carries r (KStr c) ->
  (forall (j : nat) r', j < i -> recs !! j = Some r' -> ~ carries r' (KStr c)) ->
  get r "description" = Ok (JStr d) ->
  get_default r "standard_charges" (JArr []) = Ok (JArr cs) ->
  List.Forall is_object cs ->
  exists infos rc,
    code_infos r = Ok infos
    /\ first_rc infos = Ok rc
    /\ first_revenue_code infos rc
    /\ lookup_hcpcs_code (HCPCS_DATABASE (loaded (Document data))) c None None
       = Ok (Found c (JStr d) rc (List.map variant_info (firstn 5 cs))
               (List.length cs)).
Proof.
  intros Hrecs Hok Hr Hcar Hfirst Hd Hcs Hobj.
  pose proof (loaded_facts data) as H. cbv zeta in H. rewrite Hrecs in H.
  destruct H as [(_ & Hfw & _) [[Hb _]|[x Hlog]]].
  2:{ destruct Hok. exists x. rewrite Hlog. cbn. auto. }
  assert (Hmem : index_mem (HCPCS_DATABASE (loaded (Document data))) (KStr c) = true).
  { apply (Hb i r); auto. now apply lookup_lt_Some in Hr. }
  unfold index_mem in Hmem.
  destruct (index_get (HCPCS_DATABASE (loaded (Document data))) (KStr c))
    as [e|] eqn:Hget; [|discriminate].
  destruct (Hfw _ _ Hget) as (i' & r' & Hr' & Hbuilt & Hmin).
  assert (i' = i).
  { destruct (Nat.lt_trichotomy i' i) as [Hlt|[Heq|Hgt]]; [|exact Heq|].
    - destruct (Hfirst i' r' Hlt Hr'). now apply (built_from_carries _ _ e).
    - now destruct (Hmin i r Hgt Hr). }
  subst i'. assert (r' = r) as -> by congruence.
  destruct Hbuilt as (infos & m & ci & Hinfos & _ & _ & _ & Hd' & Hcs' & Hrc).
  exists infos, (revenue_code e). split; [exact Hinfos|]. split; [exact Hrc|].
  split; [now apply first_rc_spec|].
  apply lookup_unfiltered; auto; congruence.
Qed.

Lemma load_then_lookup_witness :
  let data := Fixtures.document
                [Fixtures.record "99213" "Office visit" 10;
                 Scenario.imaging "71046" "Chest xray 2 views" 80;
                 Fixtures.record "71046" "Chest xray, again" 95] in
  lookup_hcpcs_code (HCPCS_DATABASE (loaded (Document data))) "71046" None None
  = Ok (Found "71046" (JStr "Chest xray 2 views") (JStr "0320")
          (List.map variant_info (firstn 5 [Fixtures.variant 80])) 1).
Proof.
  intros data.
  destruct (load_then_lookup data
              [Fixtures.record "99213" "Office visit" 10;
               Scenario.imaging "71046" "Chest xray 2 views" 80;
               Fixtures.record "71046" "Chest xray, again" 95]
              1 (Scenario.imaging "71046" "Chest xray 2 views" 80)
              "71046" "Chest xray 2 views" [Fixtures.variant 80])
    as (infos & rc & Hinfos & Hrc & Hspec & Hlookup).
  - reflexivity.
  - intros (e & He). vm_compute in He. destruct He as [He|[He|[He|[]]]]; discriminate He.
  - reflexivity.
  - eexists _, (JObj [("code", JStr "71046"); ("type", JStr "HCPCS")]), (JStr "71046").
    split; [reflexivity|]. split; [cbn; tauto|].
    exists (JStr "HCPCS"). repeat split.
  - intros j r' Hj Hr' (infos & ci & c0 & Hinfos & Hin & Hcode).
    assert (j = 0) as -> by lia. cbn in Hr'. injection Hr' as <-.
    vm_compute in Hinfos. injection Hinfos as <-.
    destruct Hcode as (ty & Hty & Hh & Hc & _ & Hk).
    destruct Hin as [<-|[<-|[]]]; vm_compute in Hty, Hc;
      injection Hty as <-; injection Hc as <-; vm_compute in Hh, Hk; congruence.
  - reflexivity.
  - reflexivity.
  - repeat constructor; eexists; reflexivity.
  - injection Hinfos as <-.
    destruct Hspec as [(j & ci & Hci & Hty & -> & Hfirst)|[-> Hnone]].
    + destruct j as [|[|[|j]]]; try discriminate Hci; injection Hci as <-.
      * discriminate Hty.
      * exact Hlookup.
      * discriminate (Hfirst 1 _ ltac:(lia) eq_refl).
    + discriminate (Hnone _ (or_intror (or_introl eq_refl))).
Defined.

End RoundTripFacts.

(** ** AlternativeFinder: what is returned *)

Section ReturnedFacts.
Import Py ChargeIndex AlternativeFinder Notions.

Lemma count_matches_le (kws : list string) (d : string) :
  count_matches kws d <= List.length kws.
Proof.
  unfold count_matches. induction kws as [|k kws IH]; cbn [List.filter List.length];
    [lia|]. destruct (contains d k); cbn [List.length]; lia.
Qed.

Lemma min_default_In (xs : list spec_float) (d : spec_float) :
  xs <> [] -> In (min_default xs d) xs.
Proof.
  destruct xs as [|x xs]; [congruence|]. intros _. cbn [min_default].
  assert (H : forall m, In (fold_left (fun m y => if flt y m then y else m) xs m)
                           (m :: xs)).
  { induction xs as [|y xs IH]; intros m; cbn [fold_left]; [now left|].
    destruct (IH (if flt y m then y else m)) as [<-|Hin].
    - destruct (flt y m); cbn; auto.
    - right. now right. }
  apply H.
Qed.

Lemma gross_charges_In (cs : list json) (ps : list spec_float) (p : spec_float) :
  gross_charges cs = Ok ps -> In p ps ->
  exists c g, In c cs /\ get c "gross_charge" = Ok g /\ truthy g = true
              /\ float_of g = Ok p.
Proof.
  revert ps. induction cs as [|c cs IH]; intros ps H Hin; cbn [gross_charges] in H.
  - injection H as <-. destruct Hin.
  - apply bind_Ok in H as (g & Hg & H). destruct (truthy g) eqn:Ht.
    + apply bind_Ok in H as (q & Hq & H). apply bind_Ok in H as (qs & Hqs & H).
      injection H as <-. destruct Hin as [<-|Hin].
      * exists c, g. cbn. auto.
      * destruct (IH qs Hqs Hin) as (c' & g' & Hc' & H'). exists c', g'. cbn. auto.
    + destruct (IH ps H Hin) as (c' & g' & Hc' & H'). exists c', g'. cbn. auto.
Qed.

(** X4. Over an index whose entries are stored under their own code, as the
    loader stores them, every alternative [find_similar_cheaper_codes]
    returns is taken from an entry of the index that has a string
    description: its code is the key of that entry, its description and
    revenue code are the entry's, its match count lies between 2 and the
    number of keywords of the query, and its price is the gross charge of one
    of the entry's variants, strictly below the ceiling. *)
Theorem returned_alternatives_sound (db : index) (description : string)
    (max_price : spec_float) (limit : Z) (r : list candidate) (c : candidate) :
  keyed db ->
  find_similar_cheaper_codes db description max_price limit = Ok r ->
  In c r ->
  2 <= match_score c <= List.length (keywords description)
  /\ flt (min_price c) max_price = true
  /\ exists k e d variants v g,
       In (k, e) db
       /\ hash_key (AlternativeFinder.code c) = Ok k
       /\ ChargeIndex.description e = JStr d
       /\ c = candidate_of e (count_matches (keywords description) (lower d))
                (min_price c)
       /\ iter (ChargeIndex.standard_charges e) = Ok variants
       /\ In v variants
       /\ get v "gross_charge" = Ok g
       /\ float_of g = Ok (min_price c).
Proof.
  intros Hkeyed H Hc. unfold find_similar_cheaper_codes in H.
  apply bind_Ok in H as (cs & Hcs & H). injection H as <-.
  apply upto_In in Hc. apply (Permutation_in _ (sort_perm cs)) in Hc.
  apply (similar_codes_In _ _ _ _ Hcs) in Hc as (k & e & He & Hcons).
  destruct (consider_Some _ _ _ _ Hcons) as (d & p & Hd & Hm & Hp & Hlt & ->).
  cbn [candidate_of match_score min_price AlternativeFinder.code].
  split; [split; [exact Hm | apply count_matches_le]|]. split; [exact Hlt|].
  unfold minimum_price in Hp. apply bind_Ok in Hp as (variants & Hv & Hp).
  apply bind_Ok in Hp as (ps & Hps & Hp). injection Hp as <-.
  assert (Hne : ps <> []).
  { intros ->. cbn in Hlt. now rewrite flt_inf_l in Hlt. }
  destruct (gross_charges_In _ _ _ Hps (min_default_In ps finf Hne))
    as (v & g & Hin & Hg & _ & Hf).
  exists k, e, d, variants, v, g. pose proof (Hkeyed k e He). auto 10.
Qed.

Lemma returned_alternatives_sound_witness :
  let c := Fixtures.hit "71045" "Chest xray 1 view" 8444249301319680 (-47) 2 in
  2 <= match_score c <= List.length (keywords "Chest XRAY views")
  /\ flt (min_price c) Fixtures.hundred = true
  /\ exists k e d variants v g,
       In (k, e) Fixtures.chest_index
       /\ hash_key (AlternativeFinder.code c) = Ok k
       /\ ChargeIndex.description e = JStr d
       /\ c = candidate_of e (count_matches (keywords "Chest XRAY views") (lower d))
                (min_price c)
       /\ iter (ChargeIndex.standard_charges e) = Ok variants
       /\ In v variants
       /\ get v "gross_charge" = Ok g
       /\ float_of g = Ok (min_price c).
Proof.
  intros c.
  eapply (returned_alternatives_sound Fixtures.chest_index "Chest XRAY views"
            Fixtures.hundred default_limit _ c).
  - intros k e Hin. cbn in Hin.
    repeat (destruct Hin as [[= <- <-]|Hin]; [reflexivity|]). destruct Hin.
  - vm_compute. reflexivity.
  - cbn. tauto.
Defined.

End ReturnedFacts.

(** ** AlternativeFinder: entries without a price, and the ceiling *)

Section CeilingFacts.
Import Py ChargeIndex AlternativeFinder Notions MoreNotions.

(** Over an index of distinct codes, a candidate that carries the code of an
    entry was yielded by that entry. *)
Lemma includes_consider (db : index) (description : string) (max_price : spec_float)
    (cs : list candidate) (k : pykey) (e : db_entry) :
  List.NoDup (stored_codes db) ->
  similar_codes db description max_price = Ok cs ->
  In (k, e) db -> includes cs e ->
  exists c, In c cs /\ consider (keywords description) max_price e = Ok (Some c).
Proof.
  intros Hnd Hcs He (c & Hc & Hcode). pose proof Hc as Hc0.
  apply (similar_codes_In _ _ _ _ Hcs) in Hc as (k' & e' & He' & Hcons).
  destruct (consider_Some _ _ _ _ Hcons) as (d' & p' & _ & _ & _ & _ & ->).
  cbn in Hcode.
  assert (E : (k', e') = (k, e)).
  { apply (NoDup_map_In (fun ke => ChargeIndex.code (snd ke)) db); auto. }
  injection E as -> ->. eauto.
Qed.

Lemma gross_charges_unpriced (cs : list json) :
  List.Forall (fun c => is_object c /\ truthy (field c "gross_charge") = false) cs ->
  gross_charges cs = Ok [].
Proof.
  induction 1 as [|c cs [Hobj Hf] _ IH]; [reflexivity|].
  cbn [gross_charges]. rewrite (get_object c _ Hobj). cbn [bind]. now rewrite Hf.
Qed.

(** X5. An entry none of whose price variants has a true gross charge (the
    field is missing, [null] or zero) is never among the alternatives
    returned, whatever the query and however high the ceiling: a gross charge
    of zero counts as no price, not as the lowest one. *)
Theorem unpriced_entry_never_returned (db : index) (description : string)
    (max_price : spec_float) (limit : Z) (r : list candidate)
    (k : pykey) (e : db_entry) :
  List.NoDup (stored_codes db) ->
  In (k, e) db ->
  unpriced e ->
  find_similar_cheaper_codes db description max_price limit = Ok r ->
  ~ includes r e.
Proof.
  intros Hnd He (vs & Hvs & Hall) H (c & Hc & Hcode).
  unfold find_similar_cheaper_codes in H.
  apply bind_Ok in H as (cs & Hcs & H). injection H as <-.
  apply upto_In in Hc. apply (Permutation_in _ (sort_perm cs)) in Hc.
  destruct (includes_consider db description max_price cs k e Hnd Hcs He)
    as (c' & _ & Hcons); [now exists c|].
  destruct (consider_Some _ _ _ _ Hcons) as (d & p & _ & _ & Hp & Hlt & _).
  unfold minimum_price in Hp. rewrite Hvs in Hp. cbn [iter bind] in Hp.
  rewrite (gross_charges_unpriced _ Hall) in Hp. cbn in Hp. injection Hp as <-.
  now rewrite flt_inf_l in Hlt.
Qed.

Lemma unpriced_entry_never_returned_witness :
  let free := Fixtures.priced "71049" "Chest xray views, free" 0 in
  let db := Fixtures.priced "71046" "Chest xray 2 views" 80 :: free
            :: Fixtures.priced "71047" "Chest xray 3 views" 90 :: [] in
  find_similar_cheaper_codes db "Chest XRAY views" Fixtures.hundred default_limit
  = Ok [Fixtures.hit "71046" "Chest xray 2 views" 5629499534213120 (-46) 3;
        Fixtures.hit "71047" "Chest xray 3 views" 6333186975989760 (-46) 3]
  /\ ~ includes [Fixtures.hit "71046" "Chest xray 2 views" 5629499534213120 (-46) 3;
                 Fixtures.hit "71047" "Chest xray 3 views" 6333186975989760 (-46) 3]
                (snd free).
Proof.
  intros free db.
  assert (H : find_similar_cheaper_codes db "Chest XRAY views" Fixtures.hundred
                default_limit
              = Ok [Fixtures.hit "71046" "Chest xray 2 views" 5629499534213120 (-46) 3;
                    Fixtures.hit "71047" "Chest xray 3 views" 6333186975989760 (-46) 3])
    by (vm_compute; reflexivity).
  split; [exact H|].
  apply (unpriced_entry_never_returned db "Chest XRAY views" Fixtures.hundred
           default_limit _ (fst free) (snd free)); [| | |exact H].
  - vm_compute. repeat (constructor; [cbn; intuition discriminate|]). constructor.
  - cbn. tauto.
  - exists [Fixtures.variant 0]. split; [reflexivity|].
    repeat constructor. eexists; reflexivity.
Defined.

Lemma fle_not_nan (x y : spec_float) :
  fle x y = true -> is_nan x = false /\ is_nan y = false.
Proof.
  destruct x as [?|?| |? ? ?], y as [?|?| |? ? ?]; cbn; auto; discriminate.
Qed.

Lemma flt_fle_trans (p m m' : spec_float) :
  flt p m = true -> fle m m' = true -> flt p m' = true.
Proof.
  intros H1 H2. destruct (flt_not_nan _ _ H1) as [Hp Hm].
  destruct (fle_not_nan _ _ H2) as [_ Hm'].
  apply (flt_rank p m' Hp Hm'). apply (flt_rank p m Hp Hm) in H1.
  apply (fle_rank m m' Hm Hm') in H2.
  destruct (rank p) as [[a1 a2] a3], (rank m) as [[b1 b2] b3], (rank m') as [[c1 c2] c3].
  unfold lex_lt in *. lia.
Qed.

Lemma consider_ceiling (kws : list string) (m m' : spec_float) (e : db_entry)
    (o : option candidate) :
  fle m m' = true ->
  consider kws m e = Ok o ->
  exists o', consider kws m' e = Ok o' /\ forall c, o = Some c -> o' = Some c.
Proof.
  intros Hle. unfold consider.
  destruct (lower_of (ChargeIndex.description e)) as [d|x]; [|discriminate].
  cbn [bind]. destruct (Nat.ltb _ 2); [intros [= <-]; eexists; split; eauto|].
  destruct (negb _); [intros [= <-]; eexists; split; eauto|].
  destruct (minimum_price _) as [p|x]; [|discriminate]. cbn [bind].
  destruct (flt p m) eqn:Hlt.
  - rewrite (flt_fle_trans p m m' Hlt Hle). intros [= <-]. eexists; split; eauto.
  - intros [= <-]. destruct (flt p m'); eexists; split; eauto; discriminate.
Qed.

Lemma scan_ceiling (kws : list string) (m m' : spec_float) (db : index)
    (cs : list candidate) :
  fle m m' = true ->
  scan kws m db = Ok cs ->
  exists cs', scan kws m' db = Ok cs' /\ incl cs cs'.
Proof.
  intros Hle. revert cs. induction db as [|[k e] db IH]; intros cs H.
  - injection H as <-. exists []. split; [reflexivity | intros x []].
  - cbn [scan] in H |- *.
    apply bind_Ok in H as (o & Ho & H). apply bind_Ok in H as (cs0 & Hcs0 & H).
    injection H as <-.
    destruct (consider_ceiling kws m m' e o Hle Ho) as (o' & -> & Ho').
    destruct (IH cs0 Hcs0) as (cs0' & -> & Hincl). cbn [bind].
    eexists. split; [reflexivity|].
    destruct o as [c|].
    + rewrite (Ho' c eq_refl). intros x [<-|Hx]; [now left | right; auto].
    + destruct o'; intros x Hx; [right|]; auto.
Qed.

(** X6. Raising the ceiling loses nothing before the limit is applied: if the
    call returns for a ceiling, it returns for every higher one, and every
    candidate below the lower ceiling is a candidate below the higher one. The
    list returned is in both cases the first [limit] candidates in sorted
    order. *)
Theorem raising_ceiling_keeps_candidates (db : index) (description : string)
    (m m' : spec_float) (limit : Z) (r : list candidate) :
  fle m m' = true ->
  find_similar_cheaper_codes db description m limit = Ok r ->
  exists cs cs',
    similar_codes db description m = Ok cs
    /\ similar_codes db description m' = Ok cs'
    /\ incl cs cs'
    /\ r = upto limit (sort cs)
    /\ find_similar_cheaper_codes db description m' limit = Ok (upto limit (sort cs')).
Proof.
  intros Hle H. unfold find_similar_cheaper_codes in H.
  apply bind_Ok in H as (cs & Hcs & H). injection H as <-.
  assert (Hcs' : exists cs', similar_codes db description m' = Ok cs' /\ incl cs cs').
  { unfold similar_codes in *. destruct (negb (nonempty description)).
    - injection Hcs as <-. exists []. split; [reflexivity | intros x []].
    - destruct (keywords description) as [|kw kws].
      + injection Hcs as <-. exists []. split; [reflexivity | intros x []].
      + now apply (scan_ceiling _ m m'). }
  destruct Hcs' as (cs' & Hcs' & Hincl).
  exists cs, cs'. repeat split; auto. now apply find_similar_eq.
Qed.

Lemma raising_ceiling_keeps_candidates_witness :
  exists cs cs',
    similar_codes Fixtures.chest_index "Chest XRAY views"
      (S754_finite false 5629499534213120 (-46)) = Ok cs
    /\ similar_codes Fixtures.chest_index "Chest XRAY views" Fixtures.hundred = Ok cs'
    /\ incl cs cs'
    /\ [Fixtures.hit "71045" "Chest xray 1 view" 8444249301319680 (-47) 2;
        Fixtures.hit "71100" "Ribs xray chest wall" 4925812092436480 (-46) 2]
       = upto default_limit (sort cs)
    /\ find_similar_cheaper_codes Fixtures.chest_index "Chest XRAY views"
         Fixtures.hundred default_limit = Ok (upto default_limit (sort cs')).
Proof.
  apply (raising_ceiling_keeps_candidates Fixtures.chest_index "Chest XRAY views"
           (S754_finite false 5629499534213120 (-46)) Fixtures.hundred default_limit).
  - vm_compute. reflexivity.
  - vm_compute. reflexivity.
Defined.

End CeilingFacts.

(** ** AlternativeFinder: the keywords of a query *)

Section KeywordFacts.
Import Py AlternativeFinder.

Lemma lower_char_idem (c : ascii) : lower_char (lower_char c) = lower_char c.
Proof. destruct c as [[] [] [] [] [] [] [] []]; reflexivity. Qed.

Lemma lower_char_space (c : ascii) : is_space (lower_char c) = is_space c.
Proof. destruct c as [[] [] [] [] [] [] [] []]; reflexivity. Qed.

Lemma lower_idem (s : string) : lower (lower s) = lower s.
Proof.
  unfold lower. rewrite chars_str, List.map_map. f_equal.
  apply List.map_ext. intros c. apply lower_char_idem.
Qed.

Lemma len_str (l : list ascii) : len (str l) = List.length l.
Proof. induction l as [|c l IH]; cbn; [reflexivity | now f_equal]. Qed.

Lemma len_chars (s : string) : List.length (chars s) = len s.
Proof. induction s as [|c s IH]; cbn; [reflexivity | now f_equal]. Qed.

Lemma len_lower (s : string) : len (lower s) = len s.
Proof. unfold lower. now rewrite len_str, List.length_map, len_chars. Qed.

Lemma split_go_no_space (l w : list ascii) (t : string) :
  forallb (fun c => negb (is_space c)) w = true ->
  In t (split_go l w) ->
  forallb (fun c => negb (is_space c)) (chars t) = true.
Proof.
  revert w. induction l as [|c l IH]; intros w Hw Ht; cbn [split_go] in Ht.
  - destruct w as [|x w]; [destruct Ht|]. destruct Ht as [<-|[]].
    rewrite chars_str. apply forallb_forall. intros y Hy. apply in_rev in Hy.
    rewrite forallb_forall in Hw. now apply Hw.
  - destruct (is_space c) eqn:Hc.
    + destruct w as [|x w]; [now apply (IH [])|].
      destruct Ht as [<-|Ht]; [|now apply (IH [])].
      rewrite chars_str. apply forallb_forall. intros y Hy. apply in_rev in Hy.
      rewrite forallb_forall in Hw. now apply Hw.
    + apply (IH (c :: w)); [|exact Ht]. cbn [forallb]. now rewrite Hc.
Qed.

Lemma is_common_long (w : string) :
  3 < len w -> is_common w = true -> w = "with" \/ w = "from".
Proof.
  unfold is_common, common_words. cbn [existsb].
  rewrite !orb_true_iff, !String.eqb_eq. intros Hlen H.
  repeat (destruct H as [H|H]; [subst w; cbn in Hlen; first [lia | auto]|]).
  discriminate.
Qed.

(** X7. Every keyword taken from a query is the lower-cased form of one of
    its whitespace-separated tokens; it has more than 3 characters, is already
    in lower case, holds no whitespace and is none of the stop words. Of the
    eleven stop words only "with" and "from" are long enough to need the
    stop-word test: a token of more than 3 characters is dropped by it
    exactly when it is one of these two, in any case. *)
Theorem keywords_shape (description : string) :
  (forall kw, In kw (keywords description) ->
     (exists word, In word (split description) /\ kw = lower word)
     /\ 3 < len kw
     /\ lower kw = kw
     /\ (forall c, In c (chars kw) -> is_space c = false)
     /\ ~ In kw common_words)
  /\ (forall word, In word (split description) -> 3 < len word ->
        (In (lower word) (keywords description)
         <-> lower word <> "with" /\ lower word <> "from"))
  /\ List.length (keywords description) <= List.length (split description).
Proof.
  unfold keywords. split; [|split].
  - intros kw Hkw. apply in_map_iff in Hkw as (word & <- & Hw).
    apply filter_In in Hw as [Hw Hf]. apply andb_true_iff in Hf as [Hlen Hstop].
    apply Nat.ltb_lt in Hlen. apply negb_true_iff in Hstop.
    split; [now exists word|]. split; [now rewrite len_lower|].
    split; [apply lower_idem|]. split.
    + intros c Hc. unfold lower in Hc. rewrite chars_str in Hc.
      apply in_map_iff in Hc as (c0 & <- & Hc0). rewrite lower_char_space.
      pose proof (split_go_no_space (chars description) [] word eq_refl Hw) as Hns.
      rewrite forallb_forall in Hns. apply negb_true_iff. now apply Hns.
    + intros Hin. unfold is_common in Hstop.
      assert (existsb (String.eqb (lower word)) common_words = true).
      { apply existsb_exists. exists (lower word). split; [exact Hin|].
        apply String.eqb_refl. }
      congruence.
  - intros word Hw Hlen. split.
    + intros Hin. apply in_map_iff in Hin as (w0 & E & Hw0).
      apply filter_In in Hw0 as [_ Hf]. apply andb_true_iff in Hf as [_ Hstop].
      apply negb_true_iff in Hstop. rewrite E in Hstop.
      split; intros Heq; rewrite Heq in Hstop; discriminate.
    + intros [Hwith Hfrom]. apply in_map_iff. exists word. split; [reflexivity|].
      apply filter_In. split; [exact Hw|]. apply andb_true_iff.
      split; [now apply Nat.ltb_lt|]. apply negb_true_iff.
      destruct (is_common (lower word)) eqn:E; [|reflexivity].
      destruct (is_common_long (lower word)); [now rewrite len_lower | exact E | |];
        congruence.
  - rewrite List.length_map. apply List.filter_length_le.
Qed.

End KeywordFacts.

(** ** The pricing pre-fetch of [validate_medical_necessity] *)

Section PricingFacts.
Import Py ChargeIndex CodeLookup AlternativeFinder Service Notions.

Lemma mapM_Forall2 {A B} (f : A -> result B) (xs : list A) (ys : list B) :
  mapM f xs = Ok ys -> Forall2 (fun x y => f x = Ok y) xs ys.
Proof.
  revert ys. induction xs as [|x xs IH]; intros ys H; cbn [mapM] in H.
  - injection H as <-. constructor.
  - apply bind_Ok in H as (y & Hy & H). apply bind_Ok in H as (ys' & Hys & H).
    injection H as <-. constructor; auto.
Qed.

Lemma mapM_returns {A B} (f : A -> result B) (xs : list A) :
  (forall x, In x xs -> returns (f x)) -> returns (mapM f xs).
Proof.
  induction xs as [|x xs IH]; intros H; [now exists []|].
  cbn [mapM]. destruct (H x (or_introl eq_refl)) as [y ->]. cbn [bind].
  destruct IH as [ys ->]; [intros z Hz; apply H; now right|]. now eexists.
Qed.

Lemma mapM_raises {A B} (f : A -> result B) (xs : list A) (x : A) :
  In x xs -> raises (f x) -> raises (mapM f xs).
Proof.
  induction xs as [|y xs IH]; intros Hin Hx; [destruct Hin|].
  cbn [mapM]. destruct Hin as [->|Hin].
  - destruct Hx as [e ->]. now exists e.
  - destruct (f y) as [b|e]; [|now exists e]. cbn [bind].
    destruct (IH Hin Hx) as [e ->]. now exists e.
Qed.

(** What one turn of the loop yields, read off its three steps. *)
Lemma with_pricing_Ok (db : index) (duplicates : gmap string nat)
    (hcpcs : HCPCSCode.t) (d : CodeData.t) :
  with_pricing db duplicates hcpcs = Ok d ->
  CodeData.code d = HCPCSCode.code hcpcs
  /\ ChargeParser.parse_charge (HCPCSCode.charge hcpcs) = Ok (CodeData.billed_charge d)
  /\ lookup_hcpcs_code db (HCPCSCode.code hcpcs) None None
     = Ok (CodeData.standard_pricing d)
  /\ CodeData.duplicate_warning d = duplicates !! HCPCSCode.code hcpcs
  /\ (forall alts, CodeData.cheaper_alternatives d = Some alts ->
        alts <> []
        /\ found (CodeData.standard_pricing d) = true
        /\ flt fzero (CodeData.billed_charge d) = true
        /\ exists s, HCPCSCode.description hcpcs = Some s /\ s <> ""
             /\ find_similar_cheaper_codes db s (CodeData.billed_charge d)
                  default_limit = Ok alts).
Proof.
  unfold with_pricing. intros H.
  apply bind_Ok in H as (billed & Hb & H). apply bind_Ok in H as (exact & He & H).
  apply bind_Ok in H as (alts & Ha & H). injection H as <-.
  cbn [CodeData.code CodeData.billed_charge CodeData.standard_pricing
       CodeData.duplicate_warning CodeData.cheaper_alternatives].
  split; [reflexivity|]. split; [exact Hb|]. split; [exact He|].
  split; [reflexivity|]. intros a ->.
  destruct (found exact && opt_truthy (HCPCSCode.description hcpcs)
            && flt fzero billed)%bool eqn:G; [|discriminate Ha].
  apply andb_true_iff in G as [G Hpos]. apply andb_true_iff in G as [Hf Hd].
  apply bind_Ok in Ha as (sc & Hsc & Ha).
  assert (sc = a /\ a <> []) as [-> Hne].
  { destruct sc; [discriminate Ha|]. injection Ha as <-. split; [reflexivity|discriminate]. }
  split; [exact Hne|]. split; [exact Hf|]. split; [exact Hpos|].
  destruct (HCPCSCode.description hcpcs) as [[|ch s]|]; try discriminate Hd.
  exists (String ch s). split; [reflexivity|]. split; [discriminate | exact Hsc].
Qed.

(** X8. For line items whose codes the index does not hold, and so for every
    bill when the index is empty after a failed load, the pre-fetch raises
    nothing: it yields one record per line item, in order, with the item's
    code and parsed charge, the not-found pricing and no alternatives. *)
Theorem pricing_without_index (db : index) (duplicates : gmap string nat)
    (codes : list HCPCSCode.t) :
  (forall h, In h codes -> ~ In (KStr (HCPCSCode.code h)) (keys db)) ->
  exists priced,
    codes_with_pricing db duplicates codes = Ok priced
    /\ Forall2 (fun h d =>
          CodeData.code d = HCPCSCode.code h
          /\ ChargeParser.parse_charge (HCPCSCode.charge h)
             = Ok (CodeData.billed_charge d)
          /\ CodeData.standard_pricing d
             = NotFound (HCPCSCode.code h) not_found_message
          /\ CodeData.cheaper_alternatives d = None) codes priced.
Proof.
  intros Habsent.
  assert (Hone : forall h, In h codes ->
            exists d, with_pricing db duplicates h = Ok d
                      /\ CodeData.standard_pricing d
                         = NotFound (HCPCSCode.code h) not_found_message
                      /\ CodeData.cheaper_alternatives d = None).
  { intros h Hh. unfold with_pricing.
    destruct (parse_charge_returns (HCPCSCode.charge h)) as [b ->]. cbn [bind].
    unfold lookup_hcpcs_code.
    rewrite (proj2 (index_get_None db _) (Habsent h Hh)). cbn [bind found andb].
    eexists. split; [reflexivity|]. split; reflexivity. }
  destruct (mapM_returns (with_pricing db duplicates) codes) as [priced Hp].
  { intros h Hh. destruct (Hone h Hh) as (d & -> & _). now eexists. }
  exists priced. split; [exact Hp|].
  apply mapM_Forall2 in Hp. revert Hone. clear Habsent.
  induction Hp as [|h d codes priced Hd _ IH]; intros Hone; constructor.
  - destruct (Hone h (or_introl eq_refl)) as (d' & Hd' & Hs & Ha).
    assert (d' = d) as -> by congruence.
    destruct (with_pricing_Ok _ _ _ _ Hd) as (Hc & Hb & _). auto.
  - apply IH. intros h' Hh'. apply Hone. now right.
Qed.

Lemma pricing_without_index_witness :
  let item c g := {| HCPCSCode.code := c; HCPCSCode.description := Some "Chest xray";
                     HCPCSCode.charge := Some g; HCPCSCode.units := None;
                     HCPCSCode.revenue_code := None |} in
  let codes := [item "71046" "$100.00"; item "71046" "$100.00"; item "99213" "n/a"] in
  exists priced,
    codes_with_pricing (HCPCS_DATABASE (loaded Absent))
      (DuplicateDetector.detect_duplicates codes) codes = Ok priced
    /\ Forall2 (fun h d =>
          CodeData.code d = HCPCSCode.code h
          /\ ChargeParser.parse_charge (HCPCSCode.charge h)
             = Ok (CodeData.billed_charge d)
          /\ CodeData.standard_pricing d
             = NotFound (HCPCSCode.code h) not_found_message
          /\ CodeData.cheaper_alternatives d = None) codes priced.
Proof.
  intros item codes.
  apply (pricing_without_index (HCPCS_DATABASE (loaded Absent))).
  intros h _ Hin. exact Hin.
Defined.

Lemma find_similar_elements (db : index) (description : string)
    (max_price : spec_float) (limit : Z) (r : list candidate) (c : candidate) :
  find_similar_cheaper_codes db description max_price limit = Ok r ->
  In c r -> flt (min_price c) max_price = true /\ 2 <= match_score c.
Proof.
  intros H Hc. unfold find_similar_cheaper_codes in H.
  apply bind_Ok in H as (cs & Hcs & H). injection H as <-.
  apply upto_In in Hc. apply (Permutation_in _ (sort_perm cs)) in Hc.
  apply (similar_codes_In _ _ _ _ Hcs) in Hc as (k & e & He & Hcons).
  destruct (consider_Some _ _ _ _ Hcons) as (d & p & _ & Hm & _ & Hlt & ->). auto.
Qed.

Lemma find_similar_length (db : index) (description : string)
    (max_price : spec_float) (r : list candidate) :
  find_similar_cheaper_codes db description max_price default_limit = Ok r ->
  List.length r <= 5.
Proof.
  intros H. unfold find_similar_cheaper_codes in H.
  apply bind_Ok in H as (cs & _ & H). injection H as <-.
  unfold upto, default_limit. cbn. apply firstn_le_length.
Qed.

(** X9. The pre-fetch run on the duplicates of the same bill warns of a
    duplicate on exactly the line items whose code occurs more than once in
    the bill, every instance of it included, and the count it reports is the
    number of occurrences. *)
Theorem duplicate_warning_counts (db : index) (codes : list HCPCSCode.t)
    (priced : list CodeData.t) :
  codes_with_pricing db (DuplicateDetector.detect_duplicates codes) codes = Ok priced ->
  Forall2 (fun h d =>
     let n := count_occ string_dec (List.map HCPCSCode.code codes) (HCPCSCode.code h) in
     CodeData.duplicate_warning d = if decide (1 < n) then Some n else None)
    codes priced.
Proof.
  intros H. apply mapM_Forall2 in H. eapply Forall2_impl; [exact H|].
  intros h d Hd. cbv zeta.
  destruct (with_pricing_Ok _ _ _ _ Hd) as (_ & _ & _ & -> & _).
  destruct (DuplicateDetector.detect_duplicates codes !! HCPCSCode.code h) as [n|] eqn:E.
  - apply detect_duplicates_lookup in E as [-> Hn]. now rewrite decide_True.
  - destruct (decide _) as [Hn|]; [|reflexivity].
    assert (Hl : DuplicateDetector.detect_duplicates codes !! HCPCSCode.code h
                 = Some (count_occ string_dec (List.map HCPCSCode.code codes)
                           (HCPCSCode.code h))).
    { apply detect_duplicates_lookup. auto. }
    congruence.
Qed.

Lemma duplicate_warning_counts_witness :
  let item c g := {| HCPCSCode.code := c; HCPCSCode.description := Some "Chest xray";
                     HCPCSCode.charge := Some g; HCPCSCode.units := None;
                     HCPCSCode.revenue_code := None |} in
  let codes := [item "71046" "$100.00"; item "99213" "$50"; item "71046" "$100.00"] in
  exists priced,
    List.map CodeData.duplicate_warning priced = [Some 2; None; Some 2]
    /\ Forall2 (fun h d =>
         let n := count_occ string_dec (List.map HCPCSCode.code codes)
                    (HCPCSCode.code h) in
         CodeData.duplicate_warning d = if decide (1 < n) then Some n else None)
        codes priced.
Proof.
  intros item codes.
  destruct (codes_with_pricing Fixtures.chest_index
              (DuplicateDetector.detect_duplicates codes) codes) as [priced|e] eqn:E;
    [|vm_compute in E; discriminate E].
  exists priced. split.
  - vm_compute in E. injection E as <-. reflexivity.
  - exact (duplicate_warning_counts Fixtures.chest_index codes priced E).
Defined.

(** X10. The pre-fetch attaches cheaper alternatives to a line item only when
    the item's code is in the index, the item has a description and its
    parsed charge is above zero; the alternatives attached are then between
    one and five, each with at least two keyword matches and a price strictly
    below the item's parsed charge. *)
Theorem attached_alternatives_cheaper (db : index) (duplicates : gmap string nat)
    (codes : list HCPCSCode.t) (priced : list CodeData.t) :
  codes_with_pricing db duplicates codes = Ok priced ->
  Forall2 (fun h d =>
     forall alts, CodeData.cheaper_alternatives d = Some alts ->
       1 <= List.length alts <= 5
       /\ found (CodeData.standard_pricing d) = true
       /\ opt_truthy (HCPCSCode.description h) = true
       /\ flt fzero (CodeData.billed_charge d) = true
       /\ forall c, In c alts ->
            flt (min_price c) (CodeData.billed_charge d) = true
            /\ 2 <= match_score c) codes priced.
Proof.
  intros H. apply mapM_Forall2 in H. eapply Forall2_impl; [exact H|].
  intros h d Hd alts Halts.
  destruct (with_pricing_Ok _ _ _ _ Hd) as (_ & _ & _ & _ & Ha).
  destruct (Ha alts Halts) as (Hne & Hf & Hpos & s & Hs & Hs' & Hfind).
  split; [split|].
  - destruct alts; [congruence | cbn; lia].
  - now apply (find_similar_length db s (CodeData.billed_charge d)).
  - split; [exact Hf|]. split; [|split; [exact Hpos|]].
    + rewrite Hs. destruct s; [congruence | reflexivity].
    + intros c Hc. now apply (find_similar_elements db s _ default_limit alts).
Qed.

Lemma attached_alternatives_cheaper_witness :
  let item c d g := {| HCPCSCode.code := c; HCPCSCode.description := d;
                       HCPCSCode.charge := Some g; HCPCSCode.units := None;
                       HCPCSCode.revenue_code := None |} in
  let codes := [item "71250" (Some "Chest XRAY views") "$100.00";
                item "71250" None "$100.00";
                item "71250" (Some "Chest XRAY views") "free";
                item "00000" (Some "Chest XRAY views") "$100.00"] in
  exists priced,
    List.map (fun d => match CodeData.cheaper_alternatives d with
                       | Some alts => List.length alts
                       | None => 0
                       end) priced = [5; 0; 0; 0]
    /\ Forall2 (fun h d =>
         forall alts, CodeData.cheaper_alternatives d = Some alts ->
           1 <= List.length alts <= 5
           /\ found (CodeData.standard_pricing d) = true
           /\ opt_truthy (HCPCSCode.description h) = true
           /\ flt fzero (CodeData.billed_charge d) = true
           /\ forall c, In c alts ->
                flt (min_price c) (CodeData.billed_charge d) = true
                /\ 2 <= match_score c) codes priced.
Proof.
  intros item codes.
  destruct (codes_with_pricing Fixtures.chest_index ∅ codes) as [priced|e] eqn:E;
    [|vm_compute in E; discriminate E].
  exists priced. split.
  - vm_compute in E. injection E as <-. reflexivity.
  - exact (attached_alternatives_cheaper Fixtures.chest_index ∅ codes priced E).
Defined.

End PricingFacts.

(** ** The request handler *)

Section HandlerFacts.
Import Py ChargeIndex CodeLookup Service Notions MoreNotions.

Lemma merge_Ok (codes : list HCPCSCode.t) (validation : ValidationResponse.t) :
  exists res,
    Merge.merge codes validation
    = Ok (res, total (List.map CodeAnalysis.billed_charge (disputed res)))
    /\ Forall2 (attached (ValidationResponse.validations validation)) codes res.
Proof.
  destruct (merge_acc (ValidationResponse.validations validation) codes [] fzero)
    as (res & Hres & Hall).
  exists res. split; [exact Hres | exact Hall].
Qed.

Lemma draft_none_disputed (llm : collaborator) (payload : AnalyzeRequest.t)
    (res : list CodeAnalysis.t) (overall : string) (amount : spec_float) :
  disputed res = [] ->
  draft_appeal_letter llm payload res overall amount = Done no_appeal_message.
Proof.
  unfold draft_appeal_letter, disputed, is_disputed. intros H.
  change (fun c => String.eqb (CodeAnalysis.status c) "disputed")
    with (fun a => String.eqb (CodeAnalysis.status a) "disputed").
  now rewrite H.
Qed.

Lemma draft_some_disputed (llm : collaborator) (payload : AnalyzeRequest.t)
    (res : list CodeAnalysis.t) (overall : string) (amount : spec_float) :
  disputed res <> [] ->
  draft_appeal_letter llm payload res overall amount
  = match draft_call llm (AnalyzeRequest.bill payload)
            (str_or (AnalyzeRequest.after_care_summary payload) "None provided")
            overall (List.map disputed_info (disputed res)) amount with
    | Error exc => Failed (HTTPException 502 ("Failed to draft appeal letter: " ++ exc))
    | Unparsed => Failed (HTTPException 502 "Failed to parse appeal draft response.")
    | Parsed appeal_draft => Done appeal_draft
    end.
Proof.
  unfold draft_appeal_letter, disputed, is_disputed. intros H.
  destruct (List.filter _ res); [congruence | reflexivity].
Qed.

(** The handler, step by step. *)
Lemma analyze_bill_eq (llm : collaborator) (db : index) (payload : AnalyzeRequest.t) :
  analyze_bill llm db payload
  = match extract_call llm (AnalyzeRequest.bill payload)
            (AnalyzeRequest.after_care_summary payload) with
    | Error exc => Failed (HTTPException 502 ("Failed to extract HCPCS codes: " ++ exc))
    | Unparsed => Failed (HTTPException 502 "Failed to parse HCPCS codes from response.")
    | Parsed codes =>
        match codes_with_pricing db (DuplicateDetector.detect_duplicates codes) codes with
        | Raise e => Failed (Uncaught e)
        | Ok priced =>
            match validate_call llm (AnalyzeRequest.bill payload)
                    (str_or (AnalyzeRequest.after_care_summary payload) "None provided")
                    priced with
            | Error exc =>
                Failed (HTTPException 502
                          ("Failed to validate medical necessity: " ++ exc))
            | Unparsed =>
                Failed (HTTPException 502 "Failed to parse validation response.")
            | Parsed validation =>
                match Merge.merge codes validation with
                | Raise e => Failed (Uncaught e)
                | Ok (res, savings) =>
                    and_then
                      (draft_appeal_letter llm payload res
                         (ValidationResponse.overall_reasoning validation) savings)
                      (fun appeal_draft =>
                       Done {| AnalyzeResponse.codes := res;
                               AnalyzeResponse.savings := savings;
                               AnalyzeResponse.appeal_draft := appeal_draft;
                               AnalyzeResponse.overall_reasoning :=
                                 ValidationResponse.overall_reasoning validation |})
                end
            end
        end
    end.
Proof.
  unfold analyze_bill, extract_hcpcs_codes, validate_medical_necessity.
  destruct (extract_call llm _ _) as [codes| |exc]; try reflexivity.
  cbn [and_then]. destruct (codes_with_pricing db _ codes) as [priced|e]; [|reflexivity].
  cbn [uncaught and_then].
  destruct (validate_call llm _ _ priced) as [validation| |exc]; try reflexivity.
  cbn [and_then]. destruct (Merge.merge codes validation) as [[res savings]|e];
    reflexivity.
Qed.

Lemma attached_not_disputed (vs : list CodeValidation.t) (codes : list HCPCSCode.t)
    (res : list CodeAnalysis.t) :
  (forall v, In v vs -> CodeValidation.status v <> "disputed") ->
  Forall2 (attached vs) codes res -> disputed res = [].
Proof.
  intros Hvs Hall. unfold disputed.
  induction Hall as [|h a codes res Ha _ IH]; [reflexivity|].
  cbn [List.filter]. rewrite IH.
  destruct Ha as (_ & _ & _ & _ & Hval). unfold is_disputed.
  destruct (String.eqb_spec (CodeAnalysis.status a) "disputed") as [E|]; [|reflexivity].
  destruct (matching_validation vs (HCPCSCode.code h)) as [v|] eqn:Hm.
  - apply matching_validation_Some in Hm as [Hin _]. destruct Hval as [Hs _].
    destruct (Hvs v Hin). congruence.
  - destruct Hval as [Hs _]. rewrite Hs in E. discriminate.
Qed.

(** X11. A bill with a line item whose code is indexed with a description of
    [None] makes the handler fail with an exception that nothing catches,
    raised by the pricing pre-fetch: it is not turned into the 502 of an
    upstream failure, and it is raised whatever the collaborator would have
    answered to the validation and drafting calls. *)
Theorem analyze_bill_uncaught (llm : collaborator) (db : index)
    (payload : AnalyzeRequest.t) (codes : list HCPCSCode.t)
    (h : HCPCSCode.t) (entry : db_entry) :
  extract_call llm (AnalyzeRequest.bill payload)
    (AnalyzeRequest.after_care_summary payload) = Parsed codes ->
  In h codes ->
  index_get db (KStr (HCPCSCode.code h)) = Some entry ->
  description entry = JNull ->
  exists e, analyze_bill llm db payload = Failed (Uncaught e).
Proof.
  intros Hext Hh Hget Hd. rewrite analyze_bill_eq, Hext.
  assert (Hr : raises (codes_with_pricing db
                         (DuplicateDetector.detect_duplicates codes) codes)).
  { apply (mapM_raises _ codes h Hh). unfold with_pricing.
    destruct (parse_charge_returns (HCPCSCode.charge h)) as [b ->]. cbn [bind].
    apply bind_raises. unfold lookup_hcpcs_code. rewrite Hget, Hd. now exists TypeError. }
  destruct Hr as [e ->]. now exists e.
Qed.

Lemma analyze_bill_uncaught_witness :
  let db := HCPCS_DATABASE
              (loaded (Document (Fixtures.document [Scenario.undescribed "71045"]))) in
  let codes := [Scenario.item "99213" (Some "Office visit") "$10.00";
                Scenario.item "71045" (Some "Chest xray") "$100.00"] in
  let llm := Scenario.scripted (Parsed codes)
               (Parsed {| ValidationResponse.validations := [];
                          ValidationResponse.overall_reasoning := "Nothing to dispute." |})
               (Parsed "Dear billing office") in
  exists e, analyze_bill llm db Scenario.request = Failed (Uncaught e).
Proof.
  intros db codes llm.
  apply (analyze_bill_uncaught llm db Scenario.request codes
           (Scenario.item "71045" (Some "Chest xray") "$100.00")
           {| description := JNull; code := JStr "71045";
              standard_charges := JArr [Fixtures.variant 60];
              revenue_code := JNull |}).
  - reflexivity.
  - right. left. reflexivity.
  - vm_compute. reflexivity.
  - reflexivity.
Defined.

(** X12. When the collaborator marks no code as disputed, the handler
    returns, without asking it for a letter: the savings are 0.0, the appeal
    draft is the fixed message that no appeal is needed, there is one
    analysis per line item in order, none disputed, and the overall reasoning
    is the collaborator's. *)
Theorem analyze_bill_all_accepted (llm : collaborator) (db : index)
    (payload : AnalyzeRequest.t) (codes : list HCPCSCode.t)
    (priced : list CodeData.t) (validation : ValidationResponse.t) :
  extract_call llm (AnalyzeRequest.bill payload)
    (AnalyzeRequest.after_care_summary payload) = Parsed codes ->
  codes_with_pricing db (DuplicateDetector.detect_duplicates codes) codes = Ok priced ->
  validate_call llm (AnalyzeRequest.bill payload)
    (str_or (AnalyzeRequest.after_care_summary payload) "None provided") priced
  = Parsed validation ->
  (forall v, In v (ValidationResponse.validations validation) ->
             CodeValidation.status v <> "disputed") ->
  exists res,
    analyze_bill llm db payload
    = Done {| AnalyzeResponse.codes := res;
              AnalyzeResponse.savings := fzero;
              AnalyzeResponse.appeal_draft :=
                "No disputed charges found. No appeal letter is needed.";
              AnalyzeResponse.overall_reasoning :=
                ValidationResponse.overall_reasoning validation |}
    /\ Forall2 (attached (ValidationResponse.validations validation)) codes res
    /\ disputed res = [].
Proof.
  intros Hext Hpriced Hval Hnone. rewrite analyze_bill_eq, Hext, Hpriced, Hval.
  destruct (merge_Ok codes validation) as (res & -> & Hall).
  pose proof (attached_not_disputed _ _ _ Hnone Hall) as Hd.
  exists res. rewrite Hd. cbn [List.map total fold_left].
  rewrite draft_none_disputed by exact Hd. cbn [and_then].
  split; [reflexivity|]. split; [exact Hall | reflexivity].
Qed.

Lemma analyze_bill_all_accepted_witness :
  let codes := [Scenario.item "71250" (Some "Chest xray views") "$100.00";
                Scenario.item "00000" None "n/a"] in
  let validation :=
    {| ValidationResponse.validations := [Scenario.verdict "71250" "accepted"];
       ValidationResponse.overall_reasoning := "All charges are supported." |} in
  let letter := Error "the drafting service is down" in
  exists res,
    analyze_bill (Scenario.scripted (Parsed codes) (Parsed validation) letter)
      Fixtures.chest_index Scenario.request
    = Done {| AnalyzeResponse.codes := res;
              AnalyzeResponse.savings := fzero;
              AnalyzeResponse.appeal_draft :=
                "No disputed charges found. No appeal letter is needed.";
              AnalyzeResponse.overall_reasoning := "All charges are supported." |}
    /\ Forall2 (attached (ValidationResponse.validations validation)) codes res
    /\ disputed res = [].
Proof.
  intros codes validation letter.
  destruct (codes_with_pricing Fixtures.chest_index
              (DuplicateDetector.detect_duplicates codes) codes) as [priced|e] eqn:E;
    [|vm_compute in E; discriminate E].
  apply (analyze_bill_all_accepted
           (Scenario.scripted (Parsed codes) (Parsed validation) letter)
           Fixtures.chest_index Scenario.request codes priced validation).
  - reflexivity.
  - exact E.
  - reflexivity.
  - intros v [<-|[]]. discriminate.
Defined.

(** X13. A request fails in one of two ways only. Either the handler raises
    an [HTTPException] with status 502 whose detail names the call to the
    collaborator that failed or the response that could not be parsed; or an
    exception of the pricing pre-fetch escapes uncaught, the extraction having
    succeeded. Merging never fails. A failed extraction always gives the 502,
    whatever the index holds. *)
Theorem analyze_bill_failures (llm : collaborator) (db : index)
    (payload : AnalyzeRequest.t) :
  (forall f, analyze_bill llm db payload = Failed f ->
     (exists detail, f = HTTPException 502 detail /\ upstream_detail detail)
     \/ (exists e codes,
           f = Uncaught e
           /\ extract_call llm (AnalyzeRequest.bill payload)
                (AnalyzeRequest.after_care_summary payload) = Parsed codes
           /\ codes_with_pricing db (DuplicateDetector.detect_duplicates codes) codes
              = Raise e))
  /\ (forall exc,
        extract_call llm (AnalyzeRequest.bill payload)
          (AnalyzeRequest.after_care_summary payload) = Error exc ->
        analyze_bill llm db payload
        = Failed (HTTPException 502 ("Failed to extract HCPCS codes: " ++ exc)))
  /\ (extract_call llm (AnalyzeRequest.bill payload)
        (AnalyzeRequest.after_care_summary payload) = Unparsed ->
      analyze_bill llm db payload
      = Failed (HTTPException 502 "Failed to parse HCPCS codes from response.")).
Proof.
  rewrite analyze_bill_eq. split; [|split].
  - intros f. unfold upstream_detail.
    destruct (extract_call llm _ _) as [codes| |exc].
    + destruct (codes_with_pricing db _ codes) as [priced|e] eqn:Hp.
      * destruct (validate_call llm _ _ priced) as [validation| |exc].
        -- destruct (merge_Ok codes validation) as (res & -> & _).
           destruct (List.filter is_disputed res) as [|a l] eqn:Hd.
           ++ rewrite draft_none_disputed by exact Hd. discriminate.
           ++ rewrite draft_some_disputed by (unfold disputed; congruence).
              destruct (draft_call llm _ _ _ _ _) as [letter| |exc];
                cbn [and_then]; [discriminate| |];
                intros [= <-]; left; eexists; split; try reflexivity; eauto 10.
        -- intros [= <-]. left. eexists; split; [reflexivity | eauto 10].
        -- intros [= <-]. left. eexists; split; [reflexivity | eauto 10].
      * intros [= <-]. right. now exists e, codes.
    + intros [= <-]. left. eexists; split; [reflexivity | eauto 10].
    + intros [= <-]. left. eexists; split; [reflexivity | eauto 10].
  - now intros exc ->.
  - now intros ->.
Qed.

(** X14. When the handler returns, its response is assembled from the three
    answers of the collaborator: one analysis per extracted line item, in
    order, with the validation of its code attached; the savings are the sum
    of the charges of the disputed ones; and the appeal draft is the fixed
    message when none is disputed, and otherwise the letter the collaborator
    drafted from exactly the disputed analyses and the savings. *)
Theorem analyze_bill_response (llm : collaborator) (db : index)
    (payload : AnalyzeRequest.t) (resp : AnalyzeResponse.t) :
  analyze_bill llm db payload = Done resp ->
  exists codes priced validation,
    extract_call llm (AnalyzeRequest.bill payload)
      (AnalyzeRequest.after_care_summary payload) = Parsed codes
    /\ codes_with_pricing db (DuplicateDetector.detect_duplicates codes) codes
       = Ok priced
    /\ validate_call llm (AnalyzeRequest.bill payload)
         (str_or (AnalyzeRequest.after_care_summary payload) "None provided") priced
       = Parsed validation
    /\ Forall2 (attached (ValidationResponse.validations validation)) codes
         (AnalyzeResponse.codes resp)
    /\ AnalyzeResponse.savings resp
       = total (List.map CodeAnalysis.billed_charge
                  (disputed (AnalyzeResponse.codes resp)))
    /\ AnalyzeResponse.overall_reasoning resp
       = ValidationResponse.overall_reasoning validation
    /\ ((disputed (AnalyzeResponse.codes resp) = []
         /\ AnalyzeResponse.appeal_draft resp
            = "No disputed charges found. No appeal letter is needed.")
        \/ (disputed (AnalyzeResponse.codes resp) <> []
            /\ draft_call llm (AnalyzeRequest.bill payload)
                 (str_or (AnalyzeRequest.after_care_summary payload) "None provided")
                 (ValidationResponse.overall_reasoning validation)
                 (List.map disputed_info (disputed (AnalyzeResponse.codes resp)))
                 (AnalyzeResponse.savings resp)
               = Parsed (AnalyzeResponse.appeal_draft resp))).
Proof.
  rewrite analyze_bill_eq.
  destruct (extract_call llm _ _) as [codes| |exc]; try discriminate.
  destruct (codes_with_pricing db _ codes) as [priced|e] eqn:Hp; [|discriminate].
  destruct (validate_call llm _ _ priced) as [validation| |exc] eqn:Hv;
    try discriminate.
  destruct (merge_Ok codes validation) as (res & -> & Hall).
  intros H. exists codes, priced, validation.
  split; [reflexivity|]. split; [exact Hp|]. split; [exact Hv|].
  destruct (disputed res) as [|a l] eqn:Hd.
  - rewrite draft_none_disputed in H by exact Hd. cbn [and_then] in H.
    injection H as <-. cbn [AnalyzeResponse.codes AnalyzeResponse.savings
      AnalyzeResponse.overall_reasoning AnalyzeResponse.appeal_draft].
    rewrite Hd. split; [exact Hall|]. split; [reflexivity|]. split; [reflexivity|].
    left. split; reflexivity.
  - rewrite draft_some_disputed in H by congruence. rewrite Hd in H.
    destruct (draft_call llm _ _ _ _ _) as [letter| |exc] eqn:Hl; try discriminate H.
    cbn [and_then] in H. injection H as <-.
    cbn [AnalyzeResponse.codes AnalyzeResponse.savings
      AnalyzeResponse.overall_reasoning AnalyzeResponse.appeal_draft].
    rewrite Hd. split; [exact Hall|]. split; [reflexivity|]. split; [reflexivity|].
    right. split; [discriminate | exact Hl].
Qed.

Lemma analyze_bill_response_witness :
  let codes := [Scenario.item "71250" (Some "Chest xray views") "$100.00";
                Scenario.item "99213" (Some "Office visit") "$100.00";
                Scenario.item "71250" (Some "Chest xray views") "$100.00"] in
  let validation :=
    {| ValidationResponse.validations :=
         [Scenario.verdict "71250" "disputed"; Scenario.verdict "99213" "accepted"];
       ValidationResponse.overall_reasoning := "The imaging was not ordered." |} in
  let llm := Scenario.scripted (Parsed codes) (Parsed validation)
               (Parsed "Dear billing office") in
  exists resp,
    analyze_bill llm Fixtures.chest_index Scenario.request = Done resp
    /\ List.map CodeAnalysis.status (AnalyzeResponse.codes resp)
       = ["disputed"; "accepted"; "disputed"]
    /\ AnalyzeResponse.savings resp
       = total (List.map CodeAnalysis.billed_charge
                  (disputed (AnalyzeResponse.codes resp)))
    /\ List.length (disputed (AnalyzeResponse.codes resp)) = 2
    /\ AnalyzeResponse.appeal_draft resp = "Dear billing office".
Proof.
  intros codes validation llm.
  destruct (analyze_bill llm Fixtures.chest_index Scenario.request) as [resp|f] eqn:E;
    [|vm_compute in E; discriminate E].
  exists resp. split; [reflexivity|].
  destruct (analyze_bill_response llm Fixtures.chest_index Scenario.request resp E)
    as (codes' & priced & validation' & _ & _ & _ & _ & Hs & _ & _).
  split; [|split; [exact Hs|]];
    vm_compute in E; injection E as <-; repeat split; reflexivity.
Defined.

End HandlerFacts.

(** ** ChargeIndex: loading again *)

Section ReloadFacts.
Import Py ChargeIndex Notions MoreNotions.

Lemma grows_covers (db db' : index) : grows db db' -> covers db' db.
Proof.
  intros [[added ->] _] k. unfold index_mem.
  destruct (index_get db k) as [e|] eqn:E; [|discriminate].
  now rewrite (index_get_app_l _ added _ _ E).
Qed.

Lemma covers_trans (db1 db2 db3 : index) :
  covers db3 db2 -> covers db2 db1 -> covers db3 db1.
Proof. intros H32 H21 k Hk. auto. Qed.

Lemma replays_pure (r : result unit) : replays (lift r).
Proof. intros w w' _ _. reflexivity. Qed.

Lemma index_code_info_replays (r codes ci : json) :
  replays (index_code_info r codes ci).
Proof.
  intros w w'. unfold index_code_info, bindM, lift, ret, read_db, store.
  destruct (get ci "type") as [ty|x]; [|reflexivity].
  destruct (eq_str ty "HCPCS"); [|reflexivity].
  destruct (get ci "code") as [c|x]; [|reflexivity].
  destruct (truthy c); [|reflexivity].
  destruct (hash_key c) as [k|x]; [|reflexivity].
  destruct (index_mem (HCPCS_DATABASE w) k) eqn:Hmem.
  - cbn [fst snd]. intros Hcov _. now rewrite (Hcov k Hmem).
  - assert (Hsame : forall res : result unit,
              HCPCS_DATABASE w' = HCPCS_DATABASE w ->
              (if index_mem (HCPCS_DATABASE w') k then (Ok tt, w') else (res, w'))
              = (res, w')).
    { intros res E. now rewrite E, Hmem. }
    destruct (get r "description") as [d|x];
      [|cbn [fst snd]; intros _ H; rewrite (H x eq_refl), Hmem; reflexivity].
    destruct (get_default r "standard_charges" (JArr [])) as [sc|x];
      [|cbn [fst snd]; intros _ H; rewrite (H x eq_refl), Hmem; reflexivity].
    destruct (iter codes) as [cs|x];
      [|cbn [fst snd]; intros _ H; rewrite (H x eq_refl), Hmem; reflexivity].
    destruct (first_rc cs) as [rc|x];
      [|cbn [fst snd]; intros _ H; rewrite (H x eq_refl), Hmem; reflexivity].
    cbn [fst snd HCPCS_DATABASE]. intros Hcov _.
    rewrite (Hcov k); [reflexivity|].
    unfold index_mem. rewrite index_get_snoc.
    destruct (index_get (HCPCS_DATABASE w) k); [reflexivity|].
    now destruct (decide (k = k)).
Qed.

Lemma for_each_replays {A} (body : A -> M unit) (xs : list A) :
  (forall x w, grows (HCPCS_DATABASE w) (HCPCS_DATABASE (snd (body x w)))) ->
  (forall x, replays (body x)) ->
  replays (for_each xs body).
Proof.
  intros Hgrows Hbody. induction xs as [|x xs IH]; intros w w'; [reflexivity|].
  cbn [for_each]. unfold bindM.
  pose proof (Hbody x w w') as Hx.
  pose proof (for_each_grows body xs Hgrows) as Hrest.
  destruct (body x w) as [[[]|e] w1] eqn:E; cbn [fst snd] in *.
  - intros Hcov Hraise.
    rewrite Hx.
    + apply IH; assumption.
    + eapply covers_trans; [exact Hcov | apply grows_covers, Hrest].
    + discriminate.
  - intros Hcov Hraise. now rewrite Hx.
Qed.

Lemma index_record_grows (r : json) (w : world) :
  grows (HCPCS_DATABASE w) (HCPCS_DATABASE (snd (index_record r w))).
Proof.
  unfold index_record, bindM, lift.
  destruct (get_default r _ _) as [codes|x]; [|apply grows_refl].
  destruct (iter codes) as [infos|x]; [|apply grows_refl].
  apply for_each_grows. intros ci w1. apply index_code_info_grows.
Qed.

Lemma index_record_replays (r : json) : replays (index_record r).
Proof.
  intros w w'. unfold index_record, bindM, lift.
  destruct (get_default r _ _) as [codes|x]; [|reflexivity].
  destruct (iter codes) as [infos|x]; [|reflexivity].
  apply for_each_replays.
  - intros ci w1. apply index_code_info_grows.
  - intros ci. apply index_code_info_replays.
Qed.

Lemma index_document_replays (data : json) : replays (index_document data).
Proof.
  intros w w'. unfold index_document, bindM, lift.
  destruct (get_default data _ _) as [v|x]; [|reflexivity].
  destruct (iter v) as [recs|x]; [|reflexivity].
  apply for_each_replays.
  - exact index_record_grows.
  - exact index_record_replays.
Qed.

(** X15. Loading the same source a second time leaves the index as the first
    load left it, whatever the index held before and whether or not the first
    load completed, and logs again what the first load logged. *)
Theorem reload_changes_nothing (src : source) (w : world) :
  let w1 := snd (load_hcpcs_database src w) in
  let w2 := snd (load_hcpcs_database src w1) in
  HCPCS_DATABASE w2 = HCPCS_DATABASE w1
  /\ exists events, log w1 = log w ++ events /\ log w2 = log w1 ++ events.
Proof.
  cbv zeta.
  unfold load_hcpcs_database, path_exists, try_exceptM, bindM, logger, json_load,
    ret, lift, read_db, is_Exception.
  destruct src as [|e|data|]; cbn [fst snd HCPCS_DATABASE log negb].
  - split; [reflexivity|]. exists [Info_loading; Warning_not_found].
    rewrite <- !app_assoc. auto.
  - split; [reflexivity|]. exists [Info_loading; Error_loading e].
    rewrite <- !app_assoc. auto.
  - set (wa := {| HCPCS_DATABASE := HCPCS_DATABASE w;
                  log := (log w ++ [Info_loading]) ++ [Info_parsing] |}).
    pose proof (index_document_log data wa) as Hlog.
    pose proof (index_document_replays data wa) as Hre.
    destruct (index_document data wa) as [[[]|e] wb] eqn:E;
      cbn [fst snd HCPCS_DATABASE log] in *.
    + rewrite (Hre {| HCPCS_DATABASE := HCPCS_DATABASE wb;
                      log := ((log wb ++ [Info_loaded (List.length (HCPCS_DATABASE wb))])
                              ++ [Info_loading]) ++ [Info_parsing] |});
        [| intros k Hk; exact Hk | discriminate].
      cbn [fst snd HCPCS_DATABASE log]. split; [reflexivity|].
      exists [Info_loading; Info_parsing; Info_loaded (List.length (HCPCS_DATABASE wb))].
      rewrite Hlog. unfold wa. cbn [log]. rewrite <- !app_assoc. auto.
    + rewrite (Hre {| HCPCS_DATABASE := HCPCS_DATABASE wb;
                      log := ((log wb ++ [Error_loading e]) ++ [Info_loading])
                             ++ [Info_parsing] |});
        [| intros k Hk; exact Hk | reflexivity].
      cbn [fst snd HCPCS_DATABASE log]. split; [reflexivity|].
      exists [Info_loading; Info_parsing; Error_loading e].
      rewrite Hlog. unfold wa. cbn [log]. rewrite <- !app_assoc. auto.
  - split; [reflexivity|]. exists [Info_loading]. auto.
Qed.

End ReloadFacts.

(** ** AlternativeFinder: queries with fewer than two keywords *)

Section FewKeywordsFacts.
Import Py ChargeIndex AlternativeFinder Notions.

Lemma upto_nil {A} (limit : Z) : upto limit (@nil A) = [].
Proof. unfold upto. destruct (0 <=? limit)%Z; apply firstn_nil. Qed.

Lemma scan_few_keywords (kws : list string) (max_price : spec_float) (db : index) :
  List.length kws < 2 ->
  (forall k e, In (k, e) db -> exists d, ChargeIndex.description e = JStr d) ->
  scan kws max_price db = Ok [].
Proof.
  intros Hfew. induction db as [|[k e] db IH]; intros Hdesc; [reflexivity|].
  cbn [scan]. destruct (Hdesc k e) as [d Hd]; [now left|].
  unfold consider. rewrite Hd. cbn [lower_of bind].
  pose proof (count_matches_le kws (lower d)) as Hle.
  destruct (Nat.ltb_spec (count_matches kws (lower d)) 2) as [_|Hge]; [|lia].
  cbn [bind]. rewrite IH; [reflexivity|].
  intros k' e' Hin. apply (Hdesc k' e'). now right.
Qed.

(** X16. A query with fewer than two keywords finds nothing: over an index
    whose entries all have a string description, [find_similar_cheaper_codes]
    returns the empty list for every ceiling and every limit, whatever the
    price variants of the entries hold. The empty description and a
    description of short or common words only are such queries. *)
Theorem few_keywords_find_nothing (db : index) (description : string)
    (max_price : spec_float) (limit : Z) :
  List.length (keywords description) < 2 ->
  (forall k e, In (k, e) db -> exists d, ChargeIndex.description e = JStr d) ->
  find_similar_cheaper_codes db description max_price limit = Ok [].
Proof.
  intros Hfew Hdesc. unfold find_similar_cheaper_codes, similar_codes.
  destruct (negb (nonempty description)); [cbn [bind sort]; now rewrite upto_nil|].
  destruct (keywords description) as [|kw kws] eqn:E;
    [cbn [bind sort]; now rewrite upto_nil|].
  rewrite (scan_few_keywords _ _ _ Hfew Hdesc). cbn [bind sort]. now rewrite upto_nil.
Qed.

Lemma few_keywords_find_nothing_witness :
  keywords "Xray of the chest" = ["xray"; "chest"]
  /\ keywords "Chest and rib" = ["chest"]
  /\ find_similar_cheaper_codes Fixtures.chest_index "Chest and rib"
       Fixtures.hundred default_limit = Ok [].
Proof.
  split; [vm_compute; reflexivity|]. split; [vm_compute; reflexivity|].
  apply (few_keywords_find_nothing Fixtures.chest_index "Chest and rib"
           Fixtures.hundred default_limit).
  - vm_compute. lia.
  - intros k e Hin. cbn in Hin.
    repeat (destruct Hin as [[= <- <-]|Hin]; [eexists; reflexivity|]).
    destruct Hin.
Defined.

End FewKeywordsFacts.
